(** * StorageNATS: a shallow embedding of src/Storages/NATS/StorageNATS.cpp

    The storage object is a record; every member function is a function in a
    small monad that threads the object, carries C++ exceptions, and has an
    outcome for a thread that waits on the pool's semaphore.  Calls into
    collaborators whose code is elsewhere (the broker connection, the
    scheduler pool, the insert pipeline) take their answers as arguments and
    leave an event in a trace kept beside the object. *)

From Stdlib Require Import String Ascii ZArith Arith Bool List Lia.
Import ListNotations.

Set Implicit Arguments.

(** ** Constants (StorageNATS.cpp, lines 31-34; NATSHandler.h, lines 16-20) *)

Definition QUEUE_SIZE : Z := 100000.
Definition RESCHEDULE_MS : Z := 500.
Definition BACKOFF_TRESHOLD : Z := 8000.
Definition MAX_THREAD_WORK_DURATION_MS : Z := 60000.

Module Loop.
Definition RUN : Z := 1.
Definition STOP : Z := 2.
End Loop.

(** ** Exceptions *)

Inductive ErrorCode : Type :=
| LOGICAL_ERROR
| BAD_ARGUMENTS
| NUMBER_OF_ARGUMENTS_DOESNT_MATCH
| CANNOT_CONNECT_NATS
| QUERY_NOT_ALLOWED
| FOREIGN_ERROR.   (* anything thrown by a collaborator or by a library *)

Record Exception : Type := mkException { code : ErrorCode; message : string }.

(** ** The pieces of the object *)

(** A [ConsumerBufferPtr] is a shared pointer: what matters is which buffer
    it points to. *)
Definition ConsumerBufferPtr : Type := nat.

(** Poco::Semaphore(n, max): a counter between 0 and max. *)
Module Poco.
Record Semaphore : Type := mkSemaphore { count : nat; max : nat }.

(** [set]: one more unit; the library throws when the counter is at max. *)
Definition set (m : Semaphore) : option Semaphore :=
  if count m <? max m then Some (mkSemaphore (S (count m)) (max m)) else None.

(** [wait] and [tryWait] both take a unit when there is one; what they do
    when there is none is decided by the caller's outcome. *)
Definition take (m : Semaphore) : option Semaphore :=
  match count m with
  | O => None
  | S n => Some (mkSemaphore n (max m))
  end.
End Poco.

(** NATSHandler.h: the two atomics the storage reads and writes. *)
Record NATSHandler : Type := mkHandler {
  loop_running : bool;
  loop_state : Z
}.

Definition updateLoopState (state : Z) (h : NATSHandler) : NATSHandler :=
  mkHandler (loop_running h) state.

Definition loopRunning (h : NATSHandler) : bool := loop_running h.

Definition getLoopState (h : NATSHandler) : Z := loop_state h.

Record NATSConnectionManager : Type := mkConnection {
  connected : bool;
  getHandler : NATSHandler
}.

Definition isConnected (c : NATSConnectionManager) : bool := connected c.

Inductive Task : Type := connection_task | streaming_task | looping_task.

Definition Task_eqb (a b : Task) : bool :=
  match a, b with
  | connection_task, connection_task => true
  | streaming_task, streaming_task => true
  | looping_task, looping_task => true
  | _, _ => false
  end.

(** What the object asked of its collaborators, oldest first. *)
Inductive Event : Type :=
| EvActivateAndSchedule (t : Task)
| EvDeactivate (t : Task)
| EvScheduleAfter (t : Task) (ms : Z)
| EvUpdateLoopState (state : Z)
| EvReconnect (restored : bool)
| EvDisconnect
| EvIterateLoop
| EvUnsubscribe (b : ConsumerBufferPtr)
| EvPipelineExecuted
| EvVerdict (back_off : bool).   (* streamToViews returned this value *)

Record TaskFlags : Type := mkTasks {
  connection_deactivated : bool;
  streaming_deactivated : bool;
  looping_deactivated : bool
}.

Definition Names : Type := list (list ascii).

Record StorageNATS : Type := mkStorage {
  subjects : Names;
  format_name : list ascii;
  num_consumers : nat;
  num_created_consumers : nat;
  buffers : list ConsumerBufferPtr;       (* std::vector, back = last *)
  semaphore : Poco.Semaphore;
  milliseconds_to_wait : Z;
  is_attach : bool;
  shutdown_called : bool;
  mv_attached : bool;
  drop_table : bool;
  readers_count : Z;                      (* size_t *)
  connection : NATSConnectionManager;
  tasks : TaskFlags;
  trace : list Event
}.

(** Field updates, one per member the code assigns. *)

Definition set_num_created_consumers (n : nat) (s : StorageNATS) : StorageNATS :=
  mkStorage (subjects s) (format_name s) (num_consumers s) n (buffers s)
    (semaphore s) (milliseconds_to_wait s) (is_attach s) (shutdown_called s)
    (mv_attached s) (drop_table s) (readers_count s) (connection s) (tasks s)
    (trace s).

Definition set_buffers (l : list ConsumerBufferPtr) (s : StorageNATS) : StorageNATS :=
  mkStorage (subjects s) (format_name s) (num_consumers s)
    (num_created_consumers s) l (semaphore s) (milliseconds_to_wait s)
    (is_attach s) (shutdown_called s) (mv_attached s) (drop_table s)
    (readers_count s) (connection s) (tasks s) (trace s).

Definition set_semaphore (m : Poco.Semaphore) (s : StorageNATS) : StorageNATS :=
  mkStorage (subjects s) (format_name s) (num_consumers s)
    (num_created_consumers s) (buffers s) m (milliseconds_to_wait s)
    (is_attach s) (shutdown_called s) (mv_attached s) (drop_table s)
    (readers_count s) (connection s) (tasks s) (trace s).

Definition set_milliseconds_to_wait (ms : Z) (s : StorageNATS) : StorageNATS :=
  mkStorage (subjects s) (format_name s) (num_consumers s)
    (num_created_consumers s) (buffers s) (semaphore s) ms (is_attach s)
    (shutdown_called s) (mv_attached s) (drop_table s) (readers_count s)
    (connection s) (tasks s) (trace s).

Definition set_shutdown_called (b : bool) (s : StorageNATS) : StorageNATS :=
  mkStorage (subjects s) (format_name s) (num_consumers s)
    (num_created_consumers s) (buffers s) (semaphore s)
    (milliseconds_to_wait s) (is_attach s) b (mv_attached s) (drop_table s)
    (readers_count s) (connection s) (tasks s) (trace s).

Definition set_mv_attached (b : bool) (s : StorageNATS) : StorageNATS :=
  mkStorage (subjects s) (format_name s) (num_consumers s)
    (num_created_consumers s) (buffers s) (semaphore s)
    (milliseconds_to_wait s) (is_attach s) (shutdown_called s) b
    (drop_table s) (readers_count s) (connection s) (tasks s) (trace s).

Definition set_readers_count (n : Z) (s : StorageNATS) : StorageNATS :=
  mkStorage (subjects s) (format_name s) (num_consumers s)
    (num_created_consumers s) (buffers s) (semaphore s)
    (milliseconds_to_wait s) (is_attach s) (shutdown_called s)
    (mv_attached s) (drop_table s) n (connection s) (tasks s) (trace s).

Definition set_connection (c : NATSConnectionManager) (s : StorageNATS) : StorageNATS :=
  mkStorage (subjects s) (format_name s) (num_consumers s)
    (num_created_consumers s) (buffers s) (semaphore s)
    (milliseconds_to_wait s) (is_attach s) (shutdown_called s)
    (mv_attached s) (drop_table s) (readers_count s) c (tasks s) (trace s).

Definition set_tasks (t : TaskFlags) (s : StorageNATS) : StorageNATS :=
  mkStorage (subjects s) (format_name s) (num_consumers s)
    (num_created_consumers s) (buffers s) (semaphore s)
    (milliseconds_to_wait s) (is_attach s) (shutdown_called s)
    (mv_attached s) (drop_table s) (readers_count s) (connection s) t
    (trace s).

Definition set_trace (tr : list Event) (s : StorageNATS) : StorageNATS :=
  mkStorage (subjects s) (format_name s) (num_consumers s)
    (num_created_consumers s) (buffers s) (semaphore s)
    (milliseconds_to_wait s) (is_attach s) (shutdown_called s)
    (mv_attached s) (drop_table s) (readers_count s) (connection s) (tasks s)
    tr.

(** Arithmetic on size_t and uint64_t members wraps at 2^64. *)
Definition uint64 (z : Z) : Z := z mod 2 ^ 64.

(** ** The monad of member functions *)

Inductive Outcome (A : Type) : Type :=
| Returns (a : A) (s : StorageNATS)       (* normal return *)
| Throws (e : Exception) (s : StorageNATS) (* an exception leaves the call *)
| Blocks (s : StorageNATS)                 (* the thread waits; no return *)
| Undefined.                               (* undefined behaviour *)

Arguments Blocks {A} s.
Arguments Undefined {A}.
Arguments Throws {A} e s.

Definition M (A : Type) : Type := StorageNATS -> Outcome A.

Definition ret {A} (a : A) : M A := fun s => Returns a s.

Definition bind {A B} (m : M A) (k : A -> M B) : M B :=
  fun s =>
    match m s with
    | Returns a s' => k a s'
    | Throws e s' => Throws e s'
    | Blocks s' => Blocks s'
    | Undefined => Undefined
    end.

Definition throw {A} (e : Exception) : M A := fun s => Throws e s.

Definition gets {A} (f : StorageNATS -> A) : M A := fun s => Returns (f s) s.

Definition modify (f : StorageNATS -> StorageNATS) : M unit :=
  fun s => Returns tt (f s).

(** try { m } catch (...) { h } *)
Definition try_catch {A} (m : M A) (h : Exception -> M A) : M A :=
  fun s =>
    match m s with
    | Throws e s' => h e s'
    | o => o
    end.

Definition emit (e : Event) : M unit :=
  modify (fun s => set_trace (trace s ++ [e]) s).

Declare Scope storage_scope.
Delimit Scope storage_scope with storage.
Notation "x <- m ;; k" := (bind m (fun x => k))
  (at level 61, m at next level, right associativity) : storage_scope.
Notation "m ;; k" := (bind m (fun _ => k))
  (at level 61, right associativity) : storage_scope.
Notation "'when' b 'then' m" := (if b then m else ret tt)
  (at level 60, b at level 9, m at level 60) : storage_scope.
Local Open Scope storage_scope.

Definition state_of {A} (o : Outcome A) (s0 : StorageNATS) : StorageNATS :=
  match o with
  | Returns _ s => s
  | Throws _ s => s
  | Blocks s => s
  | Undefined => s0
  end.

(** ** Collaborators the storage drives *)

Definition set_handler (h : NATSHandler) (s : StorageNATS) : StorageNATS :=
  set_connection (mkConnection (connected (connection s)) h) s.

Definition set_connected (b : bool) (s : StorageNATS) : StorageNATS :=
  set_connection (mkConnection b (getHandler (connection s))) s.

Definition deactivated (t : Task) (f : TaskFlags) : bool :=
  match t with
  | connection_task => connection_deactivated f
  | streaming_task => streaming_deactivated f
  | looping_task => looping_deactivated f
  end.

Definition set_deactivated (t : Task) (b : bool) (f : TaskFlags) : TaskFlags :=
  match t with
  | connection_task => mkTasks b (streaming_deactivated f) (looping_deactivated f)
  | streaming_task => mkTasks (connection_deactivated f) b (looping_deactivated f)
  | looping_task => mkTasks (connection_deactivated f) (streaming_deactivated f) b
  end.

(** Modelled from the spec: the scheduler pool's task holder (its code is in
    BackgroundSchedulePool, not in this excerpt).  A task "can be scheduled
    once, scheduled after a delay, or deactivated"; the Looping task "is
    long-running once activated and only returns when the loop's state
    becomes Stopped".  So activating the Looping task enters the handler's
    loop, which keeps running exactly while the state is RUN, and a
    deactivation, which waits for the task's function to return, cannot
    finish while that loop runs. *)
Definition activateAndSchedule (t : Task) : M unit :=
  emit (EvActivateAndSchedule t) ;;
  modify (fun s => set_tasks (set_deactivated t false (tasks s)) s) ;;
  when (Task_eqb t looping_task) then
    modify (fun s =>
      let h := getHandler (connection s) in
      set_handler (mkHandler (getLoopState h =? Loop.RUN)%Z (loop_state h)) s).

(** Modelled from the spec: deactivation of a task; it returns once the
    task's function is not running, so for the Looping task once the loop
    has left the state RUN. *)
Definition deactivate (t : Task) : M unit :=
  fun s =>
    let h := getHandler (connection s) in
    if Task_eqb t looping_task && loopRunning h && (getLoopState h =? Loop.RUN)%Z
    then Blocks s
    else
      (emit (EvDeactivate t) ;;
       modify (fun s => set_tasks (set_deactivated t true (tasks s)) s) ;;
       when (Task_eqb t looping_task) then
         modify (fun s =>
           set_handler (mkHandler false (loop_state (getHandler (connection s)))) s)) s.

(** Modelled from the spec: scheduleAfter(delay); what the pool does with
    the request is not part of this model, the request is traced. *)
Definition scheduleAfter (t : Task) (ms : Z) : M unit :=
  emit (EvScheduleAfter t ms).

(** Modelled from the spec: ConnectionManager.reconnect() "attempts
    reconnection; idempotent if already connected (returns true
    immediately)".  [attempt] is what the broker answers when asked. *)
Definition reconnect (attempt : bool) : M bool :=
  up <- gets (fun s => isConnected (connection s)) ;;
  if up then ret true
  else
    emit (EvReconnect attempt) ;;
    modify (set_connected attempt) ;;
    ret attempt.

(** Modelled from the spec: ConnectionManager.disconnect(). *)
Definition disconnect : M unit :=
  emit EvDisconnect ;; modify (set_connected false).

(** NATSHandler::iterateLoop is declared in NATSHandler.h ("loop to wait
    for small tasks in a non-blocking mode"); the pass is traced. *)
Definition iterateLoop : M unit := emit EvIterateLoop.

(** ** Loop control (lines 162-203) *)

Definition stopLoop : M unit :=
  emit (EvUpdateLoopState Loop.STOP) ;;
  modify (fun s => set_handler (updateLoopState Loop.STOP (getHandler (connection s))) s).

Definition stopLoopIfNoReaders : M unit :=
  readers <- gets readers_count ;;
  if negb (readers =? 0)%Z then ret tt
  else
    emit (EvUpdateLoopState Loop.STOP) ;;
    modify (fun s => set_handler (updateLoopState Loop.STOP (getHandler (connection s))) s).

Definition startLoop : M unit :=
  emit (EvUpdateLoopState Loop.RUN) ;;
  modify (fun s => set_handler (updateLoopState Loop.RUN (getHandler (connection s))) s) ;;
  activateAndSchedule looping_task.

Definition incrementReader : M unit :=
  modify (fun s => set_readers_count (uint64 (readers_count s + 1)) s).

Definition decrementReader : M unit :=
  modify (fun s => set_readers_count (uint64 (readers_count s - 1)) s).

(** ** connectionFunc (lines 206-210) *)

Definition connectionFunc (reconnect_attempt : bool) : M unit :=
  ok <- reconnect reconnect_attempt ;;
  when (negb ok) then scheduleAfter connection_task RESCHEDULE_MS.

(** ** deactivateTask (lines 216-232)

    [try_lock] is the answer of [lock.try_lock()] on [task_mutex]. *)
Definition deactivateTask (task : Task) (wait stop_loop try_lock : bool) : M unit :=
  (when stop_loop then stopLoop) ;;
  if try_lock then deactivate task
  else if wait then deactivate task
  else ret tt.

(** ** The buffer pool (lines 373-404) *)

Definition semaphore_set : M unit :=
  fun s =>
    match Poco.set (semaphore s) with
    | Some m => Returns tt (set_semaphore m s)
    | None => Throws (mkException FOREIGN_ERROR "Cannot signal semaphore") s
    end.

Definition semaphore_wait : M unit :=
  fun s =>
    match Poco.take (semaphore s) with
    | Some m => Returns tt (set_semaphore m s)
    | None => Blocks s
    end.

Definition semaphore_tryWait (milliseconds : Z) : M bool :=
  fun s =>
    match Poco.take (semaphore s) with
    | Some m => Returns true (set_semaphore m s)
    | None => Returns false s
    end.

Definition pushReadBuffer (buffer : ConsumerBufferPtr) : M unit :=
  modify (fun s => set_buffers (buffers s ++ [buffer]) s) ;;
  semaphore_set.

(** [buffers.back()] followed by [buffers.pop_back()]; both are undefined on
    an empty vector. *)
Definition take_back : M ConsumerBufferPtr :=
  fun s =>
    match rev (buffers s) with
    | [] => Undefined
    | buffer :: _ => Returns buffer (set_buffers (removelast (buffers s)) s)
    end.

(** popReadBuffer(std::chrono::milliseconds timeout); a null pointer is
    [None]. *)
Definition popReadBuffer (timeout : Z) : M (option ConsumerBufferPtr) :=
  acquired <- (if (timeout =? 0)%Z
               then semaphore_wait ;; ret true
               else semaphore_tryWait timeout) ;;
  if negb acquired then ret None
  else
    buffer <- take_back ;;
    ret (Some buffer).

(** popReadBuffer(): the overload without argument. *)
Definition popReadBuffer_noarg : M (option ConsumerBufferPtr) :=
  popReadBuffer 0.

(** ** read (lines 243-301) *)

Record Pipe : Type := mkPipe { num_streams : nat }.

(** [return {}] *)
Definition empty_pipe : Pipe := mkPipe 0.

(** What a call of [read] gets from outside the object. *)
Record ReadCall : Type := mkReadCall {
  (* local_context->getSettingsRef().stream_like_engine_allow_direct_select *)
  stream_like_engine_allow_direct_select : bool;
  (* getSampleBlockForColumns throws on a column the table does not have *)
  sample_block_error : option Exception;
  add_settings_error : option Exception;   (* addSettings, line 264, threw *)
  read_try_lock : bool;
  read_reconnect_attempt : bool;
  (* the sources and their converting actions, lines 277-292: what building
     them threw, if anything *)
  pipes_error : option Exception;
  (* the thread of the loop has left the loop by line 294 *)
  loop_left : bool
}.

Definition raise_if (e : option Exception) : M unit :=
  match e with
  | Some e => throw e
  | None => ret tt
  end.

(** Modelled from the spec: NATSHandler::startLoop is not in this excerpt;
    "the loop observes the flag between iterations and exits".  A loop that
    is running while the state is STOP may have left by the time
    loop_running is read again; [left] says whether it has. *)
Definition loop_leaves (left : bool) : M unit :=
  modify (fun s =>
    let h := getHandler (connection s) in
    if left && loopRunning h && (getLoopState h =? Loop.STOP)%Z
    then set_handler (mkHandler false (loop_state h)) s
    else s).

Definition read (q : ReadCall) : M Pipe :=
  created <- gets num_created_consumers ;;
  if (created =? 0)%nat then ret empty_pipe
  else if negb (stream_like_engine_allow_direct_select q) then
    throw (mkException QUERY_NOT_ALLOWED
      "Direct select is not allowed. To enable use setting `stream_like_engine_allow_direct_select`")
  else
    attached <- gets mv_attached ;;
    if attached then
      throw (mkException QUERY_NOT_ALLOWED
        "Cannot read from StorageNATS with attached materialized views")
    else
      raise_if (sample_block_error q) ;;
      raise_if (add_settings_error q) ;;
      up <- gets (fun s => isConnected (connection s)) ;;
      (if negb up then
         running <- gets (fun s => loopRunning (getHandler (connection s))) ;;
         (when running then deactivateTask looping_task false true (read_try_lock q)) ;;
         ok <- reconnect (read_reconnect_attempt q) ;;
         if negb ok then throw (mkException CANNOT_CONNECT_NATS "No connection to {}")
         else ret tt
       else ret tt) ;;
      raise_if (pipes_error q) ;;
      loop_leaves (loop_left q) ;;
      running <- gets (fun s => loopRunning (getHandler (connection s))) ;;
      up <- gets (fun s => isConnected (connection s)) ;;
      (when (negb running && up) then startLoop) ;;
      ret (mkPipe created).

(** ** startup (lines 310-334) *)

(** createReadBuffer (lines 407-413): the constructor of the consumer buffer
    subscribes at the broker, and may throw. *)
Definition createReadBuffer (made : Exception + ConsumerBufferPtr) : M ConsumerBufferPtr :=
  match made with
  | inl e => throw e
  | inr buffer => ret buffer
  end.

(** The [for] of startup, at counter [i] with [todo] rounds to go;
    [make i] is what creating the i-th buffer gives. *)
Fixpoint startup_loop (make : nat -> Exception + ConsumerBufferPtr)
    (i todo : nat) : M unit :=
  match todo with
  | O => ret tt
  | S todo' =>
      try_catch
        (buffer <- createReadBuffer (make i) ;;
         pushReadBuffer buffer ;;
         modify (fun s => set_num_created_consumers (S (num_created_consumers s)) s))
        (fun e =>
           att <- gets is_attach ;;
           if negb att then throw e else ret tt) ;;
      startup_loop make (S i) todo'
  end.

Definition startup (make : nat -> Exception + ConsumerBufferPtr) : M unit :=
  up <- gets (fun s => isConnected (connection s)) ;;
  (when (negb up) then activateAndSchedule connection_task) ;;
  n <- gets num_consumers ;;
  startup_loop make 0 n ;;
  activateAndSchedule streaming_task.

(** ** shutdown (lines 337-371) *)

Definition unsubscribe (buffer : ConsumerBufferPtr) : M unit :=
  emit (EvUnsubscribe buffer).

Fixpoint unsubscribe_all (bs : list ConsumerBufferPtr) : M unit :=
  match bs with
  | [] => ret tt
  | buffer :: rest => unsubscribe buffer ;; unsubscribe_all rest
  end.

(** [for (size_t i = 0; i < num_created_consumers; ++i) popReadBuffer();] *)
Fixpoint pop_all (todo : nat) : M unit :=
  match todo with
  | O => ret tt
  | S todo' => popReadBuffer_noarg ;; pop_all todo'
  end.

(** The three deactivations that open shutdown; the arguments are the
    answers of the three [try_lock]s. *)
Definition shutdown_tasks (lock1 lock2 lock3 : bool) : M unit :=
  modify (set_shutdown_called true) ;;
  deactivateTask connection_task true false lock1 ;;
  deactivateTask streaming_task true false lock2 ;;
  deactivateTask looping_task true true lock3.

(** The body of the [try] that closes shutdown. *)
Definition shutdown_release : M unit :=
  drop <- gets drop_table ;;
  (when drop then (bs <- gets buffers ;; unsubscribe_all bs)) ;;
  running <- gets (fun s => loopRunning (getHandler (connection s))) ;;
  (when running then stopLoop) ;;
  disconnect ;;
  created <- gets num_created_consumers ;;
  pop_all created.

Definition shutdown (lock1 lock2 lock3 : bool) : M unit :=
  shutdown_tasks lock1 lock2 lock3 ;;
  try_catch shutdown_release (fun _ => ret tt).

(** ** streamToViews (lines 517-617) *)

(** What one call of [streamToViews] gets from outside the object. *)
Record StreamPass : Type := mkStreamPass {
  table_found : bool;                  (* getTable gave a table *)
  insert_error : option Exception;     (* interpreter.execute() threw *)
  connection_lost : bool;              (* the broker went away during the pass *)
  executor_error : option Exception;   (* executor.execute() threw *)
  pass_try_lock : bool;
  queueEmpty : nat -> bool;            (* source i: is its buffer's queue empty *)
  pass_reconnect_attempt : bool
}.

Definition verdict (back_off : bool) : M bool :=
  emit (EvVerdict back_off) ;; ret back_off.

(** [for (auto & source : sources)] at lines 596-602. *)
Fixpoint probe_sources (empty : nat -> bool) (sources : list nat)
    (queue_empty : nat) : M nat :=
  match sources with
  | [] => ret queue_empty
  | source :: rest =>
      let queue_empty' := if empty source then S queue_empty else queue_empty in
      iterateLoop ;;
      probe_sources empty rest queue_empty'
  end.

(** Lines 605-616. *)
Definition streamToViews_decide (queue_empty : nat) : M bool :=
  created <- gets num_created_consumers ;;
  if (queue_empty =? created)%nat then verdict true
  else startLoop ;; verdict false.

(** Lines 576-616: what follows the pipeline pass. *)
Definition streamToViews_after_pass (p : StreamPass) (sources : list nat) : M bool :=
  deactivateTask looping_task false true (pass_try_lock p) ;;
  up <- gets (fun s => isConnected (connection s)) ;;
  if negb up then
    down <- gets shutdown_called ;;
    if down then verdict true
    else
      restored <- reconnect (pass_reconnect_attempt p) ;;
      if restored then streamToViews_decide 0
      else verdict true
  else
    queue_empty <- probe_sources (queueEmpty p) sources 0 ;;
    streamToViews_decide queue_empty.

Definition streamToViews (p : StreamPass) : M bool :=
  if negb (table_found p) then
    throw (mkException LOGICAL_ERROR "Engine table doesn't exist.")
  else
    raise_if (insert_error p) ;;
    created <- gets num_created_consumers ;;
    let sources := seq 0 created in
    running <- gets (fun s => loopRunning (getHandler (connection s))) ;;
    (when (negb running) then startLoop) ;;
    (when (connection_lost p) then modify (set_connected false)) ;;
    raise_if (executor_error p) ;;
    emit EvPipelineExecuted ;;
    streamToViews_after_pass p sources.

(** ** checkDependencies (lines 424-449) *)

Record StorageID : Type := mkStorageID {
  database_name : list ascii;
  table_name : list ascii
}.

(** What the catalog holds under a name: a materialized view, with or
    without the table it writes to, or any other table. *)
Inductive Table : Type :=
| MaterializedView (has_target : bool)   (* tryGetTargetTable() is not null *)
| OtherTable.

(** The two questions checkDependencies asks DatabaseCatalog::instance(). *)
Record DatabaseCatalog : Type := mkCatalog {
  getDependencies : StorageID -> list StorageID;
  tryGetTable : StorageID -> option Table
}.

(** The body of the [for] at lines 432-446, [check] being the recursive call:
    [None] when a call below does not come back. *)
Fixpoint check_each (catalog : DatabaseCatalog) (check : StorageID -> option bool)
    (dependencies : list StorageID) : option bool :=
  match dependencies with
  | [] => Some true
  | db_tab :: rest =>
      match tryGetTable catalog db_tab with
      | None => Some false
      | Some (MaterializedView false) => Some false
      | Some _ =>
          match check db_tab with
          | None => None
          | Some false => Some false
          | Some true => check_each catalog check rest
          end
      end
  end.

(** checkDependencies with at most [depth] nested calls; [None] when that is
    not enough. *)
Fixpoint checkDependencies (catalog : DatabaseCatalog) (depth : nat)
    (table_id : StorageID) : option bool :=
  match depth with
  | O => None
  | S depth' =>
      match getDependencies catalog table_id with
      | [] => Some true
      | dependencies =>
          check_each catalog (checkDependencies catalog depth') dependencies
      end
  end.

(** A table that is attached, and whose target is attached if it is a
    materialized view. *)
Definition ready (catalog : DatabaseCatalog) (id : StorageID) : bool :=
  match tryGetTable catalog id with
  | None => false
  | Some (MaterializedView false) => false
  | Some _ => true
  end.

(** [u] depends on [t], directly or through other tables. *)
Inductive reaches (catalog : DatabaseCatalog) : StorageID -> StorageID -> Prop :=
| reaches_step : forall t u,
    In u (getDependencies catalog t) -> reaches catalog t u
| reaches_more : forall t v u,
    In v (getDependencies catalog t) -> reaches catalog v u -> reaches catalog t u.

(** No chain of dependencies from [t] is longer than [n]. *)
Fixpoint chains_within (catalog : DatabaseCatalog) (n : nat) (t : StorageID) : Prop :=
  match n with
  | O => getDependencies catalog t = []
  | S n' => Forall (chains_within catalog n') (getDependencies catalog t)
  end.

Definition StorageID_eqb (a b : StorageID) : bool :=
  String.eqb (string_of_list_ascii (database_name a)) (string_of_list_ascii (database_name b))
  && String.eqb (string_of_list_ascii (table_name a)) (string_of_list_ascii (table_name b)).

Definition table_in_default (name : string) : StorageID :=
  mkStorageID (list_ascii_of_string "default") (list_ascii_of_string name).

(** A queue with two views, one of which feeds a third. *)
Definition example_catalog : DatabaseCatalog :=
  mkCatalog
    (fun id =>
       if StorageID_eqb id (table_in_default "queue")
       then [table_in_default "view_a"; table_in_default "view_b"]
       else if StorageID_eqb id (table_in_default "view_b")
       then [table_in_default "view_c"]
       else [])
    (fun id =>
       if StorageID_eqb id (table_in_default "queue") then Some OtherTable
       else Some (MaterializedView true)).

(** The same with view_c detached from its target table. *)
Definition broken_catalog : DatabaseCatalog :=
  mkCatalog
    (getDependencies example_catalog)
    (fun id =>
       if StorageID_eqb id (table_in_default "view_c") then Some (MaterializedView false)
       else tryGetTable example_catalog id).

(** Two views that feed each other. *)
Definition cyclic_catalog : DatabaseCatalog :=
  mkCatalog
    (fun id =>
       if StorageID_eqb id (table_in_default "view_a") then [table_in_default "view_b"]
       else if StorageID_eqb id (table_in_default "view_b") then [table_in_default "view_a"]
       else [])
    (fun _ => Some (MaterializedView true)).

(** ** streamingToViewsFunc (lines 452-514) *)

(** What one round of the [while] gets from outside the object: the
    catalog as checkDependencies(table_id) finds it, the table's own id, the
    number of nested calls the stack of the thread has room for, and the
    answers to streamToViews. *)
Record PassEnv : Type := mkPassEnv {
  catalog : DatabaseCatalog;   (* DatabaseCatalog::instance() *)
  table_id : StorageID;        (* getStorageID() *)
  stack_depth : nat;
  stream_pass : StreamPass
}.

(** Line 471.  The recursion of checkDependencies has no bound of its own:
    when it needs more nested calls than the stack holds, as on a cycle of
    dependencies, the call does not come back and the process is lost. *)
Definition check_dependencies (p : PassEnv) : M bool :=
  fun s =>
    match checkDependencies (catalog p) (stack_depth p) (table_id p) with
    | Some ready => Returns ready s
    | None => Undefined
    end.

(** The passes of one run of the task, as the clock cuts them: after the
    pass of [WithinBudget] the run has lasted at most
    MAX_THREAD_WORK_DURATION_MS, after the pass of [BudgetExceeded] it has
    lasted longer. *)
Inductive PassScript : Type :=
| BudgetExceeded (p : PassEnv)
| WithinBudget (p : PassEnv) (rest : PassScript).

(** Lines 479-480; milliseconds_to_wait is a uint64_t. *)
Definition backoff : M unit :=
  ms <- gets milliseconds_to_wait ;;
  when (ms <? BACKOFF_TRESHOLD)%Z then
    modify (set_milliseconds_to_wait (uint64 (ms * 2))).

(** One round of the [while] (lines 469-497); [next] is what follows when
    the round ends without [break] and within the time budget. *)
Definition streaming_round (p : PassEnv) (budget_exceeded : bool) (next : M unit) : M unit :=
  down <- gets shutdown_called ;;
  created <- gets num_created_consumers ;;
  if down || (created =? 0)%nat then ret tt
  else
    ready <- check_dependencies p ;;
    if negb ready then ret tt
    else
      back_off <- streamToViews (stream_pass p) ;;
      if back_off then
        backoff ;;
        stopLoopIfNoReaders
      else
        modify (set_milliseconds_to_wait RESCHEDULE_MS) ;;
        if budget_exceeded then stopLoopIfNoReaders
        else next.

Fixpoint streaming_loop (ps : PassScript) : M unit :=
  match ps with
  | BudgetExceeded p => streaming_round p true (ret tt)
  | WithinBudget p rest => streaming_round p false (streaming_loop rest)
  end.

Record Cycle : Type := mkCycle {
  dependencies_count : nat;        (* getDependencies(table_id).size() *)
  cycle_reconnect_attempt : bool;
  passes : PassScript
}.

Definition streamingToViewsFunc (c : Cycle) : M unit :=
  try_catch
    (up <- gets (fun s => isConnected (connection s)) ;;
     nats_connected <- (if up then ret true
                        else reconnect (cycle_reconnect_attempt c)) ;;
     if (0 <? dependencies_count c)%nat && nats_connected then
       modify (set_mv_attached true) ;;
       streaming_loop (passes c)
     else ret tt)
    (fun _ => ret tt) ;;
  modify (set_mv_attached false) ;;
  running <- gets (fun s => loopRunning (getHandler (connection s))) ;;
  (when running then stopLoopIfNoReaders) ;;
  down <- gets shutdown_called ;;
  when (negb down) then
    (ms <- gets milliseconds_to_wait ;;
     scheduleAfter streaming_task ms).

(** ** parseList (lines 117-127) *)

Module boost.
(** boost::split without token compression: one token per separator,
    plus one; empty tokens are kept. *)
Fixpoint split (pred : ascii -> bool) (input : list ascii) : list (list ascii) :=
  match input with
  | [] => [[]]
  | c :: rest =>
      if pred c then [] :: split pred rest
      else
        match split pred rest with
        | token :: tokens => (c :: token) :: tokens
        | [] => [[c]]
        end
  end.

(** std::isspace in the classic locale. *)
Definition is_space (c : ascii) : bool :=
  let n := nat_of_ascii c in
  (n =? 32)%nat || ((9 <=? n)%nat && (n <=? 13)%nat).

Fixpoint trim_left (s : list ascii) : list ascii :=
  match s with
  | [] => []
  | c :: rest => if is_space c then trim_left rest else s
  end.

Definition trim_right (s : list ascii) : list ascii :=
  rev (trim_left (rev s)).

Definition trim (s : list ascii) : list ascii :=
  trim_left (trim_right s).
End boost.

Definition is_comma (c : ascii) : bool := Ascii.eqb c ","%char.

Definition parseList (list : list ascii) : Names :=
  match list with
  | [] => []
  | _ => map boost.trim (boost.split is_comma list)
  end.

(** ** Construction (lines 46-114) and registration (lines 620-643) *)

Record Setting (A : Type) : Type := mkSetting { value : A; changed : bool }.

Record NATSSettings : Type := mkSettings {
  nats_url : Setting (list ascii);
  nats_server_list : Setting (list ascii);
  nats_subjects : Setting (list ascii);
  nats_format : Setting (list ascii);
  nats_num_consumers : Setting nat
}.

(** What the constructor gets from the global context and the broker. *)
Record Globals : Type := mkGlobals {
  expand : list ascii -> list ascii;   (* getMacros()->expand *)
  connect : Exception + bool           (* connection->connect(), or what it threw *)
}.

(** The conversion of a size_t to int, as at line 61, where num_consumers is
    passed to Poco::Semaphore(int n, int max): the low 32 bits, read as a
    two's complement number. *)
Definition to_int (n : nat) : Z :=
  let low := (Z.of_nat n mod 2 ^ 32)%Z in
  if (low <? 2 ^ 31)%Z then low else (low - 2 ^ 32)%Z.

(** The object as the member initialisers leave it (lines 52-64); nothing
    has been traced, and the loop of the handler starts in the state the
    spec calls Stopped.  The maximum of the semaphore is num_consumers as
    an int. *)
Definition initialised (g : Globals) (st : NATSSettings) (is_attach_ : bool)
    (up : bool) : StorageNATS :=
  mkStorage
    (parseList (expand g (value (nats_subjects st))))
    (expand g (value (nats_format st)))
    (value (nats_num_consumers st))
    0
    []
    (Poco.mkSemaphore 0 (Z.to_nat (to_int (value (nats_num_consumers st)))))
    RESCHEDULE_MS
    is_attach_
    false false false 0%Z
    (mkConnection up (mkHandler false Loop.STOP))
    (mkTasks false false false)
    [].

(** The three tasks are created and deactivated at once (lines 105-113). *)
Definition create_tasks : M unit :=
  deactivate looping_task ;;
  deactivate streaming_task ;;
  deactivate connection_task.

(** The constructor: [inl] is the exception that leaves it.  Poco asserts
    [n >= 0 && max > 0 && n <= max] on the semaphore's arguments, in the
    member initialisers and so outside the [try] of lines 92-102. *)
Definition StorageNATS_ctor (g : Globals) (st : NATSSettings) (is_attach_ : bool)
    : Exception + StorageNATS :=
  if (to_int (value (nats_num_consumers st)) <=? 0)%Z then
    inl (mkException FOREIGN_ERROR "Assertion violation: n >= 0 && max > 0 && n <= max")
  else
    let failure :=
      match connect g with
      | inl e => Some e
      | inr false => Some (mkException CANNOT_CONNECT_NATS "Cannot connect to {}")
      | inr true => None
      end in
    match failure with
    | Some e =>
        if negb is_attach_ then inl e
        else inr (state_of (create_tasks (initialised g st is_attach_ false))
                           (initialised g st is_attach_ false))
    | None =>
        inr (state_of (create_tasks (initialised g st is_attach_ true))
                      (initialised g st is_attach_ true))
    end.

(** What the creator function gets: [StorageFactory::Arguments] and the
    outcome of the two loaders. *)
Record Arguments : Type := mkArguments {
  configuration_error : option Exception;  (* getExternalDataSourceConfiguration threw *)
  with_named_collection : bool;            (* ... or returned this *)
  storage_def_settings : bool;             (* args.storage_def->settings is set *)
  load_error : option Exception;           (* loadFromQuery threw *)
  nats_settings : NATSSettings;            (* the settings once loaded *)
  attach : bool;
  globals : Globals
}.

Definition creator_fn (args : Arguments) : Exception + StorageNATS :=
  match configuration_error args with
  | Some e => inl e
  | None =>
      if negb (with_named_collection args) && negb (storage_def_settings args) then
        inl (mkException BAD_ARGUMENTS "NATS engine must have settings")
      else
        match load_error args with
        | Some e => inl e
        | None =>
            let st := nats_settings args in
            if negb (changed (nats_url st)) && negb (changed (nats_server_list st)) then
              inl (mkException NUMBER_OF_ARGUMENTS_DOESNT_MATCH
                     "You must specify either `nats_url` or `nats_server_list` settings")
            else if negb (changed (nats_format st)) then
              inl (mkException NUMBER_OF_ARGUMENTS_DOESNT_MATCH
                     "You must specify `nats_format` setting")
            else StorageNATS_ctor (globals args) st (attach args)
        end
  end.

(** ** Leases: who holds which buffer

    The pool does not record the buffers it has handed out; the set of
    leased buffers is kept here, beside the object.  A holder gives back
    only a buffer it holds. *)

Fixpoint remove_one (b : ConsumerBufferPtr) (l : list ConsumerBufferPtr)
    : list ConsumerBufferPtr :=
  match l with
  | [] => []
  | x :: rest => if (x =? b)%nat then rest else x :: remove_one b rest
  end.

Inductive leases_from (start : StorageNATS)
    : StorageNATS -> list ConsumerBufferPtr -> Prop :=
| leases_none : leases_from start start []
| leases_pop : forall s leased timeout buffer s',
    leases_from start s leased ->
    popReadBuffer timeout s = Returns (Some buffer) s' ->
    leases_from start s' (buffer :: leased)
| leases_push : forall s leased buffer,
    leases_from start s leased ->
    In buffer leased ->
    leases_from start (state_of (pushReadBuffer buffer s) s) (remove_one buffer leased).

(** ** Example inputs *)

Definition example_settings : NATSSettings :=
  mkSettings
    (mkSetting (list_ascii_of_string "localhost:4444") true)
    (mkSetting [] false)
    (mkSetting (list_ascii_of_string "orders, payments ,audit") true)
    (mkSetting (list_ascii_of_string "JSONEachRow") true)
    (mkSetting 2 true).

Definition example_globals : Globals := mkGlobals (fun s => s) (inr true).

(** The table of the example, constructed but not started. *)
Definition example_table : StorageNATS :=
  match StorageNATS_ctor example_globals example_settings false with
  | inr s => s
  | inl _ => initialised example_globals example_settings false false
  end.

(** ... and started: both consumers were created. *)
Definition started_table : StorageNATS :=
  state_of (startup (fun i => inr (10 + i)) example_table) example_table.

(** The pool's invariant, with [leased] buffers handed out. *)
Definition pool_ok (s : StorageNATS) (leased : nat) : Prop :=
  Poco.count (semaphore s) = length (buffers s)
  /\ Poco.max (semaphore s) = num_consumers s
  /\ leased + length (buffers s) = num_created_consumers s
  /\ num_created_consumers s <= num_consumers s.

(** A table attached while the broker was away: constructed without a
    connection, started with both consumers. *)
Definition detached_table : StorageNATS :=
  match StorageNATS_ctor (mkGlobals (fun s => s) (inr false)) example_settings true with
  | inr s => state_of (startup (fun i => inr (10 + i)) s) s
  | inl _ => example_table
  end.

Definition no_direct_select : ReadCall :=
  mkReadCall false None None true true None false.
Definition direct_select : ReadCall :=
  mkReadCall true None None true true None false.

(** ** Reading the trace *)

(** The values streamToViews returned, oldest first. *)
Fixpoint verdicts (tr : list Event) : list bool :=
  match tr with
  | [] => []
  | EvVerdict back_off :: rest => back_off :: verdicts rest
  | _ :: rest => verdicts rest
  end.

Definition is_iterate (e : Event) : bool :=
  match e with
  | EvIterateLoop => true
  | _ => false
  end.

(** The members streamToViews and the streaming task leave alone, or change
    only as stated elsewhere. *)
Definition frame (s s' : StorageNATS) : Prop :=
  shutdown_called s' = shutdown_called s
  /\ num_created_consumers s' = num_created_consumers s
  /\ num_consumers s' = num_consumers s
  /\ buffers s' = buffers s
  /\ semaphore s' = semaphore s
  /\ readers_count s' = readers_count s.

(** A pass over an empty broker, and a pass during which the broker goes
    away and comes back. *)
Definition quiet_pass : StreamPass :=
  mkStreamPass true None false None true (fun _ => true) true.

Definition restored_pass : StreamPass :=
  mkStreamPass true None true None true (fun _ => true) true.


(** ** The back-off law *)

Fixpoint leading_true (l : list bool) : nat :=
  match l with
  | true :: rest => S (leading_true rest)
  | _ => 0
  end.

(** How many times streamToViews has returned true since it last returned
    false, or since the object was made. *)
Definition consecutive_backoffs (tr : list Event) : nat :=
  leading_true (rev (verdicts tr)).

(** min(base * 2^N, ceiling) *)
Definition backoff_delay (N : nat) : Z :=
  Z.min (RESCHEDULE_MS * 2 ^ Z.of_nat N) BACKOFF_TRESHOLD.

Definition delay_law (s : StorageNATS) : Prop :=
  milliseconds_to_wait s = backoff_delay (consecutive_backoffs (trace s)).

(** The object after a call, also when the call throws or waits. *)
Definition after {A} (m : M A) (s : StorageNATS) : StorageNATS :=
  state_of (m s) s.

(** A call that touches neither the delay nor the verdicts. *)
Definition neutral {A} (m : M A) : Prop :=
  forall s,
    milliseconds_to_wait (after m s) = milliseconds_to_wait s
    /\ verdicts (trace (after m s)) = verdicts (trace s).

(** A call that comes back, with a value or an exception. *)
Definition finishes {A} (m : M A) : Prop :=
  forall s, (exists a s', m s = Returns a s') \/ (exists e s', m s = Throws e s').

(** Every state the table can be in: constructed, then any member function
    run to its end, or to the point where it waits. *)
Inductive reachable : StorageNATS -> Prop :=
| reach_ctor : forall g st att s,
    StorageNATS_ctor g st att = inr s -> reachable s
| reach_startup : forall make s,
    reachable s -> reachable (after (startup make) s)
| reach_read : forall q s,
    reachable s -> reachable (after (read q) s)
| reach_connectionFunc : forall attempt s,
    reachable s -> reachable (after (connectionFunc attempt) s)
| reach_streamingToViewsFunc : forall c s,
    reachable s -> reachable (after (streamingToViewsFunc c) s)
| reach_popReadBuffer : forall timeout s,
    reachable s -> reachable (after (popReadBuffer timeout) s)
| reach_pushReadBuffer : forall buffer s,
    reachable s -> reachable (after (pushReadBuffer buffer) s)
| reach_incrementReader : forall s,
    reachable s -> reachable (after incrementReader s)
| reach_decrementReader : forall s,
    reachable s -> reachable (after decrementReader s)
| reach_startLoop : forall s,
    reachable s -> reachable (after startLoop s)
| reach_stopLoop : forall s,
    reachable s -> reachable (after stopLoop s)
| reach_stopLoopIfNoReaders : forall s,
    reachable s -> reachable (after stopLoopIfNoReaders s)
| reach_shutdown : forall lock1 lock2 lock3 s,
    reachable s -> reachable (after (shutdown lock1 lock2 lock3) s).

(** A pass on the table default.queue of [example_catalog], whose views are
    all attached, on a stack with room for 1000 nested calls. *)
Definition views_ready (p : StreamPass) : PassEnv :=
  mkPassEnv example_catalog (table_in_default "queue") 1000 p.

(** One run of the streaming task over an empty broker: two views are
    attached, the only pass finds every queue empty. *)
Definition quiet_cycle : Cycle :=
  mkCycle 2 true (BudgetExceeded (views_ready quiet_pass)).

(** A pass that finds a message left in the queue of source 0. *)
Definition busy_pass : StreamPass :=
  mkStreamPass true None false None true (fun i => negb (i =? 0)%nat) true.

(** A run of two passes: messages first, then nothing. *)
Definition busy_cycle : Cycle :=
  mkCycle 2 true (WithinBudget (views_ready busy_pass)
                               (BudgetExceeded (views_ready quiet_pass))).

(** The check of the dependencies of pass [p] comes back: the recursion
    needs no more nested calls than the stack has room for. *)
Definition dependencies_checked (p : PassEnv) : Prop :=
  checkDependencies (catalog p) (stack_depth p) (table_id p) <> None.

Fixpoint passes_return (ps : PassScript) : Prop :=
  match ps with
  | BudgetExceeded p => dependencies_checked p
  | WithinBudget p rest => dependencies_checked p /\ passes_return rest
  end.

Definition first_pass (ps : PassScript) : PassEnv :=
  match ps with
  | BudgetExceeded p => p
  | WithinBudget p _ => p
  end.

(** The values streamToViews returns in the passes of one run: false [k]
    times, and then, if [last], true once, which ends the run. *)
Definition run_verdicts (k : nat) (last : bool) : list bool :=
  repeat false k ++ (if last then [true] else []).

(** Lines 476-487, pass after pass: the delay after passes in which
    streamToViews returned [vs], from the delay [d]. *)
Fixpoint delay_after (d : Z) (vs : list bool) : Z :=
  match vs with
  | [] => d
  | true :: rest =>
      delay_after (if (d <? BACKOFF_TRESHOLD)%Z then uint64 (d * 2) else d) rest
  | false :: rest => delay_after RESCHEDULE_MS rest
  end.

(** A part of a run of the streaming task has come to its end in [s'],
    with a result or an exception, after [k] passes that returned false
    and, if [last], one that returned true. *)
Definition run_ends (o : Outcome unit) (s s' : StorageNATS) (k : nat) (last : bool)
    : Prop :=
  (o = Returns tt s' \/ exists e, o = Throws e s')
  /\ verdicts (trace s') = verdicts (trace s) ++ run_verdicts k last
  /\ milliseconds_to_wait s'
     = delay_after (milliseconds_to_wait s) (run_verdicts k last)
  /\ shutdown_called s' = shutdown_called s.

(** ** What the subject list should be, in the words of the specification *)

(** [components] joined with commas. *)
Fixpoint join_comma (components : list (list ascii)) : list ascii :=
  match components with
  | [] => []
  | c :: rest =>
      match rest with
      | [] => c
      | _ => c ++ ","%char :: join_comma rest
      end
  end.

(** The comma-separated components of [s]: joined with commas they give [s]
    back, and none of them holds a comma. *)
Definition comma_components (s : list ascii) (components : list (list ascii)) : Prop :=
  components <> []
  /\ join_comma components = s
  /\ Forall (fun c => ~ In ","%char c) components.

Definition starts_with_space (t : list ascii) : bool :=
  match t with
  | c :: _ => boost.is_space c
  | [] => false
  end.

(** [t] is [c] with the surrounding whitespace trimmed: whitespace was
    removed at both ends, and none is left there. *)
Definition trimmed_of (c t : list ascii) : Prop :=
  exists l r,
    c = l ++ t ++ r
    /\ forallb boost.is_space l = true
    /\ forallb boost.is_space r = true
    /\ starts_with_space t = false
    /\ starts_with_space (rev t) = false.



(** ** Readers come and go (lines 194-203) *)

(** The two calls a source makes: incrementReader when it is built,
    decrementReader when it is destroyed. *)
Inductive ReaderCall : Type := Enters | Leaves.

Definition reader_call (c : ReaderCall) : M unit :=
  match c with
  | Enters => incrementReader
  | Leaves => decrementReader
  end.

Fixpoint reader_calls (calls : list ReaderCall) (s : StorageNATS) : StorageNATS :=
  match calls with
  | [] => s
  | c :: rest => reader_calls rest (after (reader_call c) s)
  end.

Definition is_enter (c : ReaderCall) : bool :=
  match c with
  | Enters => true
  | Leaves => false
  end.

(** ** Relations every member function keeps *)

(** A call whose end state is related to its start state, however the call
    ends. *)
Definition preserves {A} (R : StorageNATS -> StorageNATS -> Prop) (m : M A) : Prop :=
  forall s, R s (after m s).

(** A relation between an earlier and a later state that no assignment to
    the working members of the object can break. *)
Record Stable (R : StorageNATS -> StorageNATS -> Prop) : Prop := mkStable {
  stable_refl : forall s, R s s;
  stable_trans : forall s1 s2 s3, R s1 s2 -> R s2 s3 -> R s1 s3;
  stable_trace : forall tr s, R s (set_trace tr s);
  stable_connection : forall c s, R s (set_connection c s);
  stable_tasks : forall t s, R s (set_tasks t s);
  stable_buffers : forall l s, R s (set_buffers l s);
  stable_semaphore : forall m s, R s (set_semaphore m s);
  stable_created : forall n s, R s (set_num_created_consumers n s);
  stable_delay : forall ms s, R s (set_milliseconds_to_wait ms s);
  stable_mv_attached : forall b s, R s (set_mv_attached b s)
}.

(** The member functions, with what they get from outside. *)
Inductive MemberCall : Type :=
| CallStartup (make : nat -> Exception + ConsumerBufferPtr)
| CallRead (q : ReadCall)
| CallConnectionFunc (reconnect_attempt : bool)
| CallStreamingToViewsFunc (c : Cycle)
| CallPopReadBuffer (timeout : Z)
| CallPushReadBuffer (buffer : ConsumerBufferPtr)
| CallIncrementReader
| CallDecrementReader
| CallStartLoop
| CallStopLoop
| CallStopLoopIfNoReaders
| CallShutdown (lock1 lock2 lock3 : bool).

(** The table after the call, also when the call throws or waits. *)
Definition call_member (c : MemberCall) (s : StorageNATS) : StorageNATS :=
  match c with
  | CallStartup make => after (startup make) s
  | CallRead q => after (read q) s
  | CallConnectionFunc attempt => after (connectionFunc attempt) s
  | CallStreamingToViewsFunc c => after (streamingToViewsFunc c) s
  | CallPopReadBuffer timeout => after (popReadBuffer timeout) s
  | CallPushReadBuffer buffer => after (pushReadBuffer buffer) s
  | CallIncrementReader => after incrementReader s
  | CallDecrementReader => after decrementReader s
  | CallStartLoop => after startLoop s
  | CallStopLoop => after stopLoop s
  | CallStopLoopIfNoReaders => after stopLoopIfNoReaders s
  | CallShutdown lock1 lock2 lock3 => after (shutdown lock1 lock2 lock3) s
  end.

(** [s'] is [s] some member calls later. *)
Inductive evolves (s : StorageNATS) : StorageNATS -> Prop :=
| evolves_refl : evolves s s
| evolves_call : forall s' c, evolves s s' -> evolves s (call_member c s').

(** The relations of interest. *)
Definition flag_stays (s s' : StorageNATS) : Prop :=
  shutdown_called s = true -> shutdown_called s' = true.

Definition same_flag (s s' : StorageNATS) : Prop :=
  shutdown_called s' = shutdown_called s.

Definition same_configuration (s s' : StorageNATS) : Prop :=
  subjects s' = subjects s
  /\ format_name s' = format_name s
  /\ num_consumers s' = num_consumers s
  /\ is_attach s' = is_attach s
  /\ drop_table s' = drop_table s.

(** ** What startup creates *)

(** The buffers startup gets from createReadBuffer at counters [i], ...,
    [i + todo - 1], in that order, failures left out. *)
Fixpoint created_buffers (make : nat -> Exception + ConsumerBufferPtr)
    (i todo : nat) : list ConsumerBufferPtr :=
  match todo with
  | O => []
  | S todo' =>
      match make i with
      | inr buffer => buffer :: created_buffers make (S i) todo'
      | inl _ => created_buffers make (S i) todo'
      end
  end.

(** A broker that refuses every second subscription. *)
Definition flaky_make (i : nat) : Exception + ConsumerBufferPtr :=
  if Nat.even i then inr (20 + i)
  else inl (mkException FOREIGN_ERROR "Failed to subscribe").

Definition larger_settings : NATSSettings :=
  mkSettings
    (mkSetting (list_ascii_of_string "localhost:4444") true)
    (mkSetting [] false)
    (mkSetting (list_ascii_of_string "orders") true)
    (mkSetting (list_ascii_of_string "CSV") true)
    (mkSetting 4 true).

(** ** createWriteBuffer (lines 416-421) *)

Record ProducerBuffer : Type := mkProducerBuffer {
  producer_subject : list ascii;
  producer_delimiter : option ascii;
  rows_per_message : nat;
  chunk_size : nat
}.

(** [row_delimiter] is the member of that name, which the record of the
    table does not hold; [subjects[0]] is undefined on an empty vector. *)
Definition createWriteBuffer (row_delimiter : ascii) : M ProducerBuffer :=
  fun s =>
    match subjects s with
    | [] => Undefined
    | subject :: _ =>
        Returns (mkProducerBuffer subject
                   (if Ascii.eqb row_delimiter zero then None else Some row_delimiter)
                   1 1024) s
    end.

(** The text of [s] before its first comma. *)
Fixpoint before_comma (s : list ascii) : list ascii :=
  match s with
  | [] => []
  | c :: rest => if is_comma c then [] else c :: before_comma rest
  end.

(** ** getMaxBlockSize (lines 235-240) and queue_size (line 62) *)

Definition uint32 (z : Z) : Z := (z mod 2 ^ 32)%Z.

(** [nats_max_block_size] is the setting of the table and
    [max_insert_block_size] the one of the global context, both UInt64; the
    quotient is the unsigned division of the machine, undefined for a table
    of no consumers. *)
Definition getMaxBlockSize (nats_max_block_size : Setting Z)
    (max_insert_block_size : Z) : M Z :=
  fun s =>
    if changed nats_max_block_size then Returns (value nats_max_block_size) s
    else
      match num_consumers s with
      | O => Undefined
      | S _ => Returns (max_insert_block_size / Z.of_nat (num_consumers s))%Z s
      end.

(** [std::max(QUEUE_SIZE, static_cast<uint32_t>(getMaxBlockSize()))], the
    initialiser of the member queue_size. *)
Definition queue_size (nats_max_block_size : Setting Z)
    (max_insert_block_size : Z) : M Z :=
  block_size <- getMaxBlockSize nats_max_block_size max_insert_block_size ;;
  ret (Z.max QUEUE_SIZE (uint32 block_size)).

(** ** A number of consumers past the range of int *)

(** nats_num_consumers = 2^32 + 1. *)
Definition overflowing_settings : NATSSettings :=
  mkSettings
    (mkSetting (list_ascii_of_string "localhost:4444") true)
    (mkSetting [] false)
    (mkSetting (list_ascii_of_string "orders") true)
    (mkSetting (list_ascii_of_string "CSV") true)
    (mkSetting (Z.to_nat (2 ^ 32 + 1)) true).

(** A run of the streaming task on a table that feeds two views which feed
    each other; every table is attached. *)
Definition cyclic_cycle : Cycle :=
  mkCycle 1 true
    (BudgetExceeded
       (mkPassEnv cyclic_catalog (table_in_default "view_a") 1000 quiet_pass)).
(** * Properties *)

Unset Implicit Arguments.

Ltac run :=
  repeat (cbv beta iota zeta delta
            [bind ret gets modify throw try_catch emit raise_if]; simpl).

(** ** Running the monad step by step *)

Lemma bind_returns {A B : Type} {m : M A} (k : A -> M B) {s a s1} :
  m s = Returns a s1 -> bind m k s = k a s1.
Proof. intros H. unfold bind. rewrite H. reflexivity. Qed.

Lemma bind_throws {A B : Type} {m : M A} (k : A -> M B) {s e s1} :
  m s = Throws e s1 -> bind m k s = Throws e s1.
Proof. intros H. unfold bind. rewrite H. reflexivity. Qed.

Lemma bind_gets (A B : Type) (f : StorageNATS -> A) (k : A -> M B) s :
  bind (gets f) k s = k (f s) s.
Proof. reflexivity. Qed.

Lemma bind_modify (B : Type) (f : StorageNATS -> StorageNATS) (k : unit -> M B) s :
  bind (modify f) k s = k tt (f s).
Proof. reflexivity. Qed.

Lemma bind_emit (B : Type) (e : Event) (k : unit -> M B) s :
  bind (emit e) k s = k tt (set_trace (trace s ++ [e]) s).
Proof. reflexivity. Qed.

Lemma bind_ret (A B : Type) (a : A) (k : A -> M B) s :
  bind (ret a) k s = k a s.
Proof. reflexivity. Qed.

(** ** The buffer pool *)

Lemma removelast_snoc (A : Type) (l : list A) (x : A) : removelast (l ++ [x]) = l.
Proof. apply removelast_last. Qed.

Lemma rev_snoc (A : Type) (l : list A) (x : A) : rev (l ++ [x]) = x :: rev l.
Proof. apply rev_unit. Qed.

Example example_table_constructed :
  StorageNATS_ctor example_globals example_settings false = inr example_table.
Proof. reflexivity. Qed.

Example started_table_pool :
  buffers started_table = [10; 11] /\ num_created_consumers started_table = 2
  /\ semaphore started_table = Poco.mkSemaphore 2 2.
Proof. repeat split. Qed.

Example pop_takes_the_back :
  exists s', popReadBuffer 0 started_table = Returns (Some 11) s' /\ buffers s' = [10].
Proof. eexists. split; [vm_compute; reflexivity|reflexivity]. Qed.

(** C6 (as stated, refuted): on a pool with no free buffer a 0 ms timeout
    does not give a null pointer at once; the caller waits on the
    semaphore. *)
Lemma popReadBuffer_zero_timeout_blocks :
  Poco.count (semaphore example_table) = 0 /\ buffers example_table = []
  /\ popReadBuffer 0 example_table = Blocks example_table
  /\ ~ (exists s', popReadBuffer 0 example_table = Returns None s').
Proof.
  repeat split.
  intros [s' H]. discriminate H.
Qed.

(** C6 (amended): on a pool with no free buffer, popReadBuffer with a 0 ms
    timeout waits, exactly as the overload without argument does; with a
    positive timeout it returns a null pointer and leaves the object as it
    was; and a waiting caller is served by the next pushReadBuffer: once a
    buffer has been pushed, the same call returns that buffer. *)
Theorem popReadBuffer_without_free_buffer :
  forall s, Poco.count (semaphore s) = 0 ->
    popReadBuffer 0 s = Blocks s
    /\ popReadBuffer_noarg s = Blocks s
    /\ (forall timeout, (0 < timeout)%Z -> popReadBuffer timeout s = Returns None s)
    /\ (forall buffer s1, pushReadBuffer buffer s = Returns tt s1 ->
          popReadBuffer_noarg s1 = Returns (Some buffer) s).
Proof.
  intros s H.
  assert (Hz : popReadBuffer 0 s = Blocks s).
  { unfold popReadBuffer, semaphore_wait, Poco.take. run. rewrite H. reflexivity. }
  split; [exact Hz|]. split; [exact Hz|]. split.
  - intros timeout Ht.
    unfold popReadBuffer, semaphore_tryWait, Poco.take.
    destruct (Z.eqb_spec timeout 0) as [->|_]; [lia|].
    run. rewrite H. reflexivity.
  - intros buffer s1.
    unfold pushReadBuffer, semaphore_set, Poco.set. run.
    destruct s as [sub fmt nc ncc bufs [cnt mx] ms att sd mv dt rc conn tk tr].
    simpl in *. subst cnt.
    destruct (0 <? mx)%nat eqn:E; [|discriminate].
    intros Heq. injection Heq as <-.
    unfold popReadBuffer_noarg, popReadBuffer, semaphore_wait, take_back, Poco.take.
    run. rewrite rev_snoc. simpl. rewrite removelast_snoc. reflexivity.
Qed.

Lemma popReadBuffer_without_free_buffer_witness :
  Poco.count (semaphore example_table) = 0
  /\ popReadBuffer 0 example_table = Blocks example_table.
Proof.
  split; [reflexivity|].
  apply (popReadBuffer_without_free_buffer example_table). reflexivity.
Defined.

Lemma to_int_small n : (Z.of_nat n < 2 ^ 31)%Z -> to_int n = Z.of_nat n.
Proof.
  intros H. unfold to_int. rewrite Z.mod_small by lia.
  destruct (Z.ltb_spec (Z.of_nat n) (2 ^ 31)); [reflexivity|lia].
Qed.

(** The values of int that the constructor of the semaphore gets for
    consumer counts at and past the end of the range. *)
Example to_int_past_the_range :
  to_int (Z.to_nat (2 ^ 31 - 1)) = (2 ^ 31 - 1)%Z
  /\ to_int (Z.to_nat (2 ^ 31)) = (- 2 ^ 31)%Z
  /\ to_int (Z.to_nat (2 ^ 32)) = 0%Z
  /\ to_int (Z.to_nat (2 ^ 32 + 1)) = 1%Z.
Proof. unfold to_int. rewrite !Z2Nat.id by lia. repeat split. Qed.

(** What the constructor leaves in the object. *)
Lemma ctor_fields g st att s0 :
  StorageNATS_ctor g st att = inr s0 ->
  subjects s0 = parseList (expand g (value (nats_subjects st)))
  /\ format_name s0 = expand g (value (nats_format st))
  /\ num_consumers s0 = value (nats_num_consumers st)
  /\ is_attach s0 = att
  /\ tasks s0 = mkTasks true true true
  /\ buffers s0 = [] /\ num_created_consumers s0 = 0
  /\ semaphore s0
     = Poco.mkSemaphore 0 (Z.to_nat (to_int (value (nats_num_consumers st))))
  /\ trace s0 = [EvDeactivate looping_task; EvDeactivate streaming_task;
                 EvDeactivate connection_task]
  /\ (isConnected (connection s0) = true <-> connect g = inr true)
  /\ (att = false -> connect g = inr true)
  /\ (0 < to_int (value (nats_num_consumers st)))%Z.
Proof.
  unfold StorageNATS_ctor.
  destruct (Z.leb_spec (to_int (value (nats_num_consumers st))) 0); [discriminate|].
  destruct (connect g) as [e|[|]]; simpl;
    try (destruct att; simpl; [|discriminate]);
    intros H'; injection H' as <-; simpl;
    repeat split; auto; try discriminate.
Qed.

Lemma ctor_pool_ok g st att s0 :
  (Z.of_nat (value (nats_num_consumers st)) < 2 ^ 31)%Z ->
  StorageNATS_ctor g st att = inr s0 ->
  pool_ok s0 0 /\ num_created_consumers s0 = 0.
Proof.
  intros Hint Hctor.
  destruct (ctor_fields g st att s0 Hctor)
    as (_ & _ & Hnc & _ & _ & Hb & Hcr & Hsem & _).
  rewrite (to_int_small _ Hint), Nat2Z.id in Hsem.
  unfold pool_ok. rewrite Hsem, Hb, Hcr, Hnc. simpl. lia.
Qed.

Lemma activateAndSchedule_pool t s :
  exists s', activateAndSchedule t s = Returns tt s'
    /\ buffers s' = buffers s /\ semaphore s' = semaphore s
    /\ num_created_consumers s' = num_created_consumers s
    /\ num_consumers s' = num_consumers s.
Proof.
  unfold activateAndSchedule. run.
  destruct (Task_eqb t looping_task); eexists; split; try reflexivity; simpl; auto.
Qed.

(** The loop of startup, one round unfolded. *)
Lemma startup_loop_round make i todo s :
  startup_loop make i (S todo) s =
  match make i with
  | inl e => if is_attach s then startup_loop make (S i) todo s else Throws e s
  | inr buffer =>
      let s1 := set_buffers (buffers s ++ [buffer]) s in
      match Poco.set (semaphore s) with
      | Some m =>
          startup_loop make (S i) todo
            (set_num_created_consumers (S (num_created_consumers s)) (set_semaphore m s1))
      | None =>
          if is_attach s then startup_loop make (S i) todo s1
          else Throws (mkException FOREIGN_ERROR "Cannot signal semaphore") s1
      end
  end.
Proof.
  simpl. unfold createReadBuffer, pushReadBuffer, semaphore_set.
  destruct (make i) as [e|buffer]; run.
  - destruct (is_attach s); reflexivity.
  - destruct (Poco.set (semaphore s)); run; [reflexivity|].
    destruct (is_attach s); reflexivity.
Qed.

(** The loop of startup keeps the pool consistent, whether the buffers are
    created or not. *)
Lemma startup_loop_pool make :
  forall todo i s,
    pool_ok s 0 -> num_created_consumers s + todo <= num_consumers s ->
    pool_ok (state_of (startup_loop make i todo s) s) 0
    /\ (startup_loop make i todo s <> Undefined)
    /\ (forall s', startup_loop make i todo s <> Blocks s').
Proof.
  induction todo as [|todo IH]; intros i s Hok Hle.
  - simpl. unfold ret. simpl.
    split; [exact Hok | split; [discriminate | intros; discriminate]].
  - rewrite startup_loop_round.
    destruct (make i) as [e|buffer].
    + destruct (is_attach s).
      * apply IH; [exact Hok | lia].
      * simpl. split; [exact Hok | split; [discriminate | intros; discriminate]].
    + destruct Hok as (Hc & Hm & Hl & Hn).
      unfold Poco.set.
      assert (Hlt : (Poco.count (semaphore s) <? Poco.max (semaphore s))%nat = true).
      { apply Nat.ltb_lt. lia. }
      rewrite Hlt. cbv zeta.
      match goal with |- context [startup_loop make (S i) todo ?s1] =>
        set (s2 := s1) end.
      assert (Hok2 : pool_ok s2 0).
      { unfold pool_ok, s2. simpl. rewrite length_app. simpl. lia. }
      specialize (IH (S i) s2 Hok2 ltac:(unfold s2; simpl; lia)).
      destruct IH as (IH1 & IH2 & IH3). split; [|split; assumption].
      destruct (startup_loop make (S i) todo s2); simpl in *; auto. congruence.
Qed.

Lemma startup_pool make s :
  pool_ok s 0 -> num_created_consumers s = 0 ->
  pool_ok (state_of (startup make s) s) 0.
Proof.
  intros Hok H0. unfold startup.
  unfold bind at 1. unfold gets at 1.
  assert (Hpre : exists s1, ((when (negb (isConnected (connection s))) then
                    activateAndSchedule connection_task) s = Returns tt s1)
            /\ pool_ok s1 0 /\ num_created_consumers s1 = 0).
  { destruct (negb (isConnected (connection s))).
    - destruct (activateAndSchedule_pool connection_task s) as (s1 & E & Hb & Hs & Hn & Hm).
      exists s1. split; [exact E|]. unfold pool_ok in *. rewrite Hb, Hs, Hn, Hm. tauto.
    - exists s. unfold ret. tauto. }
  destruct Hpre as (s1 & E & Hok1 & H1).
  unfold bind at 1. rewrite E.
  unfold bind at 1. unfold gets at 1.
  unfold bind at 1.
  assert (Hmax : num_consumers s1 = Poco.max (semaphore s1)) by (symmetry; apply Hok1).
  destruct (startup_loop_pool make (num_consumers s1) 0 s1 Hok1 ltac:(lia))
    as (Hok2 & Hu & Hb).
  destruct (startup_loop make 0 (num_consumers s1) s1) as [[] s2|e s2|s2|]; simpl in *.
  - exact Hok2.
  - exact Hok2.
  - exact Hok2.
  - congruence.
Qed.

Lemma popReadBuffer_pool timeout s buffer s' n :
  pool_ok s n ->
  popReadBuffer timeout s = Returns (Some buffer) s' ->
  pool_ok s' (S n).
Proof.
  intros (Hc & Hm & Hl & Hn).
  unfold popReadBuffer, semaphore_wait, semaphore_tryWait, take_back, Poco.take.
  destruct (rev (buffers s)) as [|b rest] eqn:Erev.
  { apply (f_equal (@rev _)) in Erev. rewrite rev_involutive in Erev. simpl in Erev.
    rewrite Erev in Hc. simpl in Hc.
    destruct (timeout =? 0)%Z; run; rewrite Hc; discriminate. }
  assert (Hb : buffers s = rev rest ++ [b]).
  { apply (f_equal (@rev _)) in Erev. rewrite rev_involutive in Erev. exact Erev. }
  assert (Hlen : length (buffers s) = S (length (removelast (buffers s)))).
  { rewrite Hb, removelast_snoc, length_app. simpl. lia. }
  destruct (Poco.count (semaphore s)) as [|c] eqn:Ec; [lia|].
  destruct (timeout =? 0)%Z; run; rewrite Ec; simpl; rewrite Erev;
    intros H; injection H as _ <-; unfold pool_ok; simpl; lia.
Qed.

Lemma pushReadBuffer_pool buffer s n :
  pool_ok s (S n) ->
  (exists s', pushReadBuffer buffer s = Returns tt s')
  /\ pool_ok (state_of (pushReadBuffer buffer s) s) n.
Proof.
  intros (Hc & Hm & Hl & Hn).
  unfold pushReadBuffer, semaphore_set, Poco.set. run.
  assert (Hlt : (Poco.count (semaphore s) <? Poco.max (semaphore s))%nat = true).
  { apply Nat.ltb_lt. lia. }
  rewrite Hlt. simpl. split; [eexists; reflexivity|].
  unfold pool_ok. simpl. rewrite length_app. simpl. lia.
Qed.

Lemma remove_one_length b l :
  In b l -> S (length (remove_one b l)) = length l.
Proof.
  induction l as [|x l IH]; simpl; [tauto|].
  intros [->|Hin].
  - rewrite Nat.eqb_refl. reflexivity.
  - destruct (x =? b)%nat; [reflexivity|]. simpl. rewrite IH; auto.
Qed.

Lemma leases_pool_ok start s leased :
  pool_ok start 0 -> leases_from start s leased -> pool_ok s (length leased).
Proof.
  intros Hstart Hl. induction Hl as [|s leased timeout buffer s' _ IH Hpop|s leased buffer _ IH Hin].
  - exact Hstart.
  - simpl. eapply popReadBuffer_pool; eauto.
  - pose proof (remove_one_length buffer leased Hin) as Hlen.
    rewrite <- Hlen in IH.
    apply (pushReadBuffer_pool buffer) in IH. apply IH.
Qed.

(** X20: a table is constructed with a number of consumers in the range
    of int and started (whatever startup could create, and also when
    startup gives up with an exception); then buffers are popped and pushed
    back in any order.  At every moment the leased buffers and the free
    ones add up to num_created_consumers, which is at most num_consumers;
    moreover the semaphore counts the free buffers, and a push by a holder
    never fails. *)
Theorem leased_plus_free_is_created :
  forall g st att s0 make s leased,
    (Z.of_nat (value (nats_num_consumers st)) < 2 ^ 31)%Z ->
    StorageNATS_ctor g st att = inr s0 ->
    leases_from (state_of (startup make s0) s0) s leased ->
    length leased + length (buffers s) = num_created_consumers s
    /\ num_created_consumers s <= num_consumers s
    /\ Poco.count (semaphore s) = length (buffers s)
    /\ (forall buffer, In buffer leased ->
          exists s', pushReadBuffer buffer s = Returns tt s').
Proof.
  intros g st att s0 make s leased Hint Hctor Hleases.
  destruct (ctor_pool_ok _ _ _ _ Hint Hctor) as [Hok0 Hzero].
  pose proof (startup_pool make _ Hok0 Hzero) as Hok1.
  pose proof (leases_pool_ok _ _ _ Hok1 Hleases) as Hok.
  destruct Hok as (Hc & Hm & Hl & Hn). repeat split; auto.
  intros buffer Hin.
  pose proof (remove_one_length buffer leased Hin) as Hlen.
  apply (pushReadBuffer_pool buffer s (length (remove_one buffer leased))).
  unfold pool_ok. rewrite Hlen. auto.
Qed.

Lemma leased_plus_free_is_created_witness :
  (Z.of_nat (value (nats_num_consumers example_settings)) < 2 ^ 31)%Z
  /\ StorageNATS_ctor example_globals example_settings false = inr example_table
  /\ exists s,
       leases_from (state_of (startup (fun i => inr (10 + i)) example_table) example_table)
                   s [11]
       /\ length [11] + length (buffers s) = num_created_consumers s
       /\ num_created_consumers s <= num_consumers s.
Proof.
  split; [reflexivity|]. split; [reflexivity|].
  exists (set_buffers [10] (set_semaphore (Poco.mkSemaphore 1 2) started_table)).
  assert (H : leases_from (state_of (startup (fun i => inr (10 + i)) example_table) example_table)
                (set_buffers [10] (set_semaphore (Poco.mkSemaphore 1 2) started_table)) [11]).
  { apply (@leases_pop _ started_table [] 0%Z 11); [apply leases_none | reflexivity]. }
  split; [exact H|].
  destruct (leased_plus_free_is_created example_globals example_settings false
              example_table _ _ _ eq_refl eq_refl H) as (H1 & H2 & _).
  split; [exact H1|exact H2].
Defined.

(** *** Past the range of int *)

Lemma ctor_succeeds g st att :
  (0 < to_int (value (nats_num_consumers st)))%Z ->
  connect g = inr true ->
  exists s0, StorageNATS_ctor g st att = inr s0.
Proof.
  intros Hpos Hup. unfold StorageNATS_ctor.
  destruct (Z.leb_spec (to_int (value (nats_num_consumers st))) 0); [lia|].
  rewrite Hup. eexists. reflexivity.
Qed.

(** startup of a table that is not attached, on a semaphore whose maximum
    is 1 while two consumers or more are asked for: the second buffer is
    appended to the pool, and then the semaphore refuses the signal. *)
Lemma startup_past_the_maximum make s b0 b1 todo :
  is_attach s = false ->
  isConnected (connection s) = true ->
  semaphore s = Poco.mkSemaphore 0 1 ->
  buffers s = [] ->
  num_created_consumers s = 0 ->
  num_consumers s = S (S todo) ->
  make 0 = inr b0 -> make 1 = inr b1 ->
  exists s1,
    startup make s = Throws (mkException FOREIGN_ERROR "Cannot signal semaphore") s1
    /\ buffers s1 = [b0; b1]
    /\ num_created_consumers s1 = 1.
Proof.
  intros Hatt Hup Hsem Hb Hcr Hn H0 H1.
  unfold startup. rewrite bind_gets, Hup. cbn [negb].
  rewrite bind_ret, bind_gets, Hn.
  assert (Hloop : exists s1,
    startup_loop make 0 (S (S todo)) s
    = Throws (mkException FOREIGN_ERROR "Cannot signal semaphore") s1
    /\ buffers s1 = [b0; b1] /\ num_created_consumers s1 = 1).
  { rewrite startup_loop_round, H0. cbv zeta. rewrite Hsem.
    unfold Poco.set at 1. cbn [Poco.count Poco.max Nat.ltb Nat.leb].
    rewrite startup_loop_round, H1. cbv zeta.
    cbn [semaphore set_num_created_consumers set_semaphore set_buffers
         Poco.set Poco.count Poco.max Nat.ltb Nat.leb is_attach].
    rewrite Hatt. eexists. split; [reflexivity|].
    cbn [buffers num_created_consumers set_buffers set_num_created_consumers
         set_semaphore].
    rewrite Hb, Hcr. split; reflexivity. }
  destruct Hloop as (s1 & Hrun & Hb1 & Hn1).
  exists s1. rewrite (bind_throws _ Hrun). auto.
Qed.

(** C7 (a defect of the code): with nats_num_consumers = 2^32 + 1 the
    semaphore of the pool is made with maximum int(2^32 + 1) = 1.  The table
    is constructed; its startup creates and counts a first buffer, appends
    a second one to the pool, and is then left by the exception of
    semaphore.set().  The pool holds two free buffers, none is leased, and
    num_created_consumers is 1. *)
Theorem startup_overflows_semaphore :
  value (nats_num_consumers overflowing_settings) = Z.to_nat (2 ^ 32 + 1)
  /\ exists s0 e s1,
       StorageNATS_ctor example_globals overflowing_settings false = inr s0
       /\ Poco.max (semaphore s0) = 1
       /\ startup (fun i => inr (10 + i)) s0 = Throws e s1
       /\ leases_from (state_of (startup (fun i => inr (10 + i)) s0) s0) s1 []
       /\ buffers s1 = [10; 11]
       /\ num_created_consumers s1 = 1
       /\ length (@nil ConsumerBufferPtr) + length (buffers s1)
          <> num_created_consumers s1.
Proof.
  split; [reflexivity|].
  remember (value (nats_num_consumers overflowing_settings)) as n eqn:En.
  assert (Hn : n = Z.to_nat (2 ^ 32 + 1)) by exact En.
  assert (Hint : to_int n = 1%Z).
  { rewrite Hn. unfold to_int. rewrite Z2Nat.id by lia. reflexivity. }
  assert (Htwo : exists todo, n = S (S todo)).
  { exists (n - 2). rewrite Hn. lia. }
  destruct Htwo as (todo & Htodo).
  destruct (ctor_succeeds example_globals overflowing_settings false)
    as (s0 & Hctor); [rewrite <- En, Hint; lia|reflexivity|].
  destruct (ctor_fields _ _ _ _ Hctor)
    as (_ & _ & Hnc & Hatt & _ & Hb & Hcr & Hsem & _ & Hconn & _).
  rewrite <- En in Hnc, Hsem. rewrite Hint in Hsem.
  change (Z.to_nat 1) with 1 in Hsem.
  destruct (startup_past_the_maximum (fun i => inr (10 + i)) s0 10 11 todo)
    as (s1 & Hrun & Hb1 & Hn1); auto.
  { apply Hconn. reflexivity. }
  { rewrite Hnc. exact Htodo. }
  exists s0. eexists. exists s1.
  split; [exact Hctor|]. split; [rewrite Hsem; reflexivity|].
  split; [exact Hrun|].
  split; [rewrite Hrun; apply leases_none|].
  split; [exact Hb1|]. split; [exact Hn1|].
  rewrite Hb1, Hn1. discriminate.
Qed.

(** ** read *)

(** C10: with no consumer created, read returns the empty pipe and leaves
    the object untouched, whatever the setting and the views are. *)
Theorem read_without_consumers :
  forall q s, num_created_consumers s = 0 -> read q s = Returns empty_pipe s.
Proof.
  intros q s H. unfold read. run. rewrite H. reflexivity.
Qed.

Lemma read_without_consumers_witness :
  num_created_consumers (set_mv_attached true example_table) = 0
  /\ read no_direct_select (set_mv_attached true example_table)
     = Returns empty_pipe (set_mv_attached true example_table).
Proof.
  split; [reflexivity|].
  apply (read_without_consumers no_direct_select (set_mv_attached true example_table)).
  reflexivity.
Defined.


Example read_allowed :
  exists s', read direct_select started_table = Returns (mkPipe 2) s'
    /\ getLoopState (getHandler (connection s')) = Loop.RUN.
Proof. eexists. split; [vm_compute; reflexivity|reflexivity]. Qed.

(** ** Registration *)

(** C8: the creator function ends with an exception whenever neither
    nats_url nor nats_server_list was specified, and whenever nats_format
    was not; when the loaders have not failed, these exceptions are the two
    NUMBER_OF_ARGUMENTS_DOESNT_MATCH of lines 633 and 637; and when an
    address and the format were specified, neither check raises: the result
    is the constructor's. *)
Theorem creation_requires_address_and_format :
  forall args,
    let st := nats_settings args in
    (changed (nats_url st) = false -> changed (nats_server_list st) = false ->
       exists e, creator_fn args = inl e)
    /\ (changed (nats_format st) = false -> exists e, creator_fn args = inl e)
    /\ (configuration_error args = None -> load_error args = None ->
        with_named_collection args = true \/ storage_def_settings args = true ->
        (changed (nats_url st) = false /\ changed (nats_server_list st) = false ->
           creator_fn args = inl (mkException NUMBER_OF_ARGUMENTS_DOESNT_MATCH
             "You must specify either `nats_url` or `nats_server_list` settings"))
        /\ (changed (nats_url st) = true \/ changed (nats_server_list st) = true ->
            changed (nats_format st) = false ->
            creator_fn args = inl (mkException NUMBER_OF_ARGUMENTS_DOESNT_MATCH
              "You must specify `nats_format` setting"))
        /\ (changed (nats_url st) = true \/ changed (nats_server_list st) = true ->
            changed (nats_format st) = true ->
            creator_fn args = StorageNATS_ctor (globals args) st (attach args))).
Proof.
  intros args st. unfold creator_fn. fold st.
  destruct (configuration_error args) as [e0|].
  { repeat split; intros; try discriminate; eexists; reflexivity. }
  destruct (with_named_collection args), (storage_def_settings args); simpl;
    destruct (load_error args) as [e1|];
    destruct (changed (nats_url st)), (changed (nats_server_list st)),
             (changed (nats_format st)); simpl;
    repeat split; intros;
    try discriminate; try reflexivity; try (eexists; reflexivity);
    repeat match goal with
           | H : _ /\ _ |- _ => destruct H
           | H : _ \/ _ |- _ => destruct H
           end; try discriminate.
Qed.

Lemma creation_requires_address_and_format_witness :
  changed (nats_url example_settings) = true
  /\ changed (nats_format example_settings) = true
  /\ creator_fn (mkArguments None false true None example_settings false example_globals)
     = inr example_table.
Proof.
  split; [reflexivity|]. split; [reflexivity|].
  pose proof (creation_requires_address_and_format
    (mkArguments None false true None example_settings false example_globals)) as H.
  destruct H as (_ & _ & H).
  destruct (H eq_refl eq_refl (or_intror eq_refl)) as (_ & _ & H3).
  rewrite (H3 (or_introl eq_refl) eq_refl). reflexivity.
Defined.

Example creation_without_format :
  creator_fn (mkArguments None false true None
      (mkSettings (mkSetting [] false) (mkSetting (list_ascii_of_string "a:1,b:2") true)
                  (mkSetting [] false) (mkSetting [] false) (mkSetting 1 false))
      false example_globals)
  = inl (mkException NUMBER_OF_ARGUMENTS_DOESNT_MATCH "You must specify `nats_format` setting").
Proof. reflexivity. Qed.

(** ** Tasks and shutdown *)

Lemma unsubscribe_all_run bs :
  forall s, unsubscribe_all bs s
            = Returns tt (set_trace (trace s ++ map EvUnsubscribe bs) s).
Proof.
  induction bs as [|b bs IH]; intros s; simpl.
  - unfold ret. rewrite app_nil_r. destruct s; reflexivity.
  - unfold unsubscribe. run. rewrite IH. simpl.
    rewrite <- app_assoc. reflexivity.
Qed.

(** The three deactivations always come back, in this order, and leave the
    loop stopped. *)
Lemma shutdown_tasks_run lock1 lock2 lock3 s :
  exists s1,
    shutdown_tasks lock1 lock2 lock3 s = Returns tt s1
    /\ trace s1 = trace s ++ [EvDeactivate connection_task; EvDeactivate streaming_task;
                              EvUpdateLoopState Loop.STOP; EvDeactivate looping_task]
    /\ shutdown_called s1 = true
    /\ tasks s1 = mkTasks true true true
    /\ getHandler (connection s1) = mkHandler false Loop.STOP
    /\ isConnected (connection s1) = isConnected (connection s)
    /\ buffers s1 = buffers s /\ semaphore s1 = semaphore s
    /\ num_created_consumers s1 = num_created_consumers s
    /\ num_consumers s1 = num_consumers s
    /\ drop_table s1 = drop_table s.
Proof.
  unfold shutdown_tasks, deactivateTask, stopLoop, deactivate.
  destruct lock1, lock2, lock3; run; rewrite ?andb_false_r;
    eexists; (split; [reflexivity|]); simpl;
    rewrite <- !app_assoc; simpl; repeat split.
Qed.

Lemma popReadBuffer_noarg_back s l b :
  buffers s = l ++ [b] -> Poco.count (semaphore s) = length (buffers s) ->
  popReadBuffer_noarg s
  = Returns (Some b)
      (set_buffers l (set_semaphore (Poco.mkSemaphore (length l) (Poco.max (semaphore s))) s)).
Proof.
  intros Hb Hc.
  unfold popReadBuffer_noarg, popReadBuffer, semaphore_wait, take_back, Poco.take.
  run. rewrite Hc, Hb, length_app. simpl. rewrite Nat.add_1_r.
  run. rewrite Hb, rev_snoc, removelast_snoc. reflexivity.
Qed.

Lemma list_snoc_cases (A : Type) (l : list A) :
  l = [] \/ exists l' x, l = l' ++ [x].
Proof.
  destruct l as [|a l]; [left; reflexivity|right].
  destruct (@exists_last _ (a :: l)) as (l' & x & H); [discriminate|].
  exists l', x. exact H.
Qed.

(** The pops that close shutdown: they empty the pool when every buffer is
    free, and wait on the semaphore when some buffer is still leased. *)
Lemma pop_all_run :
  forall todo s,
    Poco.count (semaphore s) = length (buffers s) ->
    exists s',
      (pop_all todo s = if (todo <=? length (buffers s))%nat
                        then Returns tt s' else Blocks s')
      /\ buffers s' = firstn (length (buffers s) - todo) (buffers s)
      /\ trace s' = trace s.
Proof.
  induction todo as [|todo IH]; intros s Hc.
  - exists s. simpl. rewrite Nat.sub_0_r, firstn_all. auto.
  - simpl. destruct (list_snoc_cases _ (buffers s)) as [E|(l & b & E)].
    + exists s. rewrite E. simpl. split; [|auto].
      unfold popReadBuffer_noarg, popReadBuffer, semaphore_wait, Poco.take. run.
      rewrite Hc, E. reflexivity.
    + unfold bind. rewrite (popReadBuffer_noarg_back s l b E Hc).
      match goal with |- context [pop_all todo ?s1] =>
        destruct (IH s1) as (s' & Hrun & Hbuf & Htr); [reflexivity|] end.
      exists s'. simpl in *. rewrite Hrun, Hbuf, Htr, E, length_app. simpl.
      rewrite Nat.add_1_r. simpl. split; [reflexivity|]. split; [|reflexivity].
      rewrite firstn_app.
      replace (length l - todo - length l) with 0 by lia.
      simpl. rewrite app_nil_r. reflexivity.
Qed.

(** What shutdown leaves in the trace after the deactivations, and in the
    pool. *)
Lemma shutdown_release_run s :
  loopRunning (getHandler (connection s)) = false ->
  Poco.count (semaphore s) = length (buffers s) ->
  exists s',
    (try_catch shutdown_release (fun _ => ret tt) s
     = if (num_created_consumers s <=? length (buffers s))%nat
       then Returns tt s' else Blocks s')
    /\ trace s' = trace s
                  ++ (if drop_table s then map EvUnsubscribe (buffers s) else [])
                  ++ [EvDisconnect]
    /\ buffers s' = firstn (length (buffers s) - num_created_consumers s) (buffers s).
Proof.
  intros Hrun Hc. unfold shutdown_release, disconnect, stopLoop.
  destruct (drop_table s) eqn:Ed.
  - run. rewrite Ed. rewrite unsubscribe_all_run. simpl. rewrite Hrun. simpl.
    match goal with |- context [pop_all _ ?s1] =>
      destruct (pop_all_run (num_created_consumers s) s1) as (s' & Hp & Hb & Ht);
        [exact Hc|] end.
    exists s'. simpl in *. rewrite Hp, Hb, Ht.
    destruct (num_created_consumers s <=? length (buffers s))%nat;
      rewrite <- app_assoc; auto.
  - run. rewrite Ed. simpl. rewrite Hrun. simpl.
    match goal with |- context [pop_all _ ?s1] =>
      destruct (pop_all_run (num_created_consumers s) s1) as (s' & Hp & Hb & Ht);
        [exact Hc|] end.
    exists s'. simpl in *. rewrite Hp, Hb, Ht.
    destruct (num_created_consumers s <=? length (buffers s))%nat; auto.
Qed.

Example shutdown_of_started_table :
  exists s', shutdown true true true started_table = Returns tt s'
    /\ buffers s' = []
    /\ trace s' = trace started_table
                  ++ [EvDeactivate connection_task; EvDeactivate streaming_task;
                      EvUpdateLoopState Loop.STOP; EvDeactivate looping_task;
                      EvDisconnect].
Proof. eexists. split; [vm_compute; reflexivity|]. split; reflexivity. Qed.

(** C4 (as stated, refuted): shutdown of a table that is not being dropped
    pops the two buffers of the pool and unsubscribes neither. *)
Lemma shutdown_without_unsubscribe :
  buffers started_table = [10; 11] /\ drop_table started_table = false
  /\ exists s', shutdown true true true started_table = Returns tt s'
       /\ buffers s' = []
       /\ ~ In (EvUnsubscribe 10) (trace s') /\ ~ In (EvUnsubscribe 11) (trace s').
Proof.
  split; [reflexivity|]. split; [reflexivity|].
  eexists. split; [vm_compute; reflexivity|]. split; [reflexivity|].
  split; simpl; intros H;
    repeat (destruct H as [H|H]; [discriminate H|]); exact H.
Qed.

(** C4 (amended): shutdown deactivates the connection task, then the
    streaming task, then (the loop state set to STOP) the looping task, each
    deactivation waited for; all three come back, and the loop is then not
    running.  Only after that are buffers unsubscribed, and only when the
    table is being dropped (drop_table): then every buffer in the pool is,
    in order.  Then the connection is closed and num_created_consumers
    buffers are popped: when every created buffer is free the pool ends
    empty, and when some are leased shutdown pops the free ones and waits on
    the semaphore. *)
Theorem shutdown_order :
  forall lock1 lock2 lock3 s,
    Poco.count (semaphore s) = length (buffers s) ->
    exists s1 s',
      shutdown_tasks lock1 lock2 lock3 s = Returns tt s1
      /\ trace s1 = trace s ++ [EvDeactivate connection_task; EvDeactivate streaming_task;
                                EvUpdateLoopState Loop.STOP; EvDeactivate looping_task]
      /\ loopRunning (getHandler (connection s1)) = false
      /\ getLoopState (getHandler (connection s1)) = Loop.STOP
      /\ shutdown lock1 lock2 lock3 s
         = (if (num_created_consumers s <=? length (buffers s))%nat
            then Returns tt s' else Blocks s')
      /\ trace s' = trace s1
                    ++ (if drop_table s then map EvUnsubscribe (buffers s) else [])
                    ++ [EvDisconnect]
      /\ buffers s' = firstn (length (buffers s) - num_created_consumers s) (buffers s)
      /\ (num_created_consumers s = length (buffers s) ->
            shutdown lock1 lock2 lock3 s = Returns tt s' /\ buffers s' = []).
Proof.
  intros lock1 lock2 lock3 s Hc.
  destruct (shutdown_tasks_run lock1 lock2 lock3 s)
    as (s1 & Hrun & Htr & Hsd & Htk & Hh & Hconn & Hb & Hsem & Hn & Hnc & Hd).
  destruct (shutdown_release_run s1) as (s' & Hrel & Htr' & Hb').
  { rewrite Hh. reflexivity. }
  { rewrite Hsem, Hb. exact Hc. }
  exists s1, s'. rewrite Hn, Hb, Hd in *.
  assert (Hshut : shutdown lock1 lock2 lock3 s
                  = (if (num_created_consumers s <=? length (buffers s))%nat
                     then Returns tt s' else Blocks s')).
  { unfold shutdown, bind. rewrite Hrun. exact Hrel. }
  repeat split; auto.
  - rewrite Hh. reflexivity.
  - rewrite Hh. reflexivity.
  - rewrite Hshut, H, Nat.leb_refl. reflexivity.
  - rewrite Hb', H, Nat.sub_diag. reflexivity.
Qed.

Lemma shutdown_order_witness :
  Poco.count (semaphore (set_mv_attached false started_table))
  = length (buffers (set_mv_attached false started_table))
  /\ exists s1 s',
       shutdown_tasks true false true (set_mv_attached false started_table) = Returns tt s1
       /\ loopRunning (getHandler (connection s1)) = false
       /\ buffers s' = firstn 0 [10; 11].
Proof.
  split; [reflexivity|].
  destruct (shutdown_order true false true (set_mv_attached false started_table) eq_refl)
    as (s1 & s' & H1 & _ & H3 & _ & _ & _ & H7 & _).
  exists s1, s'. auto.
Defined.

(** ** The connection task *)

Example retry_of_detached_table :
  exists s', connectionFunc false detached_table = Returns tt s'
    /\ trace s' = trace detached_table
                  ++ [EvReconnect false; EvScheduleAfter connection_task 500].
Proof. eexists. split; [vm_compute; reflexivity|reflexivity]. Qed.



(** ** streamToViews *)

Lemma frame_refl s : frame s s.
Proof. unfold frame. tauto. Qed.

Lemma frame_trans s1 s2 s3 : frame s1 s2 -> frame s2 s3 -> frame s1 s3.
Proof.
  unfold frame. intros (A1 & A2 & A3 & A4 & A5 & A6) (B1 & B2 & B3 & B4 & B5 & B6).
  repeat split; congruence.
Qed.

Lemma verdicts_app a b : verdicts (a ++ b) = verdicts a ++ verdicts b.
Proof.
  induction a as [|e a IH]; simpl; [reflexivity|].
  destruct e; simpl; rewrite ?IH; reflexivity.
Qed.

Lemma probe_sources_run empty sources :
  forall queue_empty s,
    probe_sources empty sources queue_empty s
    = Returns (queue_empty + length (filter empty sources))
              (set_trace (trace s ++ repeat EvIterateLoop (length sources)) s).
Proof.
  induction sources as [|src rest IH]; intros q s; simpl.
  - unfold ret. rewrite Nat.add_0_r, app_nil_r. destruct s; reflexivity.
  - unfold iterateLoop. run. rewrite IH. simpl.
    rewrite <- app_assoc. simpl.
    destruct (empty src); simpl; rewrite ?Nat.add_succ_r; reflexivity.
Qed.

Lemma filter_all_forallb (A : Type) (f : A -> bool) (l : list A) :
  (length (filter f l) =? length l)%nat = forallb f l.
Proof.
  induction l as [|x l IH]; simpl; [reflexivity|].
  destruct (f x); simpl; [exact IH|].
  apply Nat.eqb_neq. pose proof (filter_length_le f l). lia.
Qed.

Lemma streamToViews_decide_run queue_empty s :
  exists s',
    streamToViews_decide queue_empty s
    = Returns (queue_empty =? num_created_consumers s)%nat s'
    /\ trace s' = (trace s
                   ++ (if (queue_empty =? num_created_consumers s)%nat then []
                       else [EvUpdateLoopState Loop.RUN; EvActivateAndSchedule looping_task]))
                  ++ [EvVerdict (queue_empty =? num_created_consumers s)%nat]
    /\ ((queue_empty =? num_created_consumers s)%nat = false ->
          getLoopState (getHandler (connection s')) = Loop.RUN)
    /\ milliseconds_to_wait s' = milliseconds_to_wait s
    /\ frame s s'.
Proof.
  unfold streamToViews_decide, verdict, startLoop, activateAndSchedule. run.
  destruct (queue_empty =? num_created_consumers s)%nat; run;
    eexists; (split; [reflexivity|]); simpl; rewrite ?app_nil_r;
    (split; [rewrite <- ?app_assoc; reflexivity|]);
    unfold frame; simpl; repeat split; try discriminate.
Qed.

Lemma verdicts_repeat_iterate n : verdicts (repeat EvIterateLoop n) = [].
Proof. induction n; simpl; auto. Qed.

Lemma deactivate_looping_after_stop lock s :
  exists s1,
    deactivateTask looping_task false true lock s = Returns tt s1
    /\ trace s1 = trace s ++ EvUpdateLoopState Loop.STOP
                               :: (if lock then [EvDeactivate looping_task] else [])
    /\ connected (connection s1) = connected (connection s)
    /\ milliseconds_to_wait s1 = milliseconds_to_wait s
    /\ frame s s1.
Proof.
  unfold deactivateTask, stopLoop, deactivate.
  destruct lock; run; rewrite ?andb_false_r;
    eexists; (split; [reflexivity|]); simpl; rewrite <- ?app_assoc;
    unfold frame; simpl; repeat split.
Qed.

Lemma startLoop_run s :
  exists s1,
    startLoop s = Returns tt s1
    /\ trace s1 = trace s ++ [EvUpdateLoopState Loop.RUN; EvActivateAndSchedule looping_task]
    /\ connected (connection s1) = connected (connection s)
    /\ milliseconds_to_wait s1 = milliseconds_to_wait s
    /\ frame s s1.
Proof.
  unfold startLoop, activateAndSchedule. run.
  eexists. split; [reflexivity|]. simpl. rewrite <- ?app_assoc.
  unfold frame; simpl; repeat split.
Qed.

Lemma reconnect_run attempt s :
  reconnect attempt s
  = if connected (connection s) then Returns true s
    else Returns attempt
           (set_connected attempt (set_trace (trace s ++ [EvReconnect attempt]) s)).
Proof.
  unfold reconnect, isConnected. run.
  destruct (connected (connection s)); reflexivity.
Qed.

Lemma verdict_run back_off s :
  verdict back_off s = Returns back_off (set_trace (trace s ++ [EvVerdict back_off]) s).
Proof. reflexivity. Qed.

(** Lines 576-616, case by case. *)
Lemma streamToViews_after_pass_run p s :
  let created := num_created_consumers s in
  let up := isConnected (connection s) in
  let back_off :=
    if up then forallb (queueEmpty p) (seq 0 created)
    else shutdown_called s || negb (pass_reconnect_attempt p) || (created =? 0)%nat in
  exists s' evs,
    streamToViews_after_pass p (seq 0 created) s = Returns back_off s'
    /\ trace s' = (trace s ++ evs) ++ [EvVerdict back_off]
    /\ verdicts evs = []
    /\ (up = false -> existsb is_iterate evs = false)
    /\ (back_off = false ->
          getLoopState (getHandler (connection s')) = Loop.RUN
          /\ exists evs', evs = evs' ++ [EvUpdateLoopState Loop.RUN;
                                         EvActivateAndSchedule looping_task])
    /\ milliseconds_to_wait s' = milliseconds_to_wait s
    /\ frame s s'.
Proof.
  intros created up back_off. subst created up back_off.
  unfold streamToViews_after_pass, isConnected.
  destruct (deactivate_looping_after_stop (pass_try_lock p) s)
    as (s1 & H1 & Htr1 & Hup1 & Hms1 & Hfr1).
  rewrite (bind_returns _ H1), bind_gets. unfold isConnected. rewrite Hup1.
  pose proof Hfr1 as (Hsd1 & Hn1 & _).
  set (E1 := EvUpdateLoopState Loop.STOP
               :: (if pass_try_lock p then [EvDeactivate looping_task] else [])) in *.
  assert (HvE1 : verdicts E1 = []) by (unfold E1; destruct (pass_try_lock p); reflexivity).
  assert (HiE1 : existsb is_iterate E1 = false)
    by (unfold E1; destruct (pass_try_lock p); reflexivity).
  clearbody E1.
  destruct (connected (connection s)) eqn:Eup; simpl.
  - (* the connection is up: the queues are probed, the loop iterated *)
    rewrite (bind_returns _ (probe_sources_run _ _ _ _)).
    match goal with |- context [streamToViews_decide ?q ?s2] =>
      destruct (streamToViews_decide_run q s2) as (s' & Hrun & Htr & Hloop & Hms & Hfr)
    end.
    simpl in Hrun, Htr, Hloop, Hms. rewrite Hn1 in *.
    assert (Hq : (length (filter (queueEmpty p) (seq 0 (num_created_consumers s)))
                  =? num_created_consumers s)%nat
                 = forallb (queueEmpty p) (seq 0 (num_created_consumers s))).
    { rewrite <- filter_all_forallb, length_seq. reflexivity. }
    rewrite length_seq, Hq in *.
    set (r := forallb (queueEmpty p) (seq 0 (num_created_consumers s))) in *.
    exists s'.
    exists (E1 ++ repeat EvIterateLoop (num_created_consumers s)
               ++ (if r then [] else [EvUpdateLoopState Loop.RUN;
                                      EvActivateAndSchedule looping_task])).
    split; [exact Hrun|].
    split; [rewrite Htr, Htr1; f_equal; rewrite <- !app_assoc; reflexivity|].
    split; [rewrite !verdicts_app, HvE1, verdicts_repeat_iterate; destruct r; reflexivity|].
    split; [discriminate|].
    split; [intros Hr; split; [exact (Hloop Hr)|]; rewrite Hr;
            eexists; rewrite !app_assoc; reflexivity|].
    split; [congruence|].
    eapply frame_trans; [exact Hfr1|]. eapply frame_trans; [|exact Hfr].
    unfold frame; simpl; repeat split.
  - rewrite bind_gets, Hsd1.
    destruct (shutdown_called s) eqn:Esd; simpl.
    + (* shutdown is under way *)
      rewrite verdict_run. eexists. exists E1.
      split; [reflexivity|]. simpl.
      split; [rewrite Htr1; reflexivity|].
      split; [exact HvE1|]. split; [intros _; exact HiE1|].
      split; [discriminate|]. split; [exact Hms1|].
      eapply frame_trans; [exact Hfr1|]. unfold frame; simpl; repeat split.
    + pose proof (reconnect_run (pass_reconnect_attempt p) s1) as Hrec.
      rewrite Hup1 in Hrec. rewrite (bind_returns _ Hrec).
      destruct (pass_reconnect_attempt p) eqn:Eat; simpl.
      * (* restored: the queues are not looked at *)
        match goal with |- context [streamToViews_decide ?q ?s2] =>
          destruct (streamToViews_decide_run q s2) as (s' & Hrun & Htr & Hloop & Hms & Hfr)
        end.
        cbn [num_created_consumers set_connected set_connection set_trace trace
             milliseconds_to_wait] in Hrun, Htr, Hloop, Hms.
        rewrite Hn1 in *.
        rewrite (Nat.eqb_sym 0 (num_created_consumers s)) in *.
        set (r := (num_created_consumers s =? 0)%nat) in *.
        exists s'.
        exists (E1 ++ EvReconnect true
                   :: (if r then [] else [EvUpdateLoopState Loop.RUN;
                                          EvActivateAndSchedule looping_task])).
        split; [exact Hrun|].
        split; [rewrite Htr, Htr1; f_equal; rewrite <- !app_assoc; reflexivity|].
        split; [rewrite !verdicts_app, HvE1; destruct r; reflexivity|].
        split; [intros _; rewrite existsb_app, HiE1; destruct r; reflexivity|].
        split; [intros Hr; split; [exact (Hloop Hr)|]; rewrite Hr;
                exists (E1 ++ [EvReconnect true]); rewrite <- !app_assoc; reflexivity|].
        split; [congruence|].
        eapply frame_trans; [exact Hfr1|]. eapply frame_trans; [|exact Hfr].
        unfold frame; simpl; repeat split.
      * (* the connection could not be restored *)
        rewrite verdict_run. eexists. exists (E1 ++ [EvReconnect false]).
        split; [reflexivity|]. simpl.
        split; [rewrite Htr1, <- !app_assoc; reflexivity|].
        split; [rewrite verdicts_app, HvE1; reflexivity|].
        split; [intros _; rewrite existsb_app, HiE1; reflexivity|].
        split; [discriminate|]. split; [exact Hms1|].
        eapply frame_trans; [exact Hfr1|]. unfold frame; simpl; repeat split.
Qed.

(** A pass that gets as far as line 576. *)
Lemma streamToViews_pass_run p s :
  table_found p = true -> insert_error p = None -> executor_error p = None ->
  let created := num_created_consumers s in
  let up := isConnected (connection s) && negb (connection_lost p) in
  let back_off :=
    if up then forallb (queueEmpty p) (seq 0 created)
    else shutdown_called s || negb (pass_reconnect_attempt p) || (created =? 0)%nat in
  exists s' evs,
    streamToViews p s = Returns back_off s'
    /\ trace s' = (trace s ++ evs) ++ [EvVerdict back_off]
    /\ verdicts evs = []
    /\ (up = false -> existsb is_iterate evs = false)
    /\ (back_off = false ->
          getLoopState (getHandler (connection s')) = Loop.RUN
          /\ exists evs', evs = evs' ++ [EvUpdateLoopState Loop.RUN;
                                         EvActivateAndSchedule looping_task])
    /\ milliseconds_to_wait s' = milliseconds_to_wait s
    /\ frame s s'.
Proof.
  intros Ht Hi He created up back_off. subst created up back_off.
  unfold streamToViews. rewrite Ht, Hi, He. simpl.
  rewrite bind_ret, bind_gets, bind_gets.
  (* the loop is started if it does not run *)
  assert (Hstart : exists s1 E1,
    (when (negb (loopRunning (getHandler (connection s)))) then startLoop) s = Returns tt s1
    /\ trace s1 = trace s ++ E1 /\ verdicts E1 = [] /\ existsb is_iterate E1 = false
    /\ connected (connection s1) = connected (connection s)
    /\ milliseconds_to_wait s1 = milliseconds_to_wait s /\ frame s s1).
  { destruct (negb (loopRunning (getHandler (connection s)))).
    - destruct (startLoop_run s) as (s1 & H1 & Htr1 & Hup1 & Hms1 & Hfr1).
      exists s1. eexists. split; [exact H1|]. split; [exact Htr1|]. auto.
    - exists s, []. rewrite app_nil_r. unfold ret.
      repeat split. }
  destruct Hstart as (s1 & E1 & H1 & Htr1 & HvE1 & HiE1 & Hup1 & Hms1 & Hfr1).
  rewrite (bind_returns _ H1).
  (* the pass, during which the connection may go away *)
  set (s2 := if connection_lost p then set_connected false s1 else s1).
  assert (H2 : (when (connection_lost p) then modify (set_connected false)) s1
               = Returns tt s2) by (unfold s2; destruct (connection_lost p); reflexivity).
  rewrite (bind_returns _ H2), bind_ret, bind_emit.
  assert (Hn2 : num_created_consumers s2 = num_created_consumers s).
  { unfold s2. destruct (connection_lost p); simpl; apply Hfr1. }
  assert (Hsd2 : shutdown_called s2 = shutdown_called s).
  { unfold s2. destruct (connection_lost p); simpl; apply Hfr1. }
  match goal with |- context [streamToViews_after_pass p _ ?s3] =>
    pose proof (streamToViews_after_pass_run p s3) as H3
  end.
  simpl in H3. rewrite Hn2, Hsd2 in H3.
  destruct H3 as (s' & evs & Hrun & Htr & Hv & Hit & Hloop & Hms & Hfr).
  assert (Hup2 : connected (connection s2)
                 = connected (connection s) && negb (connection_lost p)).
  { unfold s2. destruct (connection_lost p); simpl;
      rewrite ?Hup1, ?andb_true_r, ?andb_false_r; reflexivity. }
  unfold isConnected in *. rewrite Hup2 in *.
  exists s', (E1 ++ EvPipelineExecuted :: evs).
  split; [exact Hrun|].
  split.
  { rewrite Htr. f_equal.
    replace (trace s2) with (trace s1)
      by (unfold s2; destruct (connection_lost p); reflexivity).
    rewrite Htr1, <- !app_assoc. reflexivity. }
  split; [rewrite verdicts_app, HvE1; simpl; exact Hv|].
  split; [intros Hup; rewrite existsb_app, HiE1; simpl; exact (Hit Hup)|].
  split.
  { intros Hf. destruct (Hloop Hf) as (Hl1 & evs' & Hl2). split; [exact Hl1|].
    exists (E1 ++ EvPipelineExecuted :: evs'). rewrite Hl2, <- !app_assoc. reflexivity. }
  split.
  { rewrite Hms. simpl.
    replace (milliseconds_to_wait s2) with (milliseconds_to_wait s1)
      by (unfold s2; destruct (connection_lost p); reflexivity).
    exact Hms1. }
  eapply frame_trans; [exact Hfr1|]. eapply frame_trans; [|exact Hfr].
  unfold s2, frame; destruct (connection_lost p); simpl; repeat split.
Qed.

(** Every call of streamToViews either returns, and the trace gets one more
    verdict, or throws, and the trace gets none; the delay is not touched. *)
Lemma streamToViews_run p s :
  (exists e s', streamToViews p s = Throws e s'
      /\ verdicts (trace s') = verdicts (trace s)
      /\ milliseconds_to_wait s' = milliseconds_to_wait s /\ frame s s')
  \/ (exists back_off s', streamToViews p s = Returns back_off s'
      /\ verdicts (trace s') = verdicts (trace s) ++ [back_off]
      /\ milliseconds_to_wait s' = milliseconds_to_wait s /\ frame s s').
Proof.
  destruct (table_found p) eqn:Ht.
  2:{ left. unfold streamToViews. rewrite Ht. run. eexists. exists s.
      split; [reflexivity|]. split; [reflexivity|]. split; [reflexivity|apply frame_refl]. }
  destruct (insert_error p) as [e|] eqn:Hi.
  { left. unfold streamToViews. rewrite Ht, Hi. run. exists e, s.
    split; [reflexivity|]. split; [reflexivity|]. split; [reflexivity|apply frame_refl]. }
  destruct (executor_error p) as [e|] eqn:He.
  { left. unfold streamToViews, startLoop, activateAndSchedule. rewrite Ht, Hi, He. run.
    unfold loopRunning.
    destruct (loop_running (getHandler (connection s)));
      destruct (connection_lost p); run;
      exists e; eexists; (split; [reflexivity|]); simpl;
      rewrite ?verdicts_app, ?app_nil_r; unfold frame; simpl; repeat split. }
  right.
  destruct (streamToViews_pass_run p s Ht Hi He)
    as (s' & evs & Hrun & Htr & Hv & _ & _ & Hms & Hfr).
  eexists. exists s'. split; [exact Hrun|].
  split; [|split; assumption].
  rewrite Htr, !verdicts_app, Hv, app_nil_r. reflexivity.
Qed.

Lemma forallb_seq (f : nat -> bool) n :
  forallb f (seq 0 n) = true <-> forall i, i < n -> f i = true.
Proof.
  rewrite forallb_forall. split.
  - intros H i Hi. apply H. apply in_seq. lia.
  - intros H i Hi. apply in_seq in Hi. apply H. lia.
Qed.

Example quiet_pass_backs_off :
  exists s', streamToViews quiet_pass started_table = Returns true s'
    /\ trace s' = trace started_table
         ++ [EvUpdateLoopState Loop.RUN; EvActivateAndSchedule looping_task;
             EvPipelineExecuted; EvUpdateLoopState Loop.STOP; EvDeactivate looping_task;
             EvIterateLoop; EvIterateLoop; EvVerdict true].
Proof. eexists. split; [vm_compute; reflexivity|reflexivity]. Qed.

(** C1 (as stated, refuted): the connection goes away during the pass and
    is restored; the queues of both sources are empty, and yet streamToViews
    returns false and restarts the loop. *)
Lemma restored_connection_ignores_queues :
  (forall i, i < num_created_consumers started_table -> queueEmpty restored_pass i = true)
  /\ exists s', streamToViews restored_pass started_table = Returns false s'
       /\ getLoopState (getHandler (connection s')) = Loop.RUN
       /\ trace s' = trace started_table
            ++ [EvUpdateLoopState Loop.RUN; EvActivateAndSchedule looping_task;
                EvPipelineExecuted; EvUpdateLoopState Loop.STOP; EvDeactivate looping_task;
                EvReconnect true;
                EvUpdateLoopState Loop.RUN; EvActivateAndSchedule looping_task;
                EvVerdict false].
Proof.
  split; [intros i _; reflexivity|].
  eexists. split; [vm_compute; reflexivity|]. split; reflexivity.
Qed.

(** C1 (amended): a call of streamToViews that gets through the pipeline
    pass returns.  It returns true exactly when, after the pass, either the
    connection is down and shutdown was called, or reconnect fails, or no
    consumer was created, or the connection is up and the queue of every
    created consumer's source is empty.  With the connection down the loop
    is not iterated, so nothing is acknowledged, and the queues are not
    looked at: a restored connection gives false whatever the queues hold.
    Whenever it returns false it has just restarted the loop (state RUN,
    looping task scheduled). *)
Theorem streamToViews_verdict :
  forall p s,
    table_found p = true -> insert_error p = None -> executor_error p = None ->
    let up := isConnected (connection s) && negb (connection_lost p) in
    exists back_off s' evs,
      streamToViews p s = Returns back_off s'
      /\ trace s' = (trace s ++ evs) ++ [EvVerdict back_off]
      /\ (back_off = true <->
            (up = false /\ (shutdown_called s = true
                            \/ pass_reconnect_attempt p = false
                            \/ num_created_consumers s = 0))
            \/ (up = true /\ forall i, i < num_created_consumers s -> queueEmpty p i = true))
      /\ (up = false -> existsb is_iterate evs = false)
      /\ (back_off = false ->
            getLoopState (getHandler (connection s')) = Loop.RUN
            /\ exists evs', evs = evs' ++ [EvUpdateLoopState Loop.RUN;
                                           EvActivateAndSchedule looping_task]).
Proof.
  intros p s Ht Hi He up.
  destruct (streamToViews_pass_run p s Ht Hi He)
    as (s' & evs & Hrun & Htr & _ & Hit & Hloop & _ & _).
  fold up in Hrun, Htr, Hit, Hloop.
  eexists. exists s', evs. split; [exact Hrun|]. split; [exact Htr|].
  split; [|split; assumption].
  destruct up.
  - rewrite forallb_seq. split.
    + intros H. right. split; [reflexivity|exact H].
    + intros [[H _]|[_ H]]; [discriminate|exact H].
  - rewrite !orb_true_iff, negb_true_iff, Nat.eqb_eq. split.
    + intros H. left. split; [reflexivity|]. tauto.
    + intros [[_ H]|[H _]]; [tauto|discriminate].
Qed.

Lemma streamToViews_verdict_witness :
  table_found quiet_pass = true /\ insert_error quiet_pass = None
  /\ executor_error quiet_pass = None
  /\ exists back_off s' evs,
       streamToViews quiet_pass started_table = Returns back_off s'
       /\ trace s' = (trace started_table ++ evs) ++ [EvVerdict back_off].
Proof.
  split; [reflexivity|]. split; [reflexivity|]. split; [reflexivity|].
  destruct (streamToViews_verdict quiet_pass started_table eq_refl eq_refl eq_refl)
    as (back_off & s' & evs & H1 & H2 & _).
  exists back_off, s', evs. split; assumption.
Defined.

(** ** The delay of the streaming task *)

Example first_quiet_cycle_doubles_the_delay :
  milliseconds_to_wait started_table = 500%Z
  /\ milliseconds_to_wait (after (streamingToViewsFunc quiet_cycle) started_table) = 1000%Z.
Proof. split; vm_compute; reflexivity. Qed.

Example six_quiet_cycles :
  map (fun n => milliseconds_to_wait
                  (fold_right (fun c s => after (streamingToViewsFunc c) s) started_table
                              (repeat quiet_cycle n)))
      [0; 1; 2; 3; 4; 5; 6]
  = [500; 1000; 2000; 4000; 8000; 8000; 8000]%Z.
Proof. vm_compute. reflexivity. Qed.

Example busy_cycle_after_quiet_ones :
  let s3 := fold_right (fun c s => after (streamingToViewsFunc c) s) started_table
                       (repeat quiet_cycle 3) in
  milliseconds_to_wait s3 = 4000%Z
  /\ verdicts (trace (after (streamingToViewsFunc busy_cycle) s3))
     = [true; true; true; false; true]
  /\ milliseconds_to_wait (after (streamingToViewsFunc busy_cycle) s3) = 1000%Z.
Proof. repeat split; vm_compute; reflexivity. Qed.

(** *** Calls that leave the delay and the verdicts alone *)

Create HintDb neutral.

Lemma neutral_ret (A : Type) (a : A) : neutral (ret a).
Proof. intros s. split; reflexivity. Qed.

Lemma neutral_throw (A : Type) (e : Exception) : neutral (@throw A e).
Proof. intros s. split; reflexivity. Qed.

Lemma neutral_gets (A : Type) (f : StorageNATS -> A) : neutral (gets f).
Proof. intros s. split; reflexivity. Qed.

Lemma neutral_bind (A B : Type) (m : M A) (k : A -> M B) :
  neutral m -> (forall a, neutral (k a)) -> neutral (bind m k).
Proof.
  intros Hm Hk s. specialize (Hm s). unfold after, bind in *.
  destruct (m s) as [a s1|e s1|s1|]; simpl in *; auto.
  specialize (Hk a s1). unfold after in Hk.
  destruct (k a s1); simpl in *; intuition congruence.
Qed.

Lemma neutral_try_catch (A : Type) (m : M A) (h : Exception -> M A) :
  neutral m -> (forall e, neutral (h e)) -> neutral (try_catch m h).
Proof.
  intros Hm Hh s. specialize (Hm s). unfold after, try_catch in *.
  destruct (m s) as [a s1|e s1|s1|]; simpl in *; auto.
  specialize (Hh e s1). unfold after in Hh.
  destruct (h e s1); simpl in *; intuition congruence.
Qed.

Lemma neutral_if (A : Type) (b : bool) (m1 m2 : M A) :
  neutral m1 -> neutral m2 -> neutral (if b then m1 else m2).
Proof. destruct b; auto. Qed.

Lemma neutral_modify (f : StorageNATS -> StorageNATS) :
  (forall s, milliseconds_to_wait (f s) = milliseconds_to_wait s) ->
  (forall s, trace (f s) = trace s) ->
  neutral (modify f).
Proof. intros H1 H2 s. unfold after, modify. simpl. rewrite H1, H2. auto. Qed.

Lemma neutral_emit (e : Event) : verdicts [e] = [] -> neutral (emit e).
Proof.
  intros H s. unfold after, emit, modify. simpl.
  rewrite verdicts_app, H, app_nil_r. auto.
Qed.

(** The database holds the lemmas of the member functions; the tactic
    falls back on the structure of the call. *)
Ltac neutral_step :=
  first
    [ assumption
    | solve [auto 1 with neutral nocore]
    | apply neutral_ret | apply neutral_throw | apply neutral_gets
    | apply neutral_bind; [|intros ?]
    | apply neutral_try_catch; [|intros ?]
    | apply neutral_if
    | apply neutral_emit; reflexivity
    | apply neutral_modify; intros ?; reflexivity
    | match goal with |- neutral (match ?x with _ => _ end) => destruct x end ].

Ltac neutral_auto := repeat neutral_step.

Lemma neutral_activateAndSchedule t : neutral (activateAndSchedule t).
Proof. unfold activateAndSchedule. neutral_auto. Qed.

Lemma neutral_deactivate t : neutral (deactivate t).
Proof.
  intros s. unfold after, deactivate.
  destruct (Task_eqb t looping_task && loopRunning (getHandler (connection s))
            && (getLoopState (getHandler (connection s)) =? Loop.RUN)%Z);
    [split; reflexivity|].
  assert (H : neutral (emit (EvDeactivate t) ;;
       modify (fun s => set_tasks (set_deactivated t true (tasks s)) s) ;;
       when (Task_eqb t looping_task) then
         modify (fun s =>
           set_handler (mkHandler false (loop_state (getHandler (connection s)))) s)))
    by neutral_auto.
  exact (H s).
Qed.

Lemma neutral_scheduleAfter t ms : neutral (scheduleAfter t ms).
Proof. unfold scheduleAfter. neutral_auto. Qed.

Lemma neutral_reconnect attempt : neutral (reconnect attempt).
Proof. unfold reconnect. neutral_auto. Qed.

Lemma neutral_stopLoop : neutral stopLoop.
Proof. unfold stopLoop. neutral_auto. Qed.

Lemma neutral_stopLoopIfNoReaders : neutral stopLoopIfNoReaders.
Proof. unfold stopLoopIfNoReaders. neutral_auto. Qed.

#[local] Hint Resolve neutral_activateAndSchedule neutral_deactivate
  neutral_scheduleAfter neutral_reconnect neutral_stopLoop
  neutral_stopLoopIfNoReaders : neutral.

Lemma neutral_startLoop : neutral startLoop.
Proof. unfold startLoop. neutral_auto. Qed.

Lemma neutral_deactivateTask t wait stop_loop lock :
  neutral (deactivateTask t wait stop_loop lock).
Proof. unfold deactivateTask. neutral_auto. Qed.

Lemma neutral_connectionFunc attempt : neutral (connectionFunc attempt).
Proof. unfold connectionFunc. neutral_auto. Qed.

Lemma neutral_pushReadBuffer buffer : neutral (pushReadBuffer buffer).
Proof.
  assert (Hs : neutral semaphore_set).
  { intros s. unfold after, semaphore_set.
    destruct (Poco.set (semaphore s)); split; reflexivity. }
  unfold pushReadBuffer. neutral_auto.
Qed.

Lemma neutral_popReadBuffer timeout : neutral (popReadBuffer timeout).
Proof.
  assert (Hw : neutral semaphore_wait).
  { intros s. unfold after, semaphore_wait.
    destruct (Poco.take (semaphore s)); split; reflexivity. }
  assert (Ht : neutral (semaphore_tryWait timeout)).
  { intros s. unfold after, semaphore_tryWait.
    destruct (Poco.take (semaphore s)); split; reflexivity. }
  assert (Hb : neutral take_back).
  { intros s. unfold after, take_back.
    destruct (rev (buffers s)); split; reflexivity. }
  unfold popReadBuffer. neutral_auto.
Qed.

#[local] Hint Resolve neutral_startLoop neutral_deactivateTask
  neutral_connectionFunc neutral_pushReadBuffer neutral_popReadBuffer : neutral.

Lemma neutral_loop_leaves left : neutral (loop_leaves left).
Proof.
  intros s. unfold after, loop_leaves, modify. cbn [state_of].
  destruct (left && loopRunning (getHandler (connection s))
            && (getLoopState (getHandler (connection s)) =? Loop.STOP)%Z);
    split; reflexivity.
Qed.

#[local] Hint Resolve neutral_loop_leaves : neutral.

Lemma neutral_read q : neutral (read q).
Proof. unfold read, raise_if. neutral_auto. Qed.

Lemma neutral_startup_loop make : forall todo i, neutral (startup_loop make i todo).
Proof.
  induction todo as [|todo IH]; intros i; simpl; [apply neutral_ret|].
  unfold createReadBuffer. neutral_auto.
Qed.

Lemma neutral_startup make : neutral (startup make).
Proof.
  unfold startup. pose proof (neutral_startup_loop make) as Hloop.
  neutral_auto.
Qed.

Lemma neutral_unsubscribe_all bs : neutral (unsubscribe_all bs).
Proof.
  induction bs as [|b bs IH]; simpl; [apply neutral_ret|].
  unfold unsubscribe. neutral_auto.
Qed.

Lemma neutral_pop_all todo : neutral (pop_all todo).
Proof.
  induction todo as [|todo IH]; simpl; [apply neutral_ret|].
  unfold popReadBuffer_noarg. neutral_auto.
Qed.

Lemma neutral_shutdown lock1 lock2 lock3 : neutral (shutdown lock1 lock2 lock3).
Proof.
  pose proof neutral_unsubscribe_all. pose proof neutral_pop_all.
  unfold shutdown, shutdown_tasks, shutdown_release, disconnect. neutral_auto.
Qed.

(** *** The law *)

Lemma backoff_delay_0 : backoff_delay 0 = RESCHEDULE_MS.
Proof. reflexivity. Qed.

Lemma backoff_delay_step N :
  (if (backoff_delay N <? BACKOFF_TRESHOLD)%Z
   then uint64 (backoff_delay N * 2) else backoff_delay N)
  = backoff_delay (S N).
Proof.
  unfold backoff_delay, uint64, RESCHEDULE_MS, BACKOFF_TRESHOLD.
  rewrite Nat2Z.inj_succ, Z.pow_succ_r by lia.
  destruct (Nat.lt_ge_cases N 4) as [Hlt|Hge].
  - destruct N as [|[|[|[|N]]]]; try lia; reflexivity.
  - assert (H : (2 ^ 4 <= 2 ^ Z.of_nat N)%Z) by (apply Z.pow_le_mono_r; lia).
    change (2 ^ 4)%Z with 16%Z in H.
    rewrite !Z.min_r by lia. reflexivity.
Qed.

Lemma consecutive_backoffs_verdict tr tr' back_off :
  verdicts tr' = verdicts tr ++ [back_off] ->
  consecutive_backoffs tr' = if back_off then S (consecutive_backoffs tr) else 0.
Proof.
  intros H. unfold consecutive_backoffs. rewrite H, rev_unit.
  destruct back_off; reflexivity.
Qed.

Lemma delay_law_neutral s s' :
  milliseconds_to_wait s' = milliseconds_to_wait s ->
  verdicts (trace s') = verdicts (trace s) ->
  delay_law s -> delay_law s'.
Proof.
  unfold delay_law, consecutive_backoffs. intros -> ->. auto.
Qed.

Lemma neutral_keeps_law (A : Type) (m : M A) s :
  neutral m -> delay_law s -> delay_law (after m s).
Proof. intros H. destruct (H s). apply delay_law_neutral; assumption. Qed.

Lemma stopLoopIfNoReaders_returns s :
  exists s', stopLoopIfNoReaders s = Returns tt s'.
Proof.
  unfold stopLoopIfNoReaders. run.
  destruct (negb (readers_count s =? 0)%Z); eexists; reflexivity.
Qed.

Lemma stopLoopIfNoReaders_run s :
  exists s', stopLoopIfNoReaders s = Returns tt s'
    /\ verdicts (trace s') = verdicts (trace s)
    /\ milliseconds_to_wait s' = milliseconds_to_wait s
    /\ shutdown_called s' = shutdown_called s.
Proof.
  unfold stopLoopIfNoReaders. run.
  destruct (negb (readers_count s =? 0)%Z); eexists; (split; [reflexivity|]); simpl;
    rewrite ?verdicts_app, ?app_nil_r; auto.
Qed.

(** *** One run of the streaming task *)

Lemma check_dependencies_run p s :
  check_dependencies p s
  = match checkDependencies (catalog p) (stack_depth p) (table_id p) with
    | Some ready => Returns ready s
    | None => Undefined
    end.
Proof. reflexivity. Qed.

Lemma bind_undefined {A B : Type} {m : M A} (k : A -> M B) {s} :
  m s = Undefined -> bind m k s = Undefined.
Proof. intros H. unfold bind. rewrite H. reflexivity. Qed.

Lemma backoff_run s :
  exists s', backoff s = Returns tt s'
    /\ trace s' = trace s
    /\ milliseconds_to_wait s' = delay_after (milliseconds_to_wait s) [true]
    /\ shutdown_called s' = shutdown_called s.
Proof.
  unfold backoff. rewrite bind_gets. simpl.
  destruct (milliseconds_to_wait s <? BACKOFF_TRESHOLD)%Z;
    eexists; (split; [reflexivity|]); simpl; auto.
Qed.

Lemma delay_after_run d k last :
  delay_after d (run_verdicts k last)
  = match k, last with
    | O, false => d
    | O, true => if (d <? BACKOFF_TRESHOLD)%Z then uint64 (d * 2) else d
    | S _, false => RESCHEDULE_MS
    | S _, true => 1000%Z
    end.
Proof.
  revert d. induction k as [|k IH]; intros d.
  - destruct last; reflexivity.
  - unfold run_verdicts in *. simpl. rewrite IH. destruct k, last; reflexivity.
Qed.

(** The law goes through a run, whatever its passes return. *)
Lemma delay_after_law vs :
  forall d before,
    d = backoff_delay (leading_true (rev before)) ->
    delay_after d vs = backoff_delay (leading_true (rev (before ++ vs))).
Proof.
  induction vs as [|v vs IH]; intros d before Hd; simpl.
  - rewrite app_nil_r. exact Hd.
  - replace (before ++ v :: vs) with ((before ++ [v]) ++ vs)
      by (rewrite <- app_assoc; reflexivity).
    destruct v; apply IH; rewrite rev_unit; simpl.
    + rewrite Hd. apply backoff_delay_step.
    + reflexivity.
Qed.

(** One round of the [while] (lines 469-497). *)
Lemma streaming_round_run p budget_exceeded next s :
  (forall s1, next s1 = Undefined
              \/ exists s' k last, run_ends (next s1) s1 s' k last) ->
  streaming_round p budget_exceeded next s = Undefined
  \/ exists s' k last,
       run_ends (streaming_round p budget_exceeded next s) s s' k last.
Proof.
  intros Hnext.
  assert (Hnone : forall o, o = Returns tt s -> run_ends o s s 0 false).
  { intros o ->. unfold run_ends, run_verdicts. simpl. rewrite app_nil_r. auto. }
  unfold streaming_round. rewrite !bind_gets.
  destruct (shutdown_called s || (num_created_consumers s =? 0)%nat);
    [right; exists s, 0, false; apply Hnone; reflexivity|].
  pose proof (check_dependencies_run p s) as Hc.
  destruct (checkDependencies (catalog p) (stack_depth p) (table_id p)) as [[|]|].
  - rewrite (bind_returns _ Hc). cbn [negb].
    destruct (streamToViews_run (stream_pass p) s)
      as [(e & s1 & Hrun & Hv & Hms & Hfr)|(back_off & s1 & Hrun & Hv & Hms & Hfr)].
    + right. exists s1, 0, false. rewrite (bind_throws _ Hrun).
      unfold run_ends, run_verdicts. simpl. rewrite app_nil_r.
      split; [right; exists e; reflexivity|]. split; [exact Hv|].
      split; [exact Hms|apply Hfr].
    + rewrite (bind_returns _ Hrun). destruct back_off.
      * destruct (backoff_run s1) as (s2 & H2 & Htr2 & Hms2 & Hsd2).
        rewrite (bind_returns _ H2).
        destruct (stopLoopIfNoReaders_run s2) as (s3 & H3 & Hv3 & Hms3 & Hsd3).
        right. exists s3, 0, true. unfold run_ends, run_verdicts. simpl.
        split; [left; exact H3|].
        split; [rewrite Hv3, Htr2, Hv; reflexivity|].
        split; [rewrite Hms3, Hms2, Hms; reflexivity|].
        rewrite Hsd3, Hsd2. apply Hfr.
      * rewrite bind_modify.
        set (s2 := set_milliseconds_to_wait RESCHEDULE_MS s1).
        destruct budget_exceeded.
        -- destruct (stopLoopIfNoReaders_run s2) as (s3 & H3 & Hv3 & Hms3 & Hsd3).
           right. exists s3, 1, false. unfold run_ends, run_verdicts. simpl.
           split; [left; exact H3|].
           split; [rewrite Hv3; unfold s2; simpl; exact Hv|].
           split; [rewrite Hms3; reflexivity|].
           rewrite Hsd3. unfold s2. simpl. apply Hfr.
        -- destruct (Hnext s2) as [Hu|(s' & k & last & Hend & Hv' & Hms' & Hsd')];
             [left; exact Hu|].
           right. exists s', (S k), last. unfold run_ends.
           split; [exact Hend|].
           split; [rewrite Hv'; unfold s2, run_verdicts; simpl; rewrite Hv,
                     <- app_assoc; reflexivity|].
           split; [rewrite Hms'; reflexivity|].
           rewrite Hsd'. unfold s2. simpl. apply Hfr.
  - rewrite (bind_returns _ Hc). cbn [negb].
    right. exists s, 0, false. apply Hnone. reflexivity.
  - left. apply (bind_undefined _ Hc).
Qed.

Lemma streaming_loop_run ps :
  forall s,
    streaming_loop ps s = Undefined
    \/ exists s' k last, run_ends (streaming_loop ps s) s s' k last.
Proof.
  induction ps as [p|p rest IH]; intros s; simpl.
  - apply streaming_round_run. intros s1. right. exists s1, 0, false.
    unfold run_ends, run_verdicts, ret. simpl. rewrite app_nil_r. auto.
  - apply streaming_round_run. exact IH.
Qed.

(** The [while] is lost only with a check of the dependencies. *)
Lemma streaming_round_defined p budget_exceeded next s :
  dependencies_checked p ->
  (forall s1, next s1 <> Undefined) ->
  streaming_round p budget_exceeded next s <> Undefined.
Proof.
  intros Hp Hnext. unfold streaming_round. rewrite !bind_gets.
  destruct (shutdown_called s || (num_created_consumers s =? 0)%nat); [discriminate|].
  pose proof (check_dependencies_run p s) as Hc. unfold dependencies_checked in Hp.
  destruct (checkDependencies (catalog p) (stack_depth p) (table_id p)) as [[|]|];
    [| |contradiction]; rewrite (bind_returns _ Hc); cbn [negb]; [|discriminate].
  destruct (streamToViews_run (stream_pass p) s)
    as [(e & s1 & Hrun & _)|(back_off & s1 & Hrun & _)].
  - rewrite (bind_throws _ Hrun). discriminate.
  - rewrite (bind_returns _ Hrun). destruct back_off.
    + destruct (backoff_run s1) as (s2 & H2 & _). rewrite (bind_returns _ H2).
      destruct (stopLoopIfNoReaders_returns s2) as (s3 & H3). rewrite H3. discriminate.
    + rewrite bind_modify. destruct budget_exceeded; [|apply Hnext].
      destruct (stopLoopIfNoReaders_returns
                  (set_milliseconds_to_wait RESCHEDULE_MS s1)) as (s3 & H3).
      rewrite H3. discriminate.
Qed.

Lemma streaming_loop_defined ps :
  passes_return ps -> forall s, streaming_loop ps s <> Undefined.
Proof.
  induction ps as [p|p rest IH]; simpl.
  - intros Hp s. apply streaming_round_defined; [exact Hp|discriminate].
  - intros [Hp Hrest] s. apply streaming_round_defined; auto.
Qed.

(** A run of the streaming task: it is lost with a check of the
    dependencies, or it returns, and then the delay is what its passes made
    of it. *)
Lemma streamingToViewsFunc_run c s :
  (streamingToViewsFunc c s = Undefined /\ ~ passes_return (passes c))
  \/ exists s' k last,
       streamingToViewsFunc c s = Returns tt s'
       /\ verdicts (trace s') = verdicts (trace s) ++ run_verdicts k last
       /\ milliseconds_to_wait s'
          = delay_after (milliseconds_to_wait s) (run_verdicts k last).
Proof.
  unfold streamingToViewsFunc.
  (* the guarded part *)
  match goal with |- (bind ?m _ s = _ /\ _) \/ _ =>
    assert (Htry : (m s = Undefined /\ ~ passes_return (passes c))
                   \/ exists s1 k last,
                        m s = Returns tt s1
                        /\ verdicts (trace s1) = verdicts (trace s) ++ run_verdicts k last
                        /\ milliseconds_to_wait s1
                           = delay_after (milliseconds_to_wait s) (run_verdicts k last))
  end.
  { unfold try_catch. rewrite bind_gets.
    assert (Hconn : exists r s0,
      (if isConnected (connection s) then ret true
       else reconnect (cycle_reconnect_attempt c)) s = Returns r s0
      /\ verdicts (trace s0) = verdicts (trace s)
      /\ milliseconds_to_wait s0 = milliseconds_to_wait s).
    { destruct (isConnected (connection s)) eqn:Eup.
      - exists true, s. auto.
      - rewrite reconnect_run. unfold isConnected in Eup. rewrite Eup.
        eexists. eexists. split; [reflexivity|]. simpl.
        rewrite verdicts_app, app_nil_r. auto. }
    destruct Hconn as (r & s0 & Hc & Hv0 & Hms0). rewrite (bind_returns _ Hc).
    destruct ((0 <? dependencies_count c)%nat && r).
    - rewrite bind_modify.
      destruct (streaming_loop_run (passes c) (set_mv_attached true s0))
        as [Hu|(s1 & k & last & [Hend|(e & Hend)] & Hv1 & Hms1 & _)].
      + left. rewrite Hu. split; [reflexivity|].
        intros Hp. exact (streaming_loop_defined _ Hp _ Hu).
      + right. exists s1, k, last. rewrite Hend, Hv1, Hms1. simpl.
        rewrite Hv0, Hms0. auto.
      + right. exists s1, k, last. rewrite Hend, Hv1, Hms1. simpl.
        rewrite Hv0, Hms0. auto.
    - right. exists s0, 0, false. unfold run_verdicts, ret. simpl.
      rewrite app_nil_r. auto. }
  destruct Htry as [[Hu Hp]|(s1 & k & last & Htry & Hv1 & Hms1)].
  { left. split; [apply (bind_undefined _ Hu)|exact Hp]. }
  right. rewrite (bind_returns _ Htry), bind_modify, bind_gets.
  set (s2 := set_mv_attached false s1).
  assert (Hstop : exists s3,
    (when (loopRunning (getHandler (connection s2))) then stopLoopIfNoReaders) s2
    = Returns tt s3
    /\ verdicts (trace s3) = verdicts (trace s1)
    /\ milliseconds_to_wait s3 = milliseconds_to_wait s1).
  { destruct (loopRunning (getHandler (connection s2))).
    - destruct (stopLoopIfNoReaders_run s2) as (s3 & E & Hv & Hms & _).
      exists s3. auto.
    - exists s2. auto. }
  destruct Hstop as (s3 & Hstop & Hv3 & Hms3).
  rewrite (bind_returns _ Hstop), bind_gets.
  destruct (negb (shutdown_called s3)).
  - rewrite bind_gets. unfold scheduleAfter, emit, modify.
    eexists. exists k, last. split; [reflexivity|]. simpl.
    rewrite verdicts_app, app_nil_r, Hv3, Hms3. auto.
  - exists s3, k, last. unfold ret. rewrite Hv3, Hms3. auto.
Qed.

Lemma run_keeps_law s s' k last :
  delay_law s ->
  verdicts (trace s') = verdicts (trace s) ++ run_verdicts k last ->
  milliseconds_to_wait s' = delay_after (milliseconds_to_wait s) (run_verdicts k last) ->
  delay_law s'.
Proof.
  unfold delay_law, consecutive_backoffs. intros J Hv Hms.
  rewrite Hms, Hv. apply delay_after_law. exact J.
Qed.

Lemma ctor_delay_law g st att s :
  StorageNATS_ctor g st att = inr s -> delay_law s.
Proof.
  unfold StorageNATS_ctor.
  destruct (to_int (value (nats_num_consumers st)) <=? 0)%Z; [discriminate|].
  destruct (connect g) as [e|[|]]; simpl;
    try (destruct att; simpl; [|discriminate]);
    intros H; injection H as <-; reflexivity.
Qed.

Lemma reachable_delay_law s : reachable s -> delay_law s.
Proof.
  induction 1 as [g st att s Hctor|make s _ IH|q s _ IH|attempt s _ IH|c s _ IH
                  |timeout s _ IH|buffer s _ IH|s _ IH|s _ IH|s _ IH|s _ IH|s _ IH
                  |lock1 lock2 lock3 s _ IH].
  - exact (ctor_delay_law _ _ _ _ Hctor).
  - apply neutral_keeps_law; [apply neutral_startup|exact IH].
  - apply neutral_keeps_law; [apply neutral_read|exact IH].
  - apply neutral_keeps_law; [apply neutral_connectionFunc|exact IH].
  - unfold after.
    destruct (streamingToViewsFunc_run c s) as [[Hu _]|(s' & k & last & Hrun & Hv & Hms)];
      rewrite ?Hu, ?Hrun; simpl; [exact IH|].
    exact (run_keeps_law _ _ _ _ IH Hv Hms).
  - apply neutral_keeps_law; [apply neutral_popReadBuffer|exact IH].
  - apply neutral_keeps_law; [apply neutral_pushReadBuffer|exact IH].
  - exact IH.
  - exact IH.
  - apply neutral_keeps_law; [apply neutral_startLoop|exact IH].
  - apply neutral_keeps_law; [apply neutral_stopLoop|exact IH].
  - apply neutral_keeps_law; [apply neutral_stopLoopIfNoReaders|exact IH].
  - apply neutral_keeps_law; [apply neutral_shutdown|exact IH].
Qed.

(** Doubling up to the ceiling, on a delay that obeys the law. *)
Lemma doubled_delay N :
  delay_after (backoff_delay N) [true] = Z.min (2 * backoff_delay N) 8000.
Proof.
  cbn [delay_after]. rewrite backoff_delay_step.
  unfold backoff_delay, RESCHEDULE_MS, BACKOFF_TRESHOLD.
  rewrite Nat2Z.inj_succ, Z.pow_succ_r by lia.
  assert (H : (0 < 2 ^ Z.of_nat N)%Z) by (apply Z.pow_pos_nonneg; lia).
  lia.
Qed.

(** A run that makes a pass: the table is not shut down, has a consumer
    and a connection, a view is attached, and the dependencies are ready. *)
Lemma run_with_first_pass c s :
  shutdown_called s = false ->
  num_created_consumers s <> 0 ->
  dependencies_count c <> 0 ->
  isConnected (connection s) = true ->
  checkDependencies (catalog (first_pass (passes c)))
                    (stack_depth (first_pass (passes c)))
                    (table_id (first_pass (passes c))) = Some true ->
  forall back_off s1,
    streamToViews (stream_pass (first_pass (passes c))) (set_mv_attached true s)
    = Returns back_off s1 ->
    (back_off = true \/ exists p, passes c = BudgetExceeded p) ->
    exists s',
      streamingToViewsFunc c s = Returns tt s'
      /\ verdicts (trace s') = verdicts (trace s) ++ [back_off]
      /\ milliseconds_to_wait s' = delay_after (milliseconds_to_wait s) [back_off].
Proof.
  intros Hsd Hcr Hdep Hup Hready back_off s1 Hpass Hone.
  destruct (streamToViews_run (stream_pass (first_pass (passes c)))
              (set_mv_attached true s))
    as [(e & s1' & Hrun & _)|(b & s1' & Hrun & Hv & Hms & Hfr)];
    rewrite Hrun in Hpass; [discriminate|].
  injection Hpass as -> ->. cbn [trace milliseconds_to_wait set_mv_attached] in Hv, Hms.
  assert (Hloop : exists s2,
    streaming_loop (passes c) (set_mv_attached true s) = Returns tt s2
    /\ verdicts (trace s2) = verdicts (trace s) ++ [back_off]
    /\ milliseconds_to_wait s2 = delay_after (milliseconds_to_wait s) [back_off]).
  { assert (Hround : forall budget_exceeded next,
      (back_off = true \/ budget_exceeded = true) ->
      exists s2,
        streaming_round (first_pass (passes c)) budget_exceeded next
          (set_mv_attached true s) = Returns tt s2
        /\ verdicts (trace s2) = verdicts (trace s) ++ [back_off]
        /\ milliseconds_to_wait s2 = delay_after (milliseconds_to_wait s) [back_off]).
    { intros budget_exceeded next Hb. unfold streaming_round.
      rewrite !bind_gets.
      cbn [shutdown_called num_created_consumers set_mv_attached].
      rewrite Hsd. destruct (num_created_consumers s) as [|created]; [contradiction|].
      cbn [orb Nat.eqb].
      rewrite (bind_returns _ (eq_trans (check_dependencies_run _ _)
                                 (f_equal (fun o => match o with
                                                    | Some ready => Returns ready _
                                                    | None => Undefined
                                                    end) Hready))).
      cbn [negb]. rewrite (bind_returns _ Hrun).
      destruct back_off.
      - destruct (backoff_run s1) as (s2 & H2 & Htr2 & Hms2 & _).
        rewrite (bind_returns _ H2).
        destruct (stopLoopIfNoReaders_run s2) as (s3 & H3 & Hv3 & Hms3 & _).
        exists s3. split; [exact H3|].
        rewrite Hv3, Htr2, Hv, Hms3, Hms2, Hms. auto.
      - destruct Hb as [Hb|Hb]; [discriminate|subst budget_exceeded].
        rewrite bind_modify.
        destruct (stopLoopIfNoReaders_run (set_milliseconds_to_wait RESCHEDULE_MS s1))
          as (s3 & H3 & Hv3 & Hms3 & _).
        exists s3. split; [exact H3|]. rewrite Hv3, Hms3. simpl. rewrite Hv. auto. }
    destruct (passes c) as [p|p rest] eqn:Eps; simpl in *.
    - apply Hround. right. reflexivity.
    - apply Hround. destruct Hone as [Hone|(q & Hq)]; [left; exact Hone|discriminate]. }
  destruct Hloop as (s2 & Hloop & Hv2 & Hms2).
  unfold streamingToViewsFunc.
  match goal with |- exists _, bind ?m _ s = _ /\ _ =>
    assert (Htry : m s = Returns tt s2)
  end.
  { unfold try_catch. rewrite bind_gets, Hup, bind_ret.
    destruct (dependencies_count c) as [|n]; [contradiction|].
    cbn [Nat.ltb Nat.leb andb]. rewrite bind_modify, Hloop. reflexivity. }
  rewrite (bind_returns _ Htry), bind_modify, bind_gets.
  set (s3 := set_mv_attached false s2).
  assert (Hstop : exists s4,
    (when (loopRunning (getHandler (connection s3))) then stopLoopIfNoReaders) s3
    = Returns tt s4
    /\ verdicts (trace s4) = verdicts (trace s2)
    /\ milliseconds_to_wait s4 = milliseconds_to_wait s2).
  { destruct (loopRunning (getHandler (connection s3))).
    - destruct (stopLoopIfNoReaders_run s3) as (s4 & E & Hv4 & Hms4 & _).
      exists s4. auto.
    - exists s3. auto. }
  destruct Hstop as (s4 & Hstop & Hv4 & Hms4).
  rewrite (bind_returns _ Hstop), bind_gets.
  destruct (negb (shutdown_called s4)).
  - rewrite bind_gets. unfold scheduleAfter, emit, modify.
    eexists. split; [reflexivity|]. simpl.
    rewrite verdicts_app, app_nil_r, Hv4, Hms4. auto.
  - exists s4. unfold ret. rewrite Hv4, Hms4. auto.
Qed.

(** C2 (as stated, refuted): three runs over an empty broker take the delay
    to 4000 ms.  In the fourth run streamToViews first finds a message and
    returns false, then finds none and returns true.  That makes four
    consecutive runs in which streamToViews reported "back off", and a run
    in which it returned false; the delay is then neither
    min(500 * 2^4, 8000) nor 500, it is 1000 ms. *)
Lemma backoff_counts_passes_not_cycles :
  let s3 := fold_right (fun c s => after (streamingToViewsFunc c) s) started_table
                       (repeat quiet_cycle 3) in
  let s4 := after (streamingToViewsFunc busy_cycle) s3 in
  verdicts (trace s3) = [true; true; true]
  /\ milliseconds_to_wait s3 = 4000%Z
  /\ verdicts (trace s4) = [true; true; true; false; true]
  /\ milliseconds_to_wait s4 = 1000%Z
  /\ milliseconds_to_wait s4 <> Z.min (500 * 2 ^ 4) 8000
  /\ milliseconds_to_wait s4 <> 500%Z.
Proof.
  assert (H : milliseconds_to_wait
                (after (streamingToViewsFunc busy_cycle)
                   (fold_right (fun c s => after (streamingToViewsFunc c) s)
                      started_table (repeat quiet_cycle 3))) = 1000%Z)
    by (vm_compute; reflexivity).
  cbv zeta. rewrite H.
  split; [vm_compute; reflexivity|]. split; [vm_compute; reflexivity|].
  split; [vm_compute; reflexivity|]. split; [reflexivity|].
  split; vm_compute; discriminate.
Qed.

(** C2 (amended): in every state the table reaches, milliseconds_to_wait
    equals min(500 * 2^N, 8000), N being the number of times streamToViews
    has returned true in a row, counted over its calls and not over the runs
    of the streaming task: a call that returns true adds one to N, a call
    that returns false sets N to 0, a call that throws leaves N as it is.
    A run of the task makes several passes or none.  When the checks of the
    dependencies come back it returns, having made k passes that returned
    false and then at most one that returned true, and leaves the delay
    unchanged (no pass), doubled up to 8000 (one pass, true), at 500 (false
    only) or at 1000 (false, then true).  A run that gets to its first pass
    does make it: when that pass returns true the delay is doubled up to
    8000 and N is one more; when it returns false and the time budget is
    used up the delay is 500 and N is 0. *)
Theorem backoff_law :
  forall s, reachable s ->
    milliseconds_to_wait s
    = Z.min (500 * 2 ^ Z.of_nat (consecutive_backoffs (trace s))) 8000
    /\ (forall p back_off s1, streamToViews p s = Returns back_off s1 ->
          verdicts (trace s1) = verdicts (trace s) ++ [back_off]
          /\ consecutive_backoffs (trace s1)
             = if back_off then S (consecutive_backoffs (trace s)) else 0)
    /\ (forall p e s1, streamToViews p s = Throws e s1 ->
          verdicts (trace s1) = verdicts (trace s))
    /\ (forall c, passes_return (passes c) ->
          exists s' k last,
            streamingToViewsFunc c s = Returns tt s'
            /\ reachable s'
            /\ verdicts (trace s') = verdicts (trace s) ++ run_verdicts k last
            /\ milliseconds_to_wait s'
               = match k, last with
                 | O, false => milliseconds_to_wait s
                 | O, true => Z.min (2 * milliseconds_to_wait s) 8000
                 | S _, false => 500
                 | S _, true => 1000
                 end%Z)
    /\ (forall c,
          shutdown_called s = false ->
          num_created_consumers s <> 0 ->
          dependencies_count c <> 0 ->
          isConnected (connection s) = true ->
          checkDependencies (catalog (first_pass (passes c)))
                            (stack_depth (first_pass (passes c)))
                            (table_id (first_pass (passes c))) = Some true ->
          forall back_off s1,
            streamToViews (stream_pass (first_pass (passes c)))
                          (set_mv_attached true s) = Returns back_off s1 ->
            (back_off = true \/ exists p, passes c = BudgetExceeded p) ->
            exists s',
              streamingToViewsFunc c s = Returns tt s'
              /\ consecutive_backoffs (trace s')
                 = (if back_off then S (consecutive_backoffs (trace s)) else 0)
              /\ milliseconds_to_wait s'
                 = if back_off then Z.min (2 * milliseconds_to_wait s) 8000
                   else 500%Z).
Proof.
  intros s Hreach.
  pose proof (reachable_delay_law s Hreach) as J.
  split; [exact J|].
  split.
  { intros p back_off s1 Hrun.
    destruct (streamToViews_run p s)
      as [(e & s2 & H2 & _)|(r & s2 & H2 & Hv & _)]; rewrite H2 in Hrun.
    - discriminate.
    - injection Hrun as <- <-. split; [exact Hv|].
      apply consecutive_backoffs_verdict. exact Hv. }
  split.
  { intros p e s1 Hrun.
    destruct (streamToViews_run p s)
      as [(e2 & s2 & H2 & Hv & _)|(r & s2 & H2 & _)]; rewrite H2 in Hrun.
    - injection Hrun as _ <-. exact Hv.
    - discriminate. }
  split.
  { intros c Hp.
    destruct (streamingToViewsFunc_run c s)
      as [[_ Hn]|(s' & k & last & Hrun & Hv & Hms)]; [contradiction|].
    exists s', k, last. split; [exact Hrun|]. split.
    - replace s' with (after (streamingToViewsFunc c) s)
        by (unfold after; rewrite Hrun; reflexivity).
      apply reach_streamingToViewsFunc. exact Hreach.
    - split; [exact Hv|]. rewrite Hms, delay_after_run.
      destruct k, last; try reflexivity.
      unfold delay_law in J. rewrite J. apply doubled_delay. }
  intros c Hsd Hcr Hdep Hup Hready back_off s1 Hpass Hone.
  destruct (run_with_first_pass c s Hsd Hcr Hdep Hup Hready back_off s1 Hpass Hone)
    as (s' & Hrun & Hv & Hms).
  exists s'. split; [exact Hrun|].
  split; [exact (consecutive_backoffs_verdict _ _ _ Hv)|].
  rewrite Hms. destruct back_off; [|reflexivity].
  unfold delay_law in J. rewrite J. apply doubled_delay.
Qed.

Lemma started_table_reachable : reachable started_table.
Proof.
  apply (@reach_startup (fun i => inr (10 + i)) example_table).
  apply (@reach_ctor example_globals example_settings false). reflexivity.
Qed.

Lemma backoff_law_witness :
  reachable started_table
  /\ exists s',
       streamingToViewsFunc quiet_cycle started_table = Returns tt s'
       /\ consecutive_backoffs (trace s') = 1
       /\ milliseconds_to_wait s' = 1000%Z.
Proof.
  split; [exact started_table_reachable|].
  destruct (proj2 (proj2 (proj2 (proj2 (backoff_law _ started_table_reachable))))
              quiet_cycle) with (back_off := true)
      (s1 := after (streamToViews quiet_pass) (set_mv_attached true started_table))
    as (s' & Hrun & Hn & Hms).
  - reflexivity.
  - discriminate.
  - discriminate.
  - reflexivity.
  - vm_compute. reflexivity.
  - vm_compute. reflexivity.
  - left. reflexivity.
  - exists s'. split; [exact Hrun|]. split; [exact Hn|exact Hms].
Defined.

(** ** parseList *)

Example parseList_example :
  parseList (list_ascii_of_string "orders, payments ,audit")
  = map list_ascii_of_string ["orders"; "payments"; "audit"]%string.
Proof. reflexivity. Qed.

Example parseList_keeps_empty_components :
  parseList (list_ascii_of_string " a ,, b,")
  = map list_ascii_of_string ["a"; ""; "b"; ""]%string.
Proof. reflexivity. Qed.

Lemma split_not_nil pred s : boost.split pred s <> [].
Proof.
  destruct s as [|c s]; simpl; [discriminate|].
  destruct (pred c); [discriminate|].
  destruct (boost.split pred s); discriminate.
Qed.

Lemma is_comma_true c : is_comma c = true <-> c = ","%char.
Proof. unfold is_comma. apply Ascii.eqb_eq. Qed.

Lemma split_join s : join_comma (boost.split is_comma s) = s.
Proof.
  induction s as [|c s IH]; [reflexivity|].
  simpl. pose proof (split_not_nil is_comma s) as Hne.
  destruct (is_comma c) eqn:Ec.
  - apply is_comma_true in Ec. subst c.
    destruct (boost.split is_comma s) as [|t ts]; [contradiction|].
    change (join_comma ([] :: t :: ts)) with ([] ++ ","%char :: join_comma (t :: ts)).
    rewrite IH. reflexivity.
  - destruct (boost.split is_comma s) as [|t ts]; [contradiction|].
    rewrite <- IH. destruct ts; reflexivity.
Qed.

Lemma split_no_comma s :
  Forall (fun c => ~ In ","%char c) (boost.split is_comma s).
Proof.
  induction s as [|c s IH]; simpl.
  - constructor; [intros []|constructor].
  - destruct (is_comma c) eqn:Ec.
    + constructor; [intros []|exact IH].
    + destruct (boost.split is_comma s) as [|t ts]; [constructor; [|constructor]|].
      * intros [H|[]]. subst c. discriminate Ec.
      * inversion IH as [|? ? Ht Hts]; subst. constructor; [|exact Hts].
        intros [H|H]; [subst c; discriminate Ec|exact (Ht H)].
Qed.

Lemma trim_left_spec s :
  exists l, s = l ++ boost.trim_left s
            /\ forallb boost.is_space l = true
            /\ starts_with_space (boost.trim_left s) = false.
Proof.
  induction s as [|c s (l & Hs & Hl & Hst)]; simpl.
  - exists []. auto.
  - destruct (boost.is_space c) eqn:Ec.
    + exists (c :: l). simpl. rewrite Ec, Hl, <- Hs. auto.
    + exists []. simpl. auto.
Qed.

Lemma forallb_rev (A : Type) (f : A -> bool) l :
  forallb f (rev l) = forallb f l.
Proof.
  destruct (forallb f l) eqn:E.
  - rewrite forallb_forall in *. intros x Hx. apply E. apply in_rev. exact Hx.
  - destruct (forallb f (rev l)) eqn:E'; [|reflexivity].
    rewrite forallb_forall in E'.
    assert (forallb f l = true) as H; [|congruence].
    apply forallb_forall. intros x Hx. apply E'. apply in_rev.
    rewrite rev_involutive. exact Hx.
Qed.

Lemma trim_right_spec s :
  exists r, s = boost.trim_right s ++ r
            /\ forallb boost.is_space r = true
            /\ starts_with_space (rev (boost.trim_right s)) = false.
Proof.
  unfold boost.trim_right.
  destruct (trim_left_spec (rev s)) as (l & Hs & Hl & Hst).
  exists (rev l). rewrite rev_involutive, forallb_rev.
  split; [|auto].
  rewrite <- rev_app_distr, <- Hs, rev_involutive. reflexivity.
Qed.

Lemma trim_spec c : trimmed_of c (boost.trim c).
Proof.
  unfold trimmed_of, boost.trim.
  destruct (trim_right_spec c) as (r & Hc & Hr & Hend).
  destruct (trim_left_spec (boost.trim_right c)) as (l & Hm & Hl & Hst).
  exists l, r. split; [|split; [exact Hl|split; [exact Hr|split; [exact Hst|]]]].
  - rewrite app_assoc, <- Hm. exact Hc.
  - rewrite Hm, rev_app_distr in Hend.
    destruct (rev (boost.trim_left (boost.trim_right c))); [reflexivity|exact Hend].
Qed.

Lemma parseList_components s :
  s <> [] ->
  exists components,
    comma_components s components /\ Forall2 trimmed_of components (parseList s).
Proof.
  intros Hs. exists (boost.split is_comma s).
  split.
  - split; [apply split_not_nil|]. split; [apply split_join|apply split_no_comma].
  - destruct s as [|c s]; [contradiction|]. unfold parseList.
    induction (boost.split is_comma (c :: s)) as [|t ts IH]; simpl; constructor.
    + apply trim_spec.
    + exact IH.
Qed.



(** The two relations of the specification pin the result down. *)

Lemma app_comma_inj (c1 c2 r1 r2 : list ascii) :
  ~ In ","%char c1 -> ~ In ","%char c2 ->
  c1 ++ ","%char :: r1 = c2 ++ ","%char :: r2 ->
  c1 = c2 /\ r1 = r2.
Proof.
  revert c2. induction c1 as [|a c1 IH]; intros [|b c2] H1 H2 H; simpl in *.
  - injection H as <-. auto.
  - injection H as <- _. destruct H2. left. reflexivity.
  - injection H as -> _. destruct H1. left. reflexivity.
  - injection H as <- H.
    destruct (IH c2) as [-> ->]; auto.
Qed.

Lemma join_comma_cons c t ts :
  join_comma (c :: t :: ts) = c ++ ","%char :: join_comma (t :: ts).
Proof. reflexivity. Qed.

Lemma comma_components_unique s cs1 cs2 :
  comma_components s cs1 -> comma_components s cs2 -> cs1 = cs2.
Proof.
  intros (Hn1 & Hj1 & Hc1) (Hn2 & Hj2 & Hc2). subst s.
  revert cs2 Hn2 Hj2 Hc2.
  induction cs1 as [|a [|t1 ts1] IH]; intros [|b [|t2 ts2]] Hn2 Hj Hc2;
    try contradiction.
  - simpl in Hj. subst. reflexivity.
  - exfalso. rewrite join_comma_cons in Hj. simpl in Hj.
    inversion Hc1 as [|? ? Ha _]; subst. apply Ha. apply in_elt.
  - exfalso. rewrite join_comma_cons in Hj.
    change (join_comma [b]) with b in Hj.
    inversion Hc2 as [|? ? Hb _]; subst. apply Hb. apply in_elt.
  - rewrite !join_comma_cons in Hj.
    inversion Hc1 as [|? ? Ha Hr1]; subst.
    inversion Hc2 as [|? ? Hb Hr2]; subst.
    destruct (app_comma_inj _ _ _ _ Hb Ha Hj) as (-> & Hrest).
    f_equal. apply IH; auto; discriminate.
Qed.

Lemma trim_left_spaces l x :
  forallb boost.is_space l = true -> starts_with_space x = false ->
  boost.trim_left (l ++ x) = x.
Proof.
  intros Hl Hx. induction l as [|c l IH]; simpl in *.
  - destruct x as [|c x]; [reflexivity|]. simpl in *. rewrite Hx. reflexivity.
  - apply andb_true_iff in Hl as [Hc Hl]. rewrite Hc. auto.
Qed.

Lemma trim_right_spaces t r :
  forallb boost.is_space r = true -> starts_with_space (rev t) = false ->
  boost.trim_right (t ++ r) = t.
Proof.
  intros Hr Ht. unfold boost.trim_right.
  rewrite rev_app_distr, trim_left_spaces, rev_involutive; auto.
  rewrite forallb_rev. exact Hr.
Qed.

Lemma trimmed_of_trim c t : trimmed_of c t -> boost.trim c = t.
Proof.
  intros (l & r & -> & Hl & Hr & Hst & Hend). unfold boost.trim.
  destruct t as [|a t].
  - (* nothing but whitespace *)
    simpl. replace (l ++ r) with ([] ++ (l ++ r)) by reflexivity.
    rewrite trim_right_spaces; [reflexivity| |reflexivity].
    rewrite forallb_app, Hl, Hr. reflexivity.
  - rewrite app_assoc, trim_right_spaces; [apply trim_left_spaces; assumption|exact Hr|].
    rewrite rev_app_distr.
    destruct (rev (a :: t)) as [|b u] eqn:E; [|exact Hend].
    apply (f_equal (@length _)) in E. rewrite length_rev in E. discriminate E.
Qed.

Lemma parseList_unique s components ts :
  s <> [] -> comma_components s components -> Forall2 trimmed_of components ts ->
  ts = parseList s.
Proof.
  intros Hs Hc Ht.
  assert (Hsplit : comma_components s (boost.split is_comma s)).
  { split; [apply split_not_nil|]. split; [apply split_join|apply split_no_comma]. }
  rewrite (comma_components_unique _ _ _ Hc Hsplit) in Ht.
  destruct s as [|c s]; [contradiction|]. unfold parseList.
  clear Hc Hsplit.
  induction Ht as [|x y xs ys Hxy _ IH]; simpl; [reflexivity|].
  rewrite (trimmed_of_trim _ _ Hxy), IH. reflexivity.
Qed.




(** * More of the storage *)

(** ** checkDependencies *)

Example checkDependencies_example :
  checkDependencies example_catalog 3 (table_in_default "queue") = Some true
  /\ checkDependencies example_catalog 2 (table_in_default "queue") = None
  /\ checkDependencies broken_catalog 3 (table_in_default "queue") = Some false
  /\ checkDependencies cyclic_catalog 50 (table_in_default "view_a") = None.
Proof. repeat split; vm_compute; reflexivity. Qed.

Lemma check_each_true catalog check deps :
  check_each catalog check deps = Some true ->
  forall u, In u deps -> ready catalog u = true /\ check u = Some true.
Proof.
  induction deps as [|d deps IH]; simpl; [intros _ u []|].
  unfold ready. intros H u [<-|Hin].
  - destruct (tryGetTable catalog d) as [[[|]|]|]; try discriminate;
      destruct (check d) as [[|]|]; try discriminate; auto.
  - destruct (tryGetTable catalog d) as [[[|]|]|]; try discriminate;
      destruct (check d) as [[|]|]; try discriminate; apply IH; auto.
Qed.

Lemma check_each_false catalog check deps :
  check_each catalog check deps = Some false ->
  exists u, In u deps /\ (ready catalog u = false \/ check u = Some false).
Proof.
  induction deps as [|d deps IH]; simpl; [discriminate|].
  unfold ready. intros H.
  destruct (tryGetTable catalog d) as [[[|]|]|] eqn:Et;
    try (exists d; split; [left; reflexivity|left; rewrite Et; reflexivity]);
    (destruct (check d) as [[|]|] eqn:Ec; try discriminate;
     [destruct (IH H) as (u & Hin & Hu); exists u; split; [right; exact Hin|];
      unfold ready in Hu; exact Hu
     |exists d; split; [left; reflexivity|right; exact Ec]]).
Qed.

Lemma checkDependencies_step catalog depth t :
  checkDependencies catalog (S depth) t
  = check_each catalog (checkDependencies catalog depth) (getDependencies catalog t).
Proof. simpl. destruct (getDependencies catalog t); reflexivity. Qed.

Lemma checkDependencies_true_reaches catalog :
  forall depth t, checkDependencies catalog depth t = Some true ->
  forall u, reaches catalog t u -> ready catalog u = true.
Proof.
  induction depth as [|depth IH]; intros t H u Hr; [discriminate|].
  rewrite checkDependencies_step in H.
  pose proof (check_each_true _ _ _ H) as Hall.
  destruct Hr as [t u Hin|t v u Hin Hr].
  - apply (Hall u Hin).
  - destruct (Hall v Hin) as [_ Hv]. exact (IH v Hv u Hr).
Qed.

Lemma checkDependencies_false_reaches catalog :
  forall depth t, checkDependencies catalog depth t = Some false ->
  exists u, reaches catalog t u /\ ready catalog u = false.
Proof.
  induction depth as [|depth IH]; intros t H; [discriminate|].
  rewrite checkDependencies_step in H.
  destruct (check_each_false _ _ _ H) as (u & Hin & [Hu|Hu]).
  - exists u. split; [apply reaches_step; exact Hin|exact Hu].
  - destruct (IH u Hu) as (w & Hr & Hw).
    exists w. split; [eapply reaches_more; eassumption|exact Hw].
Qed.

(** X1: when checkDependencies returns true, every table that depends on
    the given one, directly or through other views, is attached, and is a
    materialized view only with its target table. *)
Theorem checkDependencies_true_sound :
  forall catalog depth t,
    checkDependencies catalog depth t = Some true ->
    forall u, reaches catalog t u -> ready catalog u = true.
Proof. exact checkDependencies_true_reaches. Qed.

Lemma example_reaches_view_c :
  reaches example_catalog (table_in_default "queue") (table_in_default "view_c").
Proof.
  apply (@reaches_more example_catalog _ (table_in_default "view_b")).
  - vm_compute. right. left. reflexivity.
  - apply reaches_step. vm_compute. left. reflexivity.
Qed.

Lemma checkDependencies_true_sound_witness :
  checkDependencies example_catalog 3 (table_in_default "queue") = Some true
  /\ ready example_catalog (table_in_default "view_c") = true.
Proof.
  split; [vm_compute; reflexivity|].
  apply (checkDependencies_true_sound example_catalog 3 (table_in_default "queue")).
  - vm_compute. reflexivity.
  - exact example_reaches_view_c.
Defined.

(** X2: when checkDependencies returns false, some table that depends on
    the given one, directly or through other views, is not attached or is a
    materialized view without its target table. *)
Theorem checkDependencies_false_sound :
  forall catalog depth t,
    checkDependencies catalog depth t = Some false ->
    exists u, reaches catalog t u /\ ready catalog u = false.
Proof. exact checkDependencies_false_reaches. Qed.

Lemma checkDependencies_false_sound_witness :
  checkDependencies broken_catalog 3 (table_in_default "queue") = Some false
  /\ exists u, reaches broken_catalog (table_in_default "queue") u
               /\ ready broken_catalog u = false.
Proof.
  split; [vm_compute; reflexivity|].
  apply (checkDependencies_false_sound broken_catalog 3 (table_in_default "queue")).
  vm_compute. reflexivity.
Defined.

Lemma check_each_some catalog check deps :
  (forall u, In u deps -> exists b, check u = Some b) ->
  exists b, check_each catalog check deps = Some b.
Proof.
  induction deps as [|d deps IH]; simpl; intros H; [eexists; reflexivity|].
  destruct (tryGetTable catalog d) as [[[|]|]|]; try (eexists; reflexivity);
    (destruct (H d (or_introl eq_refl)) as ([|] & ->);
     [apply IH; intros u Hu; apply H; right; exact Hu|eexists; reflexivity]).
Qed.

Lemma check_each_more catalog (check check' : StorageID -> option bool) deps b :
  (forall u c, check u = Some c -> check' u = Some c) ->
  check_each catalog check deps = Some b ->
  check_each catalog check' deps = Some b.
Proof.
  intros Hmore. induction deps as [|d deps IH]; simpl; [auto|].
  destruct (tryGetTable catalog d) as [[[|]|]|]; auto;
    (destruct (check d) as [[|]|] eqn:Ec; try discriminate;
     rewrite (Hmore _ _ Ec); auto).
Qed.

Lemma checkDependencies_deeper catalog :
  forall depth depth' t b,
    checkDependencies catalog depth t = Some b -> depth <= depth' ->
    checkDependencies catalog depth' t = Some b.
Proof.
  induction depth as [|depth IH]; intros depth' t b H Hle; [discriminate|].
  destruct depth' as [|depth']; [lia|].
  rewrite checkDependencies_step in *.
  apply (check_each_more catalog (checkDependencies catalog depth)); [|exact H].
  intros u c Hu. apply (IH depth' u c Hu). lia.
Qed.

Lemma checkDependencies_returns catalog :
  forall n t, chains_within catalog n t ->
  exists b, checkDependencies catalog (S n) t = Some b.
Proof.
  induction n as [|n IH]; intros t H.
  - simpl in *. rewrite H. eexists. reflexivity.
  - rewrite checkDependencies_step. apply check_each_some.
    intros u Hu. apply IH. simpl in H. rewrite Forall_forall in H. exact (H u Hu).
Qed.

(** X3: when no chain of dependencies from the table is longer than n,
    checkDependencies comes back within n+1 nested calls, and returns true
    exactly when every table that depends on it, directly or through other
    views, is attached and has its target; deeper recursion changes
    nothing. *)
Theorem checkDependencies_decides :
  forall catalog n t,
    chains_within catalog n t ->
    (exists b, checkDependencies catalog (S n) t = Some b)
    /\ (checkDependencies catalog (S n) t = Some true
        <-> forall u, reaches catalog t u -> ready catalog u = true)
    /\ (forall depth, S n <= depth ->
          checkDependencies catalog depth t = checkDependencies catalog (S n) t).
Proof.
  intros catalog n t Hn.
  destruct (checkDependencies_returns catalog n t Hn) as (b & Hb).
  split; [exists b; exact Hb|]. split.
  - split.
    + apply checkDependencies_true_reaches.
    + intros Hall. destruct b; [exact Hb|].
      destruct (checkDependencies_false_reaches _ _ _ Hb) as (u & Hr & Hu).
      rewrite (Hall u Hr) in Hu. discriminate.
  - intros depth Hle. rewrite Hb.
    apply (checkDependencies_deeper catalog (S n)); assumption.
Qed.

Lemma example_chains_within :
  chains_within example_catalog 2 (table_in_default "queue").
Proof.
  simpl. repeat constructor.
Qed.

Lemma checkDependencies_decides_witness :
  chains_within example_catalog 2 (table_in_default "queue")
  /\ exists b, checkDependencies example_catalog 3 (table_in_default "queue") = Some b.
Proof.
  split; [exact example_chains_within|].
  exact (proj1 (checkDependencies_decides example_catalog 2 (table_in_default "queue")
                  example_chains_within)).
Defined.

Lemma checkDependencies_true_descends catalog :
  forall t u, reaches catalog t u ->
  forall depth, checkDependencies catalog depth t = Some true ->
  exists depth', depth' < depth /\ checkDependencies catalog depth' u = Some true.
Proof.
  induction 1 as [t u Hin|t v u Hin Hr IH]; intros depth H;
    (destruct depth as [|depth]; [discriminate|]);
    rewrite checkDependencies_step in H;
    destruct (check_each_true _ _ _ H _ Hin) as [_ Hv].
  - exists depth. split; [lia|exact Hv].
  - destruct (IH depth Hv) as (d' & Hlt & Hd'). exists d'. split; [lia|exact Hd'].
Qed.

Lemma checkDependencies_cycle_not_true catalog t :
  reaches catalog t t ->
  forall depth, checkDependencies catalog depth t <> Some true.
Proof.
  intros Hcycle depth.
  induction depth as [depth IH] using (well_founded_induction lt_wf).
  intros H.
  destruct (checkDependencies_true_descends catalog t t Hcycle depth H) as (d' & Hlt & Hd').
  exact (IH d' Hlt Hd').
Qed.

(** X4: on a table that depends on itself through a cycle of views,
    checkDependencies never returns true; and when every table on the way
    is attached and has its target, it does not return at all, however deep
    the recursion is allowed to go. *)
Theorem checkDependencies_cycle :
  forall catalog t,
    reaches catalog t t ->
    (forall depth, checkDependencies catalog depth t <> Some true)
    /\ ((forall u, reaches catalog t u -> ready catalog u = true) ->
        forall depth, checkDependencies catalog depth t = None).
Proof.
  intros catalog t Hcycle.
  split; [exact (checkDependencies_cycle_not_true catalog t Hcycle)|].
  intros Hall depth.
  destruct (checkDependencies catalog depth t) as [[|]|] eqn:E; [| |reflexivity].
  - destruct (checkDependencies_cycle_not_true catalog t Hcycle depth E).
  - destruct (checkDependencies_false_reaches _ _ _ E) as (u & Hr & Hu).
    rewrite (Hall u Hr) in Hu. discriminate.
Qed.

Lemma cyclic_catalog_cycle :
  reaches cyclic_catalog (table_in_default "view_a") (table_in_default "view_a").
Proof.
  apply (@reaches_more cyclic_catalog _ (table_in_default "view_b")).
  - vm_compute. left. reflexivity.
  - apply reaches_step. vm_compute. left. reflexivity.
Qed.

Lemma checkDependencies_cycle_witness :
  reaches cyclic_catalog (table_in_default "view_a") (table_in_default "view_a")
  /\ forall depth,
       checkDependencies cyclic_catalog depth (table_in_default "view_a") <> Some true.
Proof.
  split; [exact cyclic_catalog_cycle|].
  exact (proj1 (checkDependencies_cycle cyclic_catalog (table_in_default "view_a")
                  cyclic_catalog_cycle)).
Defined.

(** ** The reader count *)

Lemma uint64_idem z : uint64 (uint64 z) = uint64 z.
Proof. unfold uint64. apply Z.mod_mod. lia. Qed.

Lemma uint64_small z : (0 <= z < 2 ^ 64)%Z -> uint64 z = z.
Proof. unfold uint64. apply Z.mod_small. Qed.

Lemma uint64_range z : (0 <= uint64 z < 2 ^ 64)%Z.
Proof. unfold uint64. apply Z.mod_pos_bound. lia. Qed.

Lemma reader_calls_count calls :
  forall s,
    (0 <= readers_count s < 2 ^ 64)%Z ->
    readers_count (reader_calls calls s)
    = uint64 (readers_count s
              + Z.of_nat (length (filter is_enter calls))
              - Z.of_nat (length (filter (fun c => negb (is_enter c)) calls))).
Proof.
  induction calls as [|c calls IH]; intros s Hs.
  - simpl. rewrite Z.add_0_r, Z.sub_0_r, uint64_small; auto.
  - cbn [reader_calls]. rewrite IH.
    + destruct c; cbn [filter is_enter negb length reader_call];
        unfold after, incrementReader, decrementReader, modify; simpl state_of;
        cbn [readers_count set_readers_count]; rewrite Nat2Z.inj_succ;
        unfold uint64; rewrite <- Zminus_mod_idemp_l, <- (Zplus_mod_idemp_l (_ mod _));
        rewrite Z.mod_mod by lia; rewrite Zplus_mod_idemp_l, Zminus_mod_idemp_l;
        f_equal; lia.
    + destruct c; unfold after, reader_call, incrementReader, decrementReader, modify;
        simpl; apply uint64_range.
Qed.

(** X5: sources may be built and destroyed in any order; whenever as many
    have been destroyed as were built, the reader count is what it was
    before, also when the count wrapped around on the way. *)
Theorem readers_balance :
  forall calls s,
    (0 <= readers_count s < 2 ^ 64)%Z ->
    length (filter is_enter calls) = length (filter (fun c => negb (is_enter c)) calls) ->
    readers_count (reader_calls calls s) = readers_count s.
Proof.
  intros calls s Hs Hbal.
  rewrite reader_calls_count by exact Hs.
  rewrite Hbal, Z.add_simpl_r. apply uint64_small. exact Hs.
Qed.

Lemma readers_balance_witness :
  readers_count (reader_calls [Leaves; Enters; Enters; Leaves] started_table)
  = readers_count started_table.
Proof.
  apply (readers_balance [Leaves; Enters; Enters; Leaves] started_table).
  - vm_compute. split; [discriminate|reflexivity].
  - reflexivity.
Defined.

(** X6: decrementReader on a table without readers makes the count
    2^64 - 1, and stopLoopIfNoReaders then leaves the loop as it is: the
    loop is no longer stopped for want of readers. *)
Theorem readers_underflow :
  forall s,
    readers_count s = 0%Z ->
    readers_count (after decrementReader s) = (2 ^ 64 - 1)%Z
    /\ stopLoopIfNoReaders (after decrementReader s)
       = Returns tt (after decrementReader s).
Proof.
  intros s H.
  assert (Hc : readers_count (after decrementReader s) = (2 ^ 64 - 1)%Z).
  { unfold after, decrementReader, modify. simpl. rewrite H. reflexivity. }
  split; [exact Hc|].
  unfold stopLoopIfNoReaders. rewrite bind_gets, Hc. reflexivity.
Qed.

Lemma readers_underflow_witness :
  readers_count started_table = 0%Z
  /\ readers_count (after decrementReader started_table) = (2 ^ 64 - 1)%Z.
Proof.
  split; [reflexivity|].
  apply (readers_underflow started_table). reflexivity.
Defined.

(** ** The pool is a stack *)

(** X7: the buffer pushed last is the buffer popped next: after a
    pushReadBuffer that succeeds, popReadBuffer with any timeout returns
    that buffer and leaves the table exactly as it was before the push; and
    a buffer that was popped, pushed back, leaves the table as it was before
    the pop. *)
Theorem push_pop_round_trip :
  forall buffer timeout s s1,
    (pushReadBuffer buffer s = Returns tt s1 ->
       popReadBuffer timeout s1 = Returns (Some buffer) s)
    /\ (Poco.count (semaphore s) <= Poco.max (semaphore s) ->
        popReadBuffer timeout s = Returns (Some buffer) s1 ->
        pushReadBuffer buffer s1 = Returns tt s).
Proof.
  intros buffer timeout s s1. split.
  - unfold pushReadBuffer, semaphore_set, Poco.set. run.
    destruct s as [sub fmt nc ncc bufs [cnt mx] ms att sd mv dt rc conn tk tr].
    simpl. destruct (cnt <? mx)%nat; [|discriminate].
    intros H. injection H as <-.
    unfold popReadBuffer, semaphore_wait, semaphore_tryWait, take_back, Poco.take.
    destruct (timeout =? 0)%Z; run;
      rewrite rev_snoc; simpl; rewrite removelast_snoc; reflexivity.
  - intros Hle.
    unfold popReadBuffer, semaphore_wait, semaphore_tryWait, take_back, Poco.take.
    destruct s as [sub fmt nc ncc bufs [cnt mx] ms att sd mv dt rc conn tk tr].
    simpl in Hle.
    destruct cnt as [|cnt]; [destruct (timeout =? 0)%Z; run; discriminate|].
    destruct (list_snoc_cases _ bufs) as [->|(l & b & ->)].
    { destruct (timeout =? 0)%Z; run; discriminate. }
    assert (Hlt : (cnt <? mx)%nat = true) by (apply Nat.ltb_lt; lia).
    destruct (timeout =? 0)%Z; run;
      rewrite rev_snoc; simpl; rewrite removelast_snoc;
      intros H; injection H as <- <-;
      unfold pushReadBuffer, semaphore_set, Poco.set; run; rewrite Hlt; reflexivity.
Qed.

Lemma push_pop_round_trip_witness :
  exists s1,
    pushReadBuffer 12 (after (popReadBuffer 5) started_table) = Returns tt s1
    /\ popReadBuffer 5 s1 = Returns (Some 12) (after (popReadBuffer 5) started_table).
Proof.
  eexists. split; [vm_compute; reflexivity|].
  apply (proj1 (push_pop_round_trip 12 5%Z (after (popReadBuffer 5) started_table) _)).
  vm_compute. reflexivity.
Defined.

(** ** Calls that come back *)

Lemma streaming_round_finishes p budget_exceeded next :
  dependencies_checked p ->
  finishes next -> finishes (streaming_round p budget_exceeded next).
Proof.
  intros Hp Hnext s. unfold streaming_round. rewrite !bind_gets.
  destruct (shutdown_called s || (num_created_consumers s =? 0)%nat);
    [left; exists tt, s; reflexivity|].
  pose proof (check_dependencies_run p s) as Hc. unfold dependencies_checked in Hp.
  destruct (checkDependencies (catalog p) (stack_depth p) (table_id p)) as [[|]|];
    [| |contradiction]; rewrite (bind_returns _ Hc); cbn [negb];
    [|left; exists tt, s; reflexivity].
  destruct (streamToViews_run (stream_pass p) s)
    as [(e & s1 & Hrun & _)|(back_off & s1 & Hrun & _)].
  - right. exists e, s1. apply (bind_throws _ Hrun).
  - rewrite (bind_returns _ Hrun). destruct back_off.
    + left.
      assert (Hb : exists s2, backoff s1 = Returns tt s2).
      { unfold backoff. rewrite bind_gets.
        destruct (milliseconds_to_wait s1 <? BACKOFF_TRESHOLD)%Z; eexists; reflexivity. }
      destruct Hb as (s2 & Hb). rewrite (bind_returns _ Hb).
      destruct (stopLoopIfNoReaders_returns s2) as (s3 & H3). exists tt, s3. exact H3.
    + rewrite bind_modify. destruct budget_exceeded.
      * left. destruct (stopLoopIfNoReaders_returns
                          (set_milliseconds_to_wait RESCHEDULE_MS s1)) as (s3 & H3).
        exists tt, s3. exact H3.
      * apply Hnext.
Qed.

Lemma streaming_loop_finishes ps :
  passes_return ps -> finishes (streaming_loop ps).
Proof.
  induction ps as [p|p rest IH]; simpl.
  - intros Hp. apply streaming_round_finishes; [exact Hp|].
    intros s. left. exists tt, s. reflexivity.
  - intros [Hp Hrest]. apply streaming_round_finishes; auto.
Qed.

(** The part of streamingToViewsFunc inside [try], with its [catch]. *)
Lemma streaming_try_returns c s :
  passes_return (passes c) ->
  exists s1,
    try_catch
      (up <- gets (fun s => isConnected (connection s)) ;;
       nats_connected <- (if up then ret true
                          else reconnect (cycle_reconnect_attempt c)) ;;
       if (0 <? dependencies_count c)%nat && nats_connected then
         modify (set_mv_attached true) ;;
         streaming_loop (passes c)
       else ret tt)
      (fun _ => ret tt) s = Returns tt s1.
Proof.
  intros Hps. unfold try_catch. rewrite bind_gets.
  assert (Hconn : exists r s0,
    (if isConnected (connection s) then ret true
     else reconnect (cycle_reconnect_attempt c)) s = Returns r s0).
  { destruct (isConnected (connection s)) eqn:Eup.
    - exists true, s. reflexivity.
    - rewrite reconnect_run. unfold isConnected in Eup. rewrite Eup.
      eexists. eexists. reflexivity. }
  destruct Hconn as (r & s0 & Hc). rewrite (bind_returns _ Hc).
  destruct ((0 <? dependencies_count c)%nat && r).
  - rewrite bind_modify.
    destruct (streaming_loop_finishes (passes c) Hps (set_mv_attached true s0))
      as [([] & s1 & H1)|(e & s1 & H1)]; rewrite H1; exists s1; reflexivity.
  - exists s0. reflexivity.
Qed.

(** ** What every member function keeps *)

Section Preserves.

Variable R : StorageNATS -> StorageNATS -> Prop.
Hypothesis HR : Stable R.

Lemma preserves_ret (A : Type) (a : A) : preserves R (ret a).
Proof. intros s. apply (stable_refl HR). Qed.

Lemma preserves_throw (A : Type) (e : Exception) : preserves R (@throw A e).
Proof. intros s. apply (stable_refl HR). Qed.

Lemma preserves_gets (A : Type) (f : StorageNATS -> A) : preserves R (gets f).
Proof. intros s. apply (stable_refl HR). Qed.

Lemma preserves_modify (f : StorageNATS -> StorageNATS) :
  (forall s, R s (f s)) -> preserves R (modify f).
Proof. intros H s. apply H. Qed.

Lemma preserves_emit (e : Event) : preserves R (emit e).
Proof. intros s. apply (stable_trace HR). Qed.

Lemma preserves_bind (A B : Type) (m : M A) (k : A -> M B) :
  preserves R m -> (forall a, preserves R (k a)) -> preserves R (bind m k).
Proof.
  intros Hm Hk s. specialize (Hm s). unfold after, bind in *.
  destruct (m s) as [a s1|e s1|s1|]; simpl in *; auto.
  specialize (Hk a s1). unfold after in Hk.
  destruct (k a s1); simpl in *;
    try (eapply (stable_trans HR); eassumption); apply (stable_refl HR).
Qed.

Lemma preserves_try_catch (A : Type) (m : M A) (h : Exception -> M A) :
  preserves R m -> (forall e, preserves R (h e)) -> preserves R (try_catch m h).
Proof.
  intros Hm Hh s. specialize (Hm s). unfold after, try_catch in *.
  destruct (m s) as [a s1|e s1|s1|]; simpl in *; auto.
  specialize (Hh e s1). unfold after in Hh.
  destruct (h e s1); simpl in *;
    try (eapply (stable_trans HR); eassumption); apply (stable_refl HR).
Qed.

Lemma preserves_if (A : Type) (b : bool) (m1 m2 : M A) :
  preserves R m1 -> preserves R m2 -> preserves R (if b then m1 else m2).
Proof. destruct b; auto. Qed.

Lemma preserves_handler (f : StorageNATS -> NATSHandler) :
  preserves R (modify (fun s => set_handler (f s) s)).
Proof. intros s. apply (stable_connection HR). Qed.

Lemma preserves_connected b : preserves R (modify (set_connected b)).
Proof. intros s. apply (stable_connection HR). Qed.

Ltac keep_step :=
  first
    [ assumption
    | match goal with H : context [preserves R _] |- _ => solve [apply H] end
    | apply preserves_ret | apply preserves_throw | apply preserves_gets
    | apply preserves_emit | apply preserves_handler | apply preserves_connected
    | apply preserves_bind; [|intros ?]
    | apply preserves_try_catch; [|intros ?]
    | apply preserves_if
    | apply preserves_modify; intros ?;
      first [ apply (stable_tasks HR) | apply (stable_buffers HR)
            | apply (stable_created HR) | apply (stable_delay HR)
            | apply (stable_mv_attached HR) | apply (stable_connection HR) ]
    | match goal with |- preserves R (match ?x with _ => _ end) => destruct x end ].

Ltac keep := repeat keep_step.

Lemma preserves_activateAndSchedule t : preserves R (activateAndSchedule t).
Proof. unfold activateAndSchedule. keep. Qed.

Lemma preserves_deactivate t : preserves R (deactivate t).
Proof.
  intros s. unfold after, deactivate.
  destruct (Task_eqb t looping_task && loopRunning (getHandler (connection s))
            && (getLoopState (getHandler (connection s)) =? Loop.RUN)%Z);
    [apply (stable_refl HR)|].
  assert (H : preserves R (emit (EvDeactivate t) ;;
       modify (fun s => set_tasks (set_deactivated t true (tasks s)) s) ;;
       when (Task_eqb t looping_task) then
         modify (fun s =>
           set_handler (mkHandler false (loop_state (getHandler (connection s)))) s)))
    by keep.
  exact (H s).
Qed.

Lemma preserves_scheduleAfter t ms : preserves R (scheduleAfter t ms).
Proof. unfold scheduleAfter. keep. Qed.

Lemma preserves_reconnect attempt : preserves R (reconnect attempt).
Proof. unfold reconnect. keep. Qed.

Lemma preserves_stopLoop : preserves R stopLoop.
Proof. unfold stopLoop. keep. Qed.

Lemma preserves_stopLoopIfNoReaders : preserves R stopLoopIfNoReaders.
Proof. unfold stopLoopIfNoReaders. keep. Qed.

Lemma preserves_startLoop : preserves R startLoop.
Proof.
  pose proof (preserves_activateAndSchedule looping_task).
  unfold startLoop. keep.
Qed.

Lemma preserves_deactivateTask t wait stop_loop lock :
  preserves R (deactivateTask t wait stop_loop lock).
Proof.
  pose proof (preserves_deactivate t). pose proof preserves_stopLoop.
  unfold deactivateTask. keep.
Qed.

Lemma preserves_connectionFunc attempt : preserves R (connectionFunc attempt).
Proof.
  pose proof (preserves_reconnect attempt).
  pose proof (preserves_scheduleAfter connection_task RESCHEDULE_MS).
  unfold connectionFunc. keep.
Qed.

Lemma preserves_pushReadBuffer buffer : preserves R (pushReadBuffer buffer).
Proof.
  assert (Hs : preserves R semaphore_set).
  { intros s. unfold after, semaphore_set.
    destruct (Poco.set (semaphore s)); simpl;
      [apply (stable_semaphore HR)|apply (stable_refl HR)]. }
  unfold pushReadBuffer. keep.
Qed.

Lemma preserves_popReadBuffer timeout : preserves R (popReadBuffer timeout).
Proof.
  assert (Hw : preserves R semaphore_wait).
  { intros s. unfold after, semaphore_wait.
    destruct (Poco.take (semaphore s)); simpl;
      [apply (stable_semaphore HR)|apply (stable_refl HR)]. }
  assert (Ht : preserves R (semaphore_tryWait timeout)).
  { intros s. unfold after, semaphore_tryWait.
    destruct (Poco.take (semaphore s)); simpl;
      [apply (stable_semaphore HR)|apply (stable_refl HR)]. }
  assert (Hb : preserves R take_back).
  { intros s. unfold after, take_back.
    destruct (rev (buffers s)); simpl;
      [apply (stable_refl HR)|apply (stable_buffers HR)]. }
  unfold popReadBuffer. keep.
Qed.

Lemma preserves_loop_leaves left : preserves R (loop_leaves left).
Proof.
  intros s. unfold after, loop_leaves, modify. cbn [state_of].
  destruct (left && loopRunning (getHandler (connection s))
            && (getLoopState (getHandler (connection s)) =? Loop.STOP)%Z);
    [apply (stable_connection HR)|apply (stable_refl HR)].
Qed.

Lemma preserves_check_dependencies p : preserves R (check_dependencies p).
Proof.
  intros s. unfold after. rewrite check_dependencies_run.
  destruct (checkDependencies (catalog p) (stack_depth p) (table_id p));
    apply (stable_refl HR).
Qed.

Lemma preserves_read q : preserves R (read q).
Proof.
  pose proof (preserves_loop_leaves (loop_left q)).
  pose proof (preserves_deactivateTask looping_task false true (read_try_lock q)).
  pose proof (preserves_reconnect (read_reconnect_attempt q)).
  pose proof preserves_startLoop.
  unfold read, raise_if. keep.
Qed.

Lemma preserves_startup_loop make :
  forall todo i, preserves R (startup_loop make i todo).
Proof.
  induction todo as [|todo IH]; intros i; simpl; [apply preserves_ret|].
  pose proof preserves_pushReadBuffer. pose proof (IH (S i)).
  unfold createReadBuffer. keep.
Qed.

Lemma preserves_startup make : preserves R (startup make).
Proof.
  pose proof (preserves_activateAndSchedule connection_task).
  pose proof (preserves_activateAndSchedule streaming_task).
  pose proof (preserves_startup_loop make).
  unfold startup. keep.
Qed.

Lemma preserves_streamToViews p : preserves R (streamToViews p).
Proof.
  pose proof preserves_startLoop.
  pose proof (preserves_deactivateTask looping_task false true (pass_try_lock p)).
  pose proof (preserves_reconnect (pass_reconnect_attempt p)).
  assert (Hd : forall q, preserves R (streamToViews_decide q))
    by (intros q; unfold streamToViews_decide, verdict; keep).
  assert (Hp : forall sources q, preserves R (probe_sources (queueEmpty p) sources q)).
  { induction sources as [|src rest IH]; intros q; simpl; [apply preserves_ret|].
    unfold iterateLoop. keep. }
  unfold streamToViews, streamToViews_after_pass, raise_if, verdict. keep.
Qed.

Lemma preserves_streaming_loop ps : preserves R (streaming_loop ps).
Proof.
  pose proof preserves_stopLoopIfNoReaders.
  induction ps as [p|p rest IH]; simpl;
    pose proof (preserves_streamToViews (stream_pass p));
    pose proof (preserves_check_dependencies p);
    unfold streaming_round, backoff; keep.
Qed.

Lemma preserves_streamingToViewsFunc c : preserves R (streamingToViewsFunc c).
Proof.
  pose proof preserves_stopLoopIfNoReaders.
  pose proof (preserves_reconnect (cycle_reconnect_attempt c)).
  pose proof (preserves_streaming_loop (passes c)).
  unfold streamingToViewsFunc, scheduleAfter. keep.
Qed.

Lemma preserves_shutdown_release : preserves R shutdown_release.
Proof.
  assert (Hu : forall bs, preserves R (unsubscribe_all bs)).
  { induction bs as [|b bs IH]; simpl; [apply preserves_ret|].
    unfold unsubscribe. keep. }
  assert (Hp : forall todo, preserves R (pop_all todo)).
  { induction todo as [|todo IH]; simpl; [apply preserves_ret|].
    pose proof (preserves_popReadBuffer 0). unfold popReadBuffer_noarg. keep. }
  pose proof preserves_stopLoop.
  unfold shutdown_release, disconnect. keep.
Qed.

(** streamingToViewsFunc up to its last statement: it gets there, with the
views detached. *)
Lemma streamingToViewsFunc_prefix c s :
  passes_return (passes c) ->
  exists s3,
    streamingToViewsFunc c s
    = (down <- gets shutdown_called ;;
       when (negb down) then
         (ms <- gets milliseconds_to_wait ;;
          scheduleAfter streaming_task ms)) s3
    /\ R s s3 /\ mv_attached s3 = false.
Proof.
  intros Hps. unfold streamingToViewsFunc.
  destruct (streaming_try_returns c s Hps) as (s1 & H1).
  assert (R1 : R s s1).
  { pose proof preserves_stopLoopIfNoReaders.
    pose proof (preserves_reconnect (cycle_reconnect_attempt c)).
    pose proof (preserves_streaming_loop (passes c)).
    assert (Hp : preserves R
      (try_catch
        (up <- gets (fun s => isConnected (connection s)) ;;
         nats_connected <- (if up then ret true
                            else reconnect (cycle_reconnect_attempt c)) ;;
         if (0 <? dependencies_count c)%nat && nats_connected then
           modify (set_mv_attached true) ;;
           streaming_loop (passes c)
         else ret tt)
        (fun _ => ret tt))) by keep.
    specialize (Hp s). unfold after in Hp. rewrite H1 in Hp. exact Hp. }
  rewrite (bind_returns _ H1), bind_modify, bind_gets.
  set (s2 := set_mv_attached false s1).
  assert (H3 : exists s3,
    (when (loopRunning (getHandler (connection s2))) then stopLoopIfNoReaders) s2
    = Returns tt s3 /\ R s2 s3 /\ mv_attached s3 = false).
  { destruct (loopRunning (getHandler (connection s2))).
    - destruct (stopLoopIfNoReaders_returns s2) as (s3 & E).
      exists s3. split; [exact E|]. split.
      + pose proof (preserves_stopLoopIfNoReaders s2) as Hp.
        unfold after in Hp. rewrite E in Hp. exact Hp.
      + revert E. unfold stopLoopIfNoReaders. rewrite bind_gets.
        destruct (negb (readers_count s2 =? 0)%Z).
        * intros E. injection E as <-. reflexivity.
        * run. intros E. injection E as <-. reflexivity.
    - exists s2. split; [reflexivity|]. split; [apply (stable_refl HR)|reflexivity]. }
  destruct H3 as (s3 & H3 & R3 & Hmv).
  rewrite (bind_returns _ H3). exists s3. split; [reflexivity|]. split; [|exact Hmv].
  eapply (stable_trans HR); [exact R1|].
  eapply (stable_trans HR); [apply (stable_mv_attached HR)|exact R3].
Qed.

(** The two assignments that only shutdown and the reader calls make. *)
Hypothesis R_shutdown : forall s, R s (set_shutdown_called true s).
Hypothesis R_readers : forall z s, R s (set_readers_count (uint64 z) s).

Lemma preserves_shutdown lock1 lock2 lock3 :
  preserves R (shutdown lock1 lock2 lock3).
Proof.
  pose proof preserves_shutdown_release.
  pose proof (preserves_deactivateTask connection_task true false lock1).
  pose proof (preserves_deactivateTask streaming_task true false lock2).
  pose proof (preserves_deactivateTask looping_task true true lock3).
  unfold shutdown, shutdown_tasks. keep.
Qed.

Lemma call_member_keeps c s : R s (call_member c s).
Proof.
  destruct c; simpl.
  - apply preserves_startup.
  - apply preserves_read.
  - apply preserves_connectionFunc.
  - apply preserves_streamingToViewsFunc.
  - apply preserves_popReadBuffer.
  - apply preserves_pushReadBuffer.
  - apply R_readers.
  - apply R_readers.
  - apply preserves_startLoop.
  - apply preserves_stopLoop.
  - apply preserves_stopLoopIfNoReaders.
  - apply preserves_shutdown.
Qed.

Lemma evolves_keeps s s' : evolves s s' -> R s s'.
Proof.
  induction 1 as [|s' c _ IH]; [apply (stable_refl HR)|].
  eapply (stable_trans HR); [exact IH|apply call_member_keeps].
Qed.

End Preserves.

Lemma same_flag_stable : Stable same_flag.
Proof. constructor; unfold same_flag; intros; simpl; congruence. Qed.

Lemma flag_stays_stable : Stable flag_stays.
Proof. constructor; unfold flag_stays; intros; simpl; auto. Qed.

Lemma same_configuration_stable : Stable same_configuration.
Proof.
  constructor; unfold same_configuration; intros; simpl;
    repeat match goal with H : _ /\ _ |- _ => destruct H end;
    repeat split; congruence.
Qed.

(** ** The streaming task, from outside *)

Lemma backoff_delay_values N :
  In (backoff_delay N) [500; 1000; 2000; 4000; 8000]%Z.
Proof.
  destruct (Nat.lt_ge_cases N 4) as [Hlt|Hge].
  - destruct N as [|[|[|[|N]]]]; try lia; simpl; auto 6.
  - assert (H : (2 ^ 4 <= 2 ^ Z.of_nat N)%Z) by (apply Z.pow_le_mono_r; lia).
    change (2 ^ 4)%Z with 16%Z in H.
    unfold backoff_delay, RESCHEDULE_MS, BACKOFF_TRESHOLD.
    rewrite Z.min_r by lia. simpl. auto 6.
Qed.

(** X8: a run of the streaming task on a table that is not shut down
    comes back whenever its checks of the dependencies do, whatever was
    thrown inside; it leaves the views marked as detached, and its last act
    is to schedule the streaming task again after the delay the table then
    holds.  On a table reached from its constructor that delay is one of
    500, 1000, 2000, 4000 and 8000 ms.  When the run gets as far as its
    first check of the dependencies and that check does not come back (the
    recursion of checkDependencies has no bound), the run does not come
    back either, and nothing is scheduled. *)
Theorem streaming_task_reschedules :
  forall c s,
    shutdown_called s = false ->
    (passes_return (passes c) ->
     exists s' tr,
       streamingToViewsFunc c s = Returns tt s'
       /\ mv_attached s' = false
       /\ trace s' = tr ++ [EvScheduleAfter streaming_task (milliseconds_to_wait s')]
       /\ (reachable s ->
           In (milliseconds_to_wait s') [500; 1000; 2000; 4000; 8000]%Z))
    /\ (num_created_consumers s <> 0 ->
        dependencies_count c <> 0 ->
        isConnected (connection s) = true ->
        checkDependencies (catalog (first_pass (passes c)))
                          (stack_depth (first_pass (passes c)))
                          (table_id (first_pass (passes c))) = None ->
        streamingToViewsFunc c s = Undefined).
Proof.
  intros c s Hsd. split.
  - intros Hps.
    destruct (streamingToViewsFunc_prefix same_flag same_flag_stable c s Hps)
      as (s3 & Hrun & Hflag & Hmv).
    unfold same_flag in Hflag. rewrite Hsd in Hflag.
    rewrite bind_gets, Hflag in Hrun. simpl in Hrun.
    rewrite bind_gets in Hrun. unfold scheduleAfter, emit, modify in Hrun.
    eexists. exists (trace s3). split; [exact Hrun|].
    split; [exact Hmv|]. split; [reflexivity|].
    intros Hreach.
    assert (Hr : reachable (after (streamingToViewsFunc c) s))
      by (apply reach_streamingToViewsFunc; exact Hreach).
    apply reachable_delay_law in Hr. unfold after in Hr. rewrite Hrun in Hr.
    simpl in Hr. unfold delay_law in Hr. simpl. simpl in Hr. rewrite Hr.
    apply backoff_delay_values.
  - intros Hcr Hdep Hup Hnone.
    assert (Hloop : streaming_loop (passes c) (set_mv_attached true s) = Undefined).
    { assert (Hround : forall budget_exceeded next,
        streaming_round (first_pass (passes c)) budget_exceeded next
          (set_mv_attached true s) = Undefined).
      { intros budget_exceeded next. unfold streaming_round. rewrite !bind_gets.
        cbn [shutdown_called num_created_consumers set_mv_attached].
        rewrite Hsd. destruct (num_created_consumers s); [contradiction|].
        cbn [orb Nat.eqb]. apply bind_undefined.
        rewrite check_dependencies_run, Hnone. reflexivity. }
      destruct (passes c); simpl in *; apply Hround. }
    unfold streamingToViewsFunc. apply bind_undefined.
    unfold try_catch. rewrite bind_gets, Hup, bind_ret.
    destruct (dependencies_count c); [contradiction|].
    cbn [Nat.ltb Nat.leb andb]. rewrite bind_modify, Hloop. reflexivity.
Qed.

Lemma streaming_task_reschedules_witness :
  shutdown_called started_table = false
  /\ (exists s' tr,
        streamingToViewsFunc quiet_cycle started_table = Returns tt s'
        /\ mv_attached s' = false
        /\ trace s' = tr ++ [EvScheduleAfter streaming_task (milliseconds_to_wait s')])
  /\ streamingToViewsFunc cyclic_cycle started_table = Undefined.
Proof.
  split; [reflexivity|].
  destruct (streaming_task_reschedules quiet_cycle started_table eq_refl) as [H _].
  destruct (streaming_task_reschedules cyclic_cycle started_table eq_refl) as [_ H'].
  split.
  - destruct H as (s' & tr & H1 & H2 & H3 & _); [vm_compute; discriminate|].
    exists s', tr. auto.
  - apply H'; [discriminate|discriminate|reflexivity|vm_compute; reflexivity].
Defined.

Lemma streaming_loop_down ps s :
  shutdown_called s = true -> streaming_loop ps s = Returns tt s.
Proof.
  intros H. destruct ps; simpl; unfold streaming_round;
    rewrite !bind_gets, H; reflexivity.
Qed.

Lemma streaming_loop_no_consumers ps s :
  num_created_consumers s = 0 -> streaming_loop ps s = Returns tt s.
Proof.
  intros H. destruct ps; simpl; unfold streaming_round;
    rewrite !bind_gets, H, orb_true_r; reflexivity.
Qed.

(** The end of streamingToViewsFunc, after the [try] (lines 505-513). *)
Lemma streaming_tail_run (k : unit -> M unit) s1 :
  k = (fun _ =>
         modify (set_mv_attached false) ;;
         running <- gets (fun s => loopRunning (getHandler (connection s))) ;;
         (when running then stopLoopIfNoReaders) ;;
         down <- gets shutdown_called ;;
         when (negb down) then
           (ms <- gets milliseconds_to_wait ;;
            scheduleAfter streaming_task ms)) ->
  exists s',
    k tt s1 = Returns tt s'
    /\ mv_attached s' = false
    /\ trace s'
       = trace s1
         ++ (if loopRunning (getHandler (connection s1)) && (readers_count s1 =? 0)%Z
             then [EvUpdateLoopState Loop.STOP] else [])
         ++ (if shutdown_called s1 then []
             else [EvScheduleAfter streaming_task (milliseconds_to_wait s1)])
    /\ milliseconds_to_wait s' = milliseconds_to_wait s1
    /\ buffers s' = buffers s1
    /\ semaphore s' = semaphore s1
    /\ num_created_consumers s' = num_created_consumers s1
    /\ shutdown_called s' = shutdown_called s1.
Proof.
  intros ->. cbv beta. rewrite bind_modify, bind_gets.
  unfold stopLoopIfNoReaders, scheduleAfter.
  cbn [connection set_mv_attached].
  destruct (loopRunning (getHandler (connection s1)));
    [destruct (readers_count s1 =? 0)%Z eqn:Erc|];
    destruct (shutdown_called s1) eqn:Esd;
    run; rewrite ?Erc; run; rewrite ?Esd; simpl;
    eexists; (split; [reflexivity|]); simpl;
    rewrite <- ?app_assoc, ?app_nil_r; repeat split; assumption.
Qed.

(** A run of the streaming task that makes no pass: the table is shut down,
    or no view depends on it, or it has no consumer, or the connection is
    down and cannot be restored. *)
Lemma idle_run c s :
  shutdown_called s = true
  \/ dependencies_count c = 0
  \/ num_created_consumers s = 0
  \/ (isConnected (connection s) = false /\ cycle_reconnect_attempt c = false) ->
  exists s',
    streamingToViewsFunc c s = Returns tt s'
    /\ mv_attached s' = false
    /\ trace s'
       = trace s
         ++ (if isConnected (connection s) then []
             else [EvReconnect (cycle_reconnect_attempt c)])
         ++ (if loopRunning (getHandler (connection s)) && (readers_count s =? 0)%Z
             then [EvUpdateLoopState Loop.STOP] else [])
         ++ (if shutdown_called s then []
             else [EvScheduleAfter streaming_task (milliseconds_to_wait s)])
    /\ milliseconds_to_wait s' = milliseconds_to_wait s
    /\ buffers s' = buffers s
    /\ semaphore s' = semaphore s
    /\ num_created_consumers s' = num_created_consumers s
    /\ shutdown_called s' = shutdown_called s.
Proof.
  intros Hidle.
  set (attempt := cycle_reconnect_attempt c).
  set (s0 := if isConnected (connection s) then s
             else set_connected attempt (set_trace (trace s ++ [EvReconnect attempt]) s)).
  assert (Hs0 : trace s0 = trace s ++ (if isConnected (connection s) then []
                                       else [EvReconnect attempt])
                /\ getHandler (connection s0) = getHandler (connection s)
                /\ readers_count s0 = readers_count s
                /\ shutdown_called s0 = shutdown_called s
                /\ milliseconds_to_wait s0 = milliseconds_to_wait s
                /\ buffers s0 = buffers s
                /\ semaphore s0 = semaphore s
                /\ num_created_consumers s0 = num_created_consumers s).
  { unfold s0. destruct (isConnected (connection s)); simpl;
      rewrite ?app_nil_r; repeat split. }
  destruct Hs0 as (Htr0 & Hh0 & Hrc0 & Hsd0 & Hms0 & Hb0 & Hsem0 & Hn0).
  assert (Hconn :
    (if isConnected (connection s) then ret true else reconnect attempt) s
    = Returns (if isConnected (connection s) then true else attempt) s0).
  { unfold s0. destruct (isConnected (connection s)) eqn:Eup; [reflexivity|].
    rewrite reconnect_run. unfold isConnected in Eup. rewrite Eup. reflexivity. }
  unfold streamingToViewsFunc.
  match goal with |- exists _, bind ?m ?k s = _ /\ _ =>
    assert (Htry : exists s1, m s = Returns tt s1
                     /\ set_mv_attached false s1 = set_mv_attached false s0);
    [|destruct Htry as (s1 & Htry & Hs1);
      destruct (streaming_tail_run k s1 eq_refl)
        as (s' & Hrun & Hmv & Htr & Hms & Hb & Hsem & Hn & Hsd);
      exists s'; rewrite (bind_returns _ Htry); split; [exact Hrun|]]
  end.
  { unfold try_catch. rewrite bind_gets, (bind_returns _ Hconn).
    destruct ((0 <? dependencies_count c)%nat
              && (if isConnected (connection s) then true else attempt)) eqn:Ego.
    - apply andb_true_iff in Ego as [Edep Er]. rewrite bind_modify.
      assert (Hloop : streaming_loop (passes c) (set_mv_attached true s0)
                      = Returns tt (set_mv_attached true s0)).
      { destruct Hidle as [Hdown|[Hdep|[Hnone|[Hdown Hfail]]]].
        - apply streaming_loop_down. simpl. rewrite Hsd0. exact Hdown.
        - rewrite Hdep in Edep. discriminate Edep.
        - apply streaming_loop_no_consumers. simpl. rewrite Hn0. exact Hnone.
        - rewrite Hdown in Er. unfold attempt in Er. rewrite Hfail in Er.
          discriminate Er. }
      rewrite Hloop. eexists. split; reflexivity.
    - exists s0. split; reflexivity. }
  assert (E : forall A (f : StorageNATS -> A),
            (forall x b, f (set_mv_attached b x) = f x) -> f s1 = f s0).
  { intros A f Hf. rewrite <- (Hf s1 false), Hs1. apply Hf. }
  rewrite (E _ trace) in Htr by reflexivity.
  rewrite (E _ (fun x => getHandler (connection x))) in Htr by reflexivity.
  rewrite (E _ readers_count) in Htr by reflexivity.
  rewrite (E _ shutdown_called) in Htr, Hsd by reflexivity.
  rewrite (E _ milliseconds_to_wait) in Htr, Hms by reflexivity.
  rewrite (E _ buffers) in Hb by reflexivity.
  rewrite (E _ semaphore) in Hsem by reflexivity.
  rewrite (E _ num_created_consumers) in Hn by reflexivity.
  rewrite Htr, Htr0, Hh0, Hrc0, Hsd0, Hms0, <- app_assoc.
  repeat split; congruence.
Qed.

(** X9: a run of the streaming task on a table that is shut down makes no
    pass and schedules nothing.  It comes back with the views marked as
    detached and the delay as it was, and all it does is one attempt to
    reconnect, when the connection is down, and then one request to stop
    the loop, when the loop is running and no reader is counted. *)
Theorem streaming_task_after_shutdown :
  forall c s,
    shutdown_called s = true ->
    exists s',
      streamingToViewsFunc c s = Returns tt s'
      /\ mv_attached s' = false
      /\ trace s'
         = trace s
           ++ (if isConnected (connection s) then []
               else [EvReconnect (cycle_reconnect_attempt c)])
           ++ (if loopRunning (getHandler (connection s)) && (readers_count s =? 0)%Z
               then [EvUpdateLoopState Loop.STOP] else [])
      /\ milliseconds_to_wait s' = milliseconds_to_wait s.
Proof.
  intros c s Hsd.
  destruct (idle_run c s (or_introl Hsd)) as (s' & Hrun & Hmv & Htr & Hms & _).
  exists s'. rewrite Hsd, app_nil_r in Htr. auto.
Qed.

Lemma streaming_task_after_shutdown_witness :
  shutdown_called (set_shutdown_called true started_table) = true
  /\ exists s',
       streamingToViewsFunc quiet_cycle (set_shutdown_called true started_table)
       = Returns tt s'
       /\ mv_attached s' = false
       /\ trace s' = trace (set_shutdown_called true started_table).
Proof.
  split; [reflexivity|].
  destruct (streaming_task_after_shutdown quiet_cycle
              (set_shutdown_called true started_table) eq_refl)
    as (s' & H1 & H2 & H3 & _).
  exists s'. split; [exact H1|]. split; [exact H2|].
  rewrite H3. vm_compute. reflexivity.
Defined.

(** ** Once shut down, always shut down *)

Lemma shutdown_sets_flag lock1 lock2 lock3 s :
  shutdown lock1 lock2 lock3 s <> Undefined ->
  shutdown_called (after (shutdown lock1 lock2 lock3) s) = true.
Proof.
  unfold after, shutdown. intros Hdef. revert Hdef.
  destruct (shutdown_tasks_run lock1 lock2 lock3 s) as (s1 & Hrun & _ & Hsd & _).
  rewrite (bind_returns _ Hrun).
  assert (Hp : preserves same_flag (try_catch shutdown_release (fun _ => ret tt))).
  { apply (preserves_try_catch _ same_flag_stable).
    - apply (preserves_shutdown_release _ same_flag_stable).
    - intros e. apply (preserves_ret _ same_flag_stable). }
  specialize (Hp s1). unfold same_flag, after in Hp.
  destruct (try_catch shutdown_release (fun _ => ret tt) s1); simpl in *; congruence.
Qed.

(** X10: shutdown, unless it runs into undefined behaviour, sets the
    shutdown flag, also when it does not come back (it may wait for a leased
    buffer), and no member function run afterwards, in any number and order,
    clears it. *)
Theorem shutdown_flag_is_final :
  forall lock1 lock2 lock3 s s',
    shutdown lock1 lock2 lock3 s <> Undefined ->
    evolves (after (shutdown lock1 lock2 lock3) s) s' ->
    shutdown_called s' = true.
Proof.
  intros lock1 lock2 lock3 s s' Hdef H.
  apply (evolves_keeps flag_stays flag_stays_stable) in H.
  - apply H. apply shutdown_sets_flag. exact Hdef.
  - intros s0 _. reflexivity.
  - intros z s0 H0. exact H0.
Qed.

Lemma shutdown_flag_is_final_witness :
  shutdown_called
    (call_member (CallStreamingToViewsFunc quiet_cycle)
       (call_member (CallRead direct_select)
          (after (shutdown true true true) started_table))) = true.
Proof.
  apply (shutdown_flag_is_final true true true started_table).
  - vm_compute. discriminate.
  - apply evolves_call. apply evolves_call. apply evolves_refl.
Defined.

(** ** What the constructor fixes *)

(** X11: whatever member functions run on a constructed table, in any
    number and order, its subjects, its format name, its number of consumers
    and its attach flag stay what the constructor made of the settings. *)
Theorem configuration_is_fixed :
  forall g st att s0 s,
    StorageNATS_ctor g st att = inr s0 ->
    evolves s0 s ->
    subjects s = parseList (expand g (value (nats_subjects st)))
    /\ format_name s = expand g (value (nats_format st))
    /\ num_consumers s = value (nats_num_consumers st)
    /\ is_attach s = att.
Proof.
  intros g st att s0 s Hctor Hev.
  destruct (ctor_fields g st att s0 Hctor) as (H1 & H2 & H3 & H4 & _).
  apply (evolves_keeps same_configuration same_configuration_stable) in Hev.
  - destruct Hev as (E1 & E2 & E3 & E4 & _). repeat split; congruence.
  - intros s1. unfold same_configuration. simpl. auto.
  - intros z s1. unfold same_configuration. simpl. auto.
Qed.

Lemma configuration_is_fixed_witness :
  StorageNATS_ctor example_globals example_settings false = inr example_table
  /\ num_consumers
       (call_member (CallShutdown true true true)
          (call_member (CallStartup (fun i => inr (10 + i))) example_table)) = 2.
Proof.
  split; [reflexivity|].
  refine (proj1 (proj2 (proj2 (configuration_is_fixed example_globals example_settings
            false example_table _ eq_refl _)))).
  apply evolves_call. apply evolves_call. apply evolves_refl.
Defined.

(** ** startup, buffer by buffer *)

(** The loop of startup when no failure is rethrown: the table is attached,
    or every creation succeeds. *)
Lemma startup_loop_creates make :
  forall todo i s,
    is_attach s = true \/ (forall j, j < todo -> exists b, make (i + j) = inr b) ->
    Poco.count (semaphore s) + todo <= Poco.max (semaphore s) ->
    exists s',
      startup_loop make i todo s = Returns tt s'
      /\ buffers s' = buffers s ++ created_buffers make i todo
      /\ num_created_consumers s'
         = num_created_consumers s + length (created_buffers make i todo)
      /\ Poco.count (semaphore s')
         = Poco.count (semaphore s) + length (created_buffers make i todo)
      /\ Poco.max (semaphore s') = Poco.max (semaphore s)
      /\ tasks s' = tasks s /\ trace s' = trace s /\ connection s' = connection s
      /\ num_consumers s' = num_consumers s.
Proof.
  induction todo as [|todo IH]; intros i s Hok Hle.
  - exists s. simpl. unfold ret. rewrite app_nil_r, !Nat.add_0_r. repeat split.
  - rewrite startup_loop_round. simpl created_buffers.
    destruct (make i) as [e|buffer] eqn:Emake.
    + destruct Hok as [Hatt|Hall].
      * rewrite Hatt. apply IH; [left; exact Hatt|lia].
      * destruct (Hall 0 ltac:(lia)) as (b & Hb).
        rewrite Nat.add_0_r in Hb. congruence.
    + unfold Poco.set.
      assert (Hlt : (Poco.count (semaphore s) <? Poco.max (semaphore s))%nat = true)
        by (apply Nat.ltb_lt; lia).
      rewrite Hlt. cbv zeta.
      match goal with |- context [startup_loop make (S i) todo ?s2] =>
        destruct (IH (S i) s2) as (s' & Hrun & Hb & Hn & Hc & Hm & Ht & Htr & Hco & Hnc)
      end.
      * destruct Hok as [Hatt|Hall]; [left; exact Hatt|right].
        intros j Hj. specialize (Hall (S j) ltac:(lia)).
        rewrite Nat.add_succ_r in Hall. exact Hall.
      * simpl. lia.
      * exists s'. split; [exact Hrun|]. simpl in *.
        rewrite Hb, Hn, Hc, Hm, Ht, Htr, Hco, Hnc, <- app_assoc. simpl.
        repeat split; lia.
Qed.

(** The loop of startup on a table that is not attached, when the creation
    at counter [i + k] is the first to fail. *)
Lemma startup_loop_fails make :
  forall todo i s k e,
    is_attach s = false ->
    k < todo -> make (i + k) = inl e ->
    (forall j, j < k -> exists b, make (i + j) = inr b) ->
    Poco.count (semaphore s) + todo <= Poco.max (semaphore s) ->
    exists s',
      startup_loop make i todo s = Throws e s'
      /\ num_created_consumers s' = num_created_consumers s + k
      /\ length (buffers s') = length (buffers s) + k
      /\ tasks s' = tasks s /\ trace s' = trace s.
Proof.
  induction todo as [|todo IH]; intros i s k e Hatt Hk Hfail Hbefore Hle; [lia|].
  rewrite startup_loop_round.
  destruct k as [|k].
  - rewrite Nat.add_0_r in Hfail. rewrite Hfail, Hatt.
    exists s. rewrite !Nat.add_0_r. repeat split.
  - destruct (Hbefore 0 ltac:(lia)) as (b & Hb). rewrite Nat.add_0_r in Hb.
    rewrite Hb. unfold Poco.set.
    assert (Hlt : (Poco.count (semaphore s) <? Poco.max (semaphore s))%nat = true)
      by (apply Nat.ltb_lt; lia).
    rewrite Hlt. cbv zeta.
    match goal with |- context [startup_loop make (S i) todo ?s2] =>
      destruct (IH (S i) s2 k e) as (s' & Hrun & Hn & Hb' & Ht & Htr)
    end.
    + exact Hatt.
    + lia.
    + rewrite Nat.add_succ_comm. exact Hfail.
    + intros j Hj. specialize (Hbefore (S j) ltac:(lia)).
      rewrite Nat.add_succ_comm. exact Hbefore.
    + simpl. lia.
    + exists s'. split; [exact Hrun|]. simpl in *.
      rewrite Hn, Hb', Ht, Htr, length_app. simpl. repeat split; lia.
Qed.

(** X12: attaching a table whose number of consumers is positive and in
    the range of int never fails because of the broker: whether or not the
    broker can be reached and whichever subscriptions it refuses, the
    constructor and startup both come back.  The pool then holds the
    buffers that could be created, in the order of creation,
    num_created_consumers counts them, the streaming task is active, and
    the connection task is active exactly when the constructor could not
    connect.  With a number of consumers that is 0 or negative as an int
    the constructor throws, also when attaching: the semaphore is made
    outside the [try]. *)
Theorem attach_never_fails :
  forall g st make,
    ((0 < Z.of_nat (value (nats_num_consumers st)) < 2 ^ 31)%Z ->
     exists s0 s1,
       StorageNATS_ctor g st true = inr s0
       /\ startup make s0 = Returns tt s1
       /\ buffers s1 = created_buffers make 0 (value (nats_num_consumers st))
       /\ num_created_consumers s1 = length (buffers s1)
       /\ length (buffers s1) <= value (nats_num_consumers st)
       /\ deactivated streaming_task (tasks s1) = false
       /\ deactivated connection_task (tasks s1) = isConnected (connection s0))
    /\ ((to_int (value (nats_num_consumers st)) <= 0)%Z ->
        exists e, StorageNATS_ctor g st true = inl e /\ code e = FOREIGN_ERROR).
Proof.
  intros g st make. split.
  2:{ intros Hneg. unfold StorageNATS_ctor.
      destruct (Z.leb_spec (to_int (value (nats_num_consumers st))) 0); [|lia].
      eexists. split; reflexivity. }
  intros Hn.
  assert (Hint : to_int (value (nats_num_consumers st))
                 = Z.of_nat (value (nats_num_consumers st)))
    by (apply to_int_small; lia).
  assert (Hctor : exists s0, StorageNATS_ctor g st true = inr s0).
  { unfold StorageNATS_ctor. rewrite Hint.
    destruct (Z.leb_spec (Z.of_nat (value (nats_num_consumers st))) 0); [lia|].
    destruct (connect g) as [e|[|]]; simpl; eexists; reflexivity. }
  destruct Hctor as (s0 & Hctor). exists s0.
  destruct (ctor_fields g st true s0 Hctor)
    as (_ & _ & Hnc & Hatt & Htk & Hbuf & Hcr & Hsem & _).
  rewrite Hint, Nat2Z.id in Hsem.
  cut (exists s1,
      startup make s0 = Returns tt s1
      /\ buffers s1 = created_buffers make 0 (value (nats_num_consumers st))
      /\ num_created_consumers s1 = length (buffers s1)
      /\ length (buffers s1) <= value (nats_num_consumers st)
      /\ deactivated streaming_task (tasks s1) = false
      /\ deactivated connection_task (tasks s1) = isConnected (connection s0)).
  { intros (s1 & H). exists s1. split; [exact Hctor|exact H]. }
  unfold startup. rewrite bind_gets.
  set (s0' := if negb (isConnected (connection s0))
              then after (activateAndSchedule connection_task) s0 else s0).
  assert (H0 : (when (negb (isConnected (connection s0)))
                then activateAndSchedule connection_task) s0 = Returns tt s0').
  { unfold s0'. destruct (negb (isConnected (connection s0))); reflexivity. }
  rewrite (bind_returns _ H0), bind_gets.
  assert (Hsame : buffers s0' = [] /\ num_created_consumers s0' = 0
                  /\ semaphore s0' = semaphore s0 /\ is_attach s0' = true
                  /\ num_consumers s0' = num_consumers s0
                  /\ tasks s0' = mkTasks (isConnected (connection s0)) true true).
  { unfold s0'. destruct (isConnected (connection s0)) eqn:E; simpl;
      rewrite ?Hbuf, ?Hcr, ?Hatt, ?Htk; repeat split. }
  destruct Hsame as (Hb' & Hc' & Hs' & Ha' & Hn' & Ht').
  destruct (startup_loop_creates make (num_consumers s0') 0 s0')
    as (s1 & Hrun & Hb1 & Hn1 & _ & _ & Ht1 & _).
  { left. exact Ha'. }
  { rewrite Hs', Hsem, Hn', Hnc. simpl. lia. }
  rewrite (bind_returns _ Hrun).
  unfold activateAndSchedule. run.
  eexists. split; [reflexivity|]. simpl.
  rewrite Hb1, Hn1, Hb', Hc', Ht1, Ht', Hn', Hnc. simpl.
  repeat split.
  clear. generalize 0 at 1. induction (value (nats_num_consumers st)) as [|n IH];
    intros i; simpl; [lia|].
  destruct (make i); simpl; specialize (IH (S i)); lia.
Qed.

Lemma attach_never_fails_witness :
  (0 < Z.of_nat (value (nats_num_consumers larger_settings)) < 2 ^ 31)%Z
  /\ exists s0 s1,
       StorageNATS_ctor (mkGlobals (fun s => s) (inr false)) larger_settings true = inr s0
       /\ startup flaky_make s0 = Returns tt s1
       /\ buffers s1 = created_buffers flaky_make 0 4.
Proof.
  assert (H : (0 < Z.of_nat (value (nats_num_consumers larger_settings)) < 2 ^ 31)%Z)
    by (split; reflexivity).
  split; [exact H|].
  destruct (proj1 (attach_never_fails (mkGlobals (fun s => s) (inr false))
                     larger_settings flaky_make) H)
    as (s0 & s1 & H1 & H2 & H3 & _).
  exists s0, s1. auto.
Defined.

Example attach_with_flaky_broker :
  created_buffers flaky_make 0 4 = [20; 22].
Proof. reflexivity. Qed.

Lemma created_buffers_all make :
  forall todo i,
    (forall j, j < todo -> exists b, make (i + j) = inr b) ->
    length (created_buffers make i todo) = todo.
Proof.
  induction todo as [|todo IH]; intros i H; simpl; [reflexivity|].
  destruct (H 0 ltac:(lia)) as (b & Hb). rewrite Nat.add_0_r in Hb. rewrite Hb.
  simpl. f_equal. apply IH. intros j Hj.
  specialize (H (S j) ltac:(lia)). rewrite Nat.add_succ_r in H. exact H.
Qed.

(** X13: a table that is created, not attached, with a number of consumers
    in the range of int, is born connected, and its startup gives up at the
    first consumer buffer that cannot be created:
    the exception of that creation leaves startup, the buffers created
    before it stay in the pool and are counted, and the streaming task is
    not activated.  When every creation succeeds startup comes back with
    num_consumers buffers and the streaming task active. *)
Theorem create_stops_at_first_failure :
  forall g st make s0,
    (Z.of_nat (value (nats_num_consumers st)) < 2 ^ 31)%Z ->
    StorageNATS_ctor g st false = inr s0 ->
    isConnected (connection s0) = true
    /\ ((forall j, j < num_consumers s0 -> exists b, make j = inr b) ->
        exists s1,
          startup make s0 = Returns tt s1
          /\ num_created_consumers s1 = num_consumers s0
          /\ length (buffers s1) = num_consumers s0
          /\ deactivated streaming_task (tasks s1) = false)
    /\ (forall k e,
          k < num_consumers s0 -> make k = inl e ->
          (forall j, j < k -> exists b, make j = inr b) ->
          exists s1,
            startup make s0 = Throws e s1
            /\ num_created_consumers s1 = k
            /\ length (buffers s1) = k
            /\ deactivated streaming_task (tasks s1) = true
            /\ trace s1 = trace s0).
Proof.
  intros g st make s0 Hint Hctor.
  destruct (ctor_fields g st false s0 Hctor)
    as (_ & _ & Hnc & Hatt & Htk & Hbuf & Hcr & Hsem & _ & Hconn & Hmust & _).
  rewrite (to_int_small _ Hint), Nat2Z.id in Hsem.
  assert (Hup : isConnected (connection s0) = true) by (apply Hconn; auto).
  split; [exact Hup|].
  split.
  - intros Hall. unfold startup. rewrite bind_gets, Hup. cbn [negb].
    rewrite bind_ret, bind_gets.
    destruct (startup_loop_creates make (num_consumers s0) 0 s0)
      as (s1 & Hrun & Hb1 & Hn1 & _ & _ & Ht1 & _).
    { right. exact Hall. }
    { rewrite Hsem, Hnc. simpl. lia. }
    rewrite (bind_returns _ Hrun). unfold activateAndSchedule. run.
    eexists. split; [reflexivity|]. simpl.
    assert (Hlen : length (created_buffers make 0 (num_consumers s0))
                   = num_consumers s0)
      by (apply created_buffers_all; exact Hall).
    rewrite Hn1, Hb1, Hbuf, Hcr. simpl. rewrite Hlen. auto.
  - intros k e Hk Hfail Hbefore. unfold startup. rewrite bind_gets, Hup.
    cbn [negb]. rewrite bind_ret, bind_gets.
    destruct (startup_loop_fails make (num_consumers s0) 0 s0 k e)
      as (s1 & Hrun & Hn1 & Hb1 & Ht1 & Htr1); auto.
    { rewrite Hsem, Hnc. simpl. lia. }
    rewrite (bind_throws _ Hrun). exists s1. split; [reflexivity|].
    rewrite Hn1, Hb1, Ht1, Htk, Hbuf, Hcr. simpl. auto.
Qed.

Lemma create_stops_at_first_failure_witness :
  (Z.of_nat (value (nats_num_consumers larger_settings)) < 2 ^ 31)%Z
  /\ exists s0,
       StorageNATS_ctor example_globals larger_settings false = inr s0
       /\ exists e s1, startup flaky_make s0 = Throws e s1
            /\ num_created_consumers s1 = 1.
Proof.
  split; [reflexivity|].
  eexists. split; [vm_compute; reflexivity|].
  match goal with |- context [startup flaky_make ?s0] =>
    destruct (create_stops_at_first_failure example_globals larger_settings flaky_make s0)
      as (_ & _ & H)
  end; [reflexivity|vm_compute; reflexivity|].
  destruct (H 1 (mkException FOREIGN_ERROR "Failed to subscribe"))
    as (s1 & H1 & H2 & _).
  - vm_compute. lia.
  - reflexivity.
  - intros j Hj. assert (j = 0) by lia. subst j. eexists. reflexivity.
  - eexists. exists s1. split; [exact H1|exact H2].
Defined.

(** ** The producer's subject *)

Lemma split_head s :
  exists tokens, boost.split is_comma s = before_comma s :: tokens.
Proof.
  induction s as [|c s (tokens & IH)]; simpl; [eexists; reflexivity|].
  destruct (is_comma c); [eexists; reflexivity|].
  rewrite IH. eexists; reflexivity.
Qed.

(** X14: on a table that was constructed and then used in any way,
    createWriteBuffer publishes to the first subject only: the text of the
    nats_subjects setting (macros expanded) up to its first comma, trimmed.
    The table is left as it was, and the buffer has a row delimiter unless
    the delimiter is the zero character.  When the expanded setting is
    empty there is no first subject and the call is undefined. *)
Theorem write_buffer_subject :
  forall g st att s0 s row_delimiter,
    StorageNATS_ctor g st att = inr s0 ->
    evolves s0 s ->
    (expand g (value (nats_subjects st)) = [] ->
     createWriteBuffer row_delimiter s = Undefined)
    /\ (expand g (value (nats_subjects st)) <> [] ->
        exists buffer,
          createWriteBuffer row_delimiter s = Returns buffer s
          /\ producer_subject buffer
             = boost.trim (before_comma (expand g (value (nats_subjects st))))
          /\ (producer_delimiter buffer = None <-> row_delimiter = zero)
          /\ rows_per_message buffer = 1 /\ chunk_size buffer = 1024).
Proof.
  intros g st att s0 s row_delimiter Hctor Hev.
  destruct (ctor_fields g st att s0 Hctor) as (H1 & _).
  apply (evolves_keeps same_configuration same_configuration_stable) in Hev;
    [|intros s1; unfold same_configuration; simpl; auto
     |intros z s1; unfold same_configuration; simpl; auto].
  destruct Hev as (E1 & _). rewrite H1 in E1.
  unfold createWriteBuffer. rewrite E1. split.
  - intros ->. reflexivity.
  - intros Hne. destruct (expand g (value (nats_subjects st))) as [|c text] eqn:E;
      [contradiction|].
    unfold parseList. destruct (split_head (c :: text)) as (tokens & ->).
    cbn [map]. eexists. split; [reflexivity|]. cbn [producer_subject producer_delimiter
      rows_per_message chunk_size].
    split; [reflexivity|]. split; [|auto].
    destruct (Ascii.eqb row_delimiter zero) eqn:Ez.
    + apply Ascii.eqb_eq in Ez. tauto.
    + apply Ascii.eqb_neq in Ez. split; [discriminate|contradiction].
Qed.

Lemma write_buffer_subject_witness :
  exists s0,
    StorageNATS_ctor example_globals larger_settings false = inr s0
    /\ exists buffer,
         createWriteBuffer zero (call_member (CallStartup (fun i => inr (10 + i))) s0)
         = Returns buffer (call_member (CallStartup (fun i => inr (10 + i))) s0)
         /\ producer_subject buffer = list_ascii_of_string "orders".
Proof.
  eexists. split; [vm_compute; reflexivity|].
  match goal with |- context [call_member ?c ?s0] =>
    destruct (proj2 (write_buffer_subject example_globals larger_settings false s0
                       (call_member c s0) zero ltac:(vm_compute; reflexivity)
                       (@evolves_call _ _ c (evolves_refl _))))
      as (buffer & H1 & H2 & _)
  end.
  - vm_compute. discriminate.
  - exists buffer. split; [exact H1|]. rewrite H2. vm_compute. reflexivity.
Defined.

(** ** What read hands out *)



(** ** A second shutdown *)

Lemma pop_all_frame :
  forall todo s,
    Poco.count (semaphore s) = length (buffers s) ->
    todo <= length (buffers s) ->
    exists s',
      pop_all todo s = Returns tt s'
      /\ Poco.count (semaphore s') = length (buffers s')
      /\ length (buffers s') = length (buffers s) - todo
      /\ num_created_consumers s' = num_created_consumers s.
Proof.
  induction todo as [|todo IH]; intros s Hc Hle.
  - exists s. simpl. rewrite Nat.sub_0_r. auto.
  - simpl. destruct (list_snoc_cases _ (buffers s)) as [E|(l & b & E)].
    + rewrite E in Hle. simpl in Hle. lia.
    + unfold bind. rewrite (popReadBuffer_noarg_back s l b E Hc).
      match goal with |- context [pop_all todo ?s1] =>
        destruct (IH s1) as (s' & Hrun & Hc' & Hlen & Hn); [reflexivity| |] end.
      { simpl. rewrite E, length_app in Hle. simpl in Hle. lia. }
      exists s'. simpl in *. rewrite Hrun, Hlen, Hn, E, length_app. simpl.
      repeat split; auto; lia.
Qed.

Lemma shutdown_release_frame s :
  loopRunning (getHandler (connection s)) = false ->
  Poco.count (semaphore s) = length (buffers s) ->
  num_created_consumers s = length (buffers s) ->
  exists s',
    try_catch shutdown_release (fun _ => ret tt) s = Returns tt s'
    /\ Poco.count (semaphore s') = 0
    /\ buffers s' = []
    /\ num_created_consumers s' = num_created_consumers s.
Proof.
  intros Hrun Hc Hall. unfold shutdown_release, disconnect, stopLoop.
  destruct (drop_table s) eqn:Ed.
  - run. rewrite Ed. rewrite unsubscribe_all_run. simpl. rewrite Hrun. simpl.
    match goal with |- context [pop_all _ ?s1] =>
      destruct (pop_all_frame (num_created_consumers s) s1) as (s' & Hp & Hc' & Hl & Hn);
        [exact Hc|simpl; lia|] end.
    exists s'. simpl in *. rewrite Hp, Hn. split; [reflexivity|].
    assert (Hz : length (buffers s') = 0) by lia.
    split; [lia|]. split; [|reflexivity].
    destruct (buffers s'); [reflexivity|discriminate].
  - run. rewrite Ed. simpl. rewrite Hrun. simpl.
    match goal with |- context [pop_all _ ?s1] =>
      destruct (pop_all_frame (num_created_consumers s) s1) as (s' & Hp & Hc' & Hl & Hn);
        [exact Hc|simpl; lia|] end.
    exists s'. simpl in *. rewrite Hp, Hn. split; [reflexivity|].
    assert (Hz : length (buffers s') = 0) by lia.
    split; [lia|]. split; [|reflexivity].
    destruct (buffers s'); [reflexivity|discriminate].
Qed.

(** X16: shutdown takes every consumer buffer out of the pool but keeps
    num_created_consumers.  So after a shutdown of a table whose created
    buffers were all free, a second shutdown pops again as many times: it
    waits on the semaphore when the table had created a consumer, and
    returns when it had created none. *)
Theorem second_shutdown_waits :
  forall lock1 lock2 lock3 again1 again2 again3 s,
    Poco.count (semaphore s) = length (buffers s) ->
    num_created_consumers s = length (buffers s) ->
    exists s1,
      shutdown lock1 lock2 lock3 s = Returns tt s1
      /\ buffers s1 = []
      /\ num_created_consumers s1 = num_created_consumers s
      /\ (num_created_consumers s <> 0 ->
          exists s2, shutdown again1 again2 again3 s1 = Blocks s2)
      /\ (num_created_consumers s = 0 ->
          exists s2, shutdown again1 again2 again3 s1 = Returns tt s2).
Proof.
  intros lock1 lock2 lock3 again1 again2 again3 s Hc Hall.
  destruct (shutdown_tasks_run lock1 lock2 lock3 s)
    as (t1 & Hrun & _ & _ & _ & Hh & _ & Hb & Hsem & Hn & _).
  destruct (shutdown_release_frame t1) as (s1 & Hrel & Hc1 & Hb1 & Hn1).
  { rewrite Hh. reflexivity. }
  { rewrite Hsem, Hb. exact Hc. }
  { rewrite Hn, Hb. exact Hall. }
  exists s1.
  split; [unfold shutdown; rewrite (bind_returns _ Hrun); exact Hrel|].
  split; [exact Hb1|]. split; [congruence|].
  destruct (shutdown_tasks_run again1 again2 again3 s1)
    as (t2 & Hrun2 & _ & _ & _ & Hh2 & _ & Hb2 & Hsem2 & Hn2 & _).
  destruct (shutdown_release_run t2) as (s2 & Hrel2 & _).
  { rewrite Hh2. reflexivity. }
  { rewrite Hsem2, Hb2, Hc1, Hb1. reflexivity. }
  rewrite Hn2, Hb2, Hb1, Hn1, Hn in Hrel2. simpl length in Hrel2.
  split; intros Hcase; exists s2; unfold shutdown; rewrite (bind_returns _ Hrun2).
  - destruct (num_created_consumers s); [contradiction|exact Hrel2].
  - rewrite Hcase in Hrel2. exact Hrel2.
Qed.

Lemma second_shutdown_waits_witness :
  Poco.count (semaphore started_table) = length (buffers started_table)
  /\ num_created_consumers started_table = length (buffers started_table)
  /\ exists s1 s2,
       shutdown true true true started_table = Returns tt s1
       /\ shutdown true true true s1 = Blocks s2.
Proof.
  split; [reflexivity|]. split; [reflexivity|].
  destruct (second_shutdown_waits true true true true true true started_table
              eq_refl eq_refl) as (s1 & H1 & _ & _ & H2 & _).
  destruct (H2 ltac:(discriminate)) as (s2 & H3).
  exists s1, s2. split; assumption.
Defined.

(** ** Block size and queue size *)

Lemma ctor_consumers g st att s0 :
  StorageNATS_ctor g st att = inr s0 -> value (nats_num_consumers st) <> 0.
Proof.
  unfold StorageNATS_ctor.
  destruct (value (nats_num_consumers st)); [discriminate|]. discriminate.
Qed.

(** X17: on a table that was constructed and then used in any way,
    getMaxBlockSize is defined (it never divides by zero) and leaves the
    table alone.  It is the nats_max_block_size of the table when that was
    set, and otherwise the share of one consumer in max_insert_block_size:
    the largest block size whose product with num_consumers does not exceed
    it.  The queue size made of it is at least QUEUE_SIZE and fits 32 bits,
    and it is QUEUE_SIZE exactly for every block size that is a multiple of
    2^32. *)
Theorem block_size_is_a_share :
  forall g st att s0 s nats_max_block_size max_insert_block_size,
    StorageNATS_ctor g st att = inr s0 ->
    evolves s0 s ->
    (0 <= value nats_max_block_size < 2 ^ 64)%Z ->
    (0 <= max_insert_block_size < 2 ^ 64)%Z ->
    exists block_size size,
      getMaxBlockSize nats_max_block_size max_insert_block_size s
      = Returns block_size s
      /\ queue_size nats_max_block_size max_insert_block_size s = Returns size s
      /\ (0 <= block_size < 2 ^ 64)%Z
      /\ (changed nats_max_block_size = true ->
          block_size = value nats_max_block_size)
      /\ (changed nats_max_block_size = false ->
          (block_size * Z.of_nat (value (nats_num_consumers st))
           <= max_insert_block_size
           < (block_size + 1) * Z.of_nat (value (nats_num_consumers st)))%Z)
      /\ (QUEUE_SIZE <= size < 2 ^ 32)%Z
      /\ (block_size mod 2 ^ 32 = 0 -> size = QUEUE_SIZE)%Z
      /\ (QUEUE_SIZE <= block_size < 2 ^ 32 -> size = block_size)%Z.
Proof.
  intros g st att s0 s mbs mi Hctor Hev Hv Hmi.
  pose proof (ctor_consumers g st att s0 Hctor) as Hne.
  destruct (ctor_fields g st att s0 Hctor) as (_ & _ & Hnc & _).
  apply (evolves_keeps same_configuration same_configuration_stable) in Hev;
    [|intros s1; unfold same_configuration; simpl; auto
     |intros z s1; unfold same_configuration; simpl; auto].
  destruct Hev as (_ & _ & E3 & _). rewrite Hnc in E3.
  set (n := Z.of_nat (value (nats_num_consumers st))).
  assert (Hn : (0 < n)%Z) by (unfold n; lia).
  assert (Hsize : forall b, (0 <= b)%Z ->
            (QUEUE_SIZE <= Z.max QUEUE_SIZE (uint32 b) < 2 ^ 32)%Z
            /\ (b mod 2 ^ 32 = 0 -> Z.max QUEUE_SIZE (uint32 b) = QUEUE_SIZE)%Z
            /\ (QUEUE_SIZE <= b < 2 ^ 32 -> Z.max QUEUE_SIZE (uint32 b) = b)%Z).
  { intros b Hb. unfold uint32, QUEUE_SIZE.
    pose proof (Z.mod_pos_bound b (2 ^ 32) ltac:(lia)) as Hm.
    split; [lia|]. split.
    - intros ->. reflexivity.
    - intros Hr. rewrite Z.mod_small by lia. lia. }
  unfold queue_size, getMaxBlockSize, bind, ret. rewrite E3.
  destruct (changed mbs) eqn:Ech.
  - exists (value mbs). eexists. split; [reflexivity|]. split; [reflexivity|].
    split; [exact Hv|]. split; [reflexivity|]. split; [discriminate|].
    apply Hsize. lia.
  - destruct (value (nats_num_consumers st)) as [|k] eqn:Ek; [contradiction|].
    fold n. exists (mi / n)%Z. eexists.
    split; [reflexivity|]. split; [reflexivity|].
    assert (Hdiv : (0 <= mi / n)%Z) by (apply Z.div_pos; lia).
    assert (Hle : (mi / n <= mi)%Z) by (apply Z.div_le_upper_bound; nia).
    split; [lia|]. split; [discriminate|].
    split.
    + intros _. pose proof (Z.div_mod mi n ltac:(lia)) as Hdm.
      pose proof (Z.mod_pos_bound mi n Hn) as Hmod. nia.
    + apply Hsize. exact Hdiv.
Qed.

Lemma block_size_is_a_share_witness :
  exists s0,
    StorageNATS_ctor example_globals larger_settings false = inr s0
    /\ exists block_size size,
         getMaxBlockSize (mkSetting 65505%Z false) 1048449%Z s0
         = Returns block_size s0
         /\ queue_size (mkSetting 65505%Z false) 1048449%Z s0 = Returns size s0
         /\ (block_size * 4 <= 1048449 < (block_size + 1) * 4)%Z
         /\ (QUEUE_SIZE <= size < 2 ^ 32)%Z.
Proof.
  eexists. split; [vm_compute; reflexivity|].
  match goal with |- context [getMaxBlockSize _ _ ?s0] =>
    destruct (block_size_is_a_share example_globals larger_settings false s0 s0
                (mkSetting 65505%Z false) 1048449%Z
                ltac:(vm_compute; reflexivity) (evolves_refl _)
                ltac:(simpl; lia) ltac:(lia))
      as (b & q & H1 & H2 & _ & _ & H3 & H4 & _)
  end.
  exists b, q. split; [exact H1|]. split; [exact H2|].
  split; [exact (H3 eq_refl)|exact H4].
Defined.

(** ** The subject list as a normal form *)

Lemma split_length s :
  length (boost.split is_comma s) = S (length (filter is_comma s)).
Proof.
  induction s as [|c s IH]; [reflexivity|]. simpl.
  destruct (is_comma c); simpl; [rewrite IH; reflexivity|].
  destruct (boost.split is_comma s) as [|t ts]; simpl in *; [discriminate IH|exact IH].
Qed.

Lemma join_comma_nil cs : join_comma cs = [] -> cs = [] \/ cs = [[]].
Proof.
  destruct cs as [|c [|t ts]]; simpl; auto.
  - intros ->. auto.
  - intros H. destruct c; discriminate H.
Qed.

Lemma trimmed_of_idem c t : trimmed_of c t -> trimmed_of t t.
Proof.
  intros (l & r & _ & _ & _ & Hst & Hend).
  exists [], []. rewrite app_nil_r. auto.
Qed.

Lemma trimmed_of_no_comma c t :
  trimmed_of c t -> ~ In ","%char c -> ~ In ","%char t.
Proof.
  intros (l & r & -> & _) Hc Ht. apply Hc.
  apply in_or_app. right. apply in_or_app. left. exact Ht.
Qed.

(** X18: parseList gives one name for each comma of the text and one more,
    and none for the empty text; and its result is a normal form: written
    out with commas and parsed again it is unchanged, unless it is the one
    empty name that a text of nothing but whitespace gives, which is
    written as the empty text and parsed to no name at all. *)
Theorem parseList_is_normal_form :
  forall text,
    length (parseList text)
    = match text with [] => 0 | _ => S (length (filter is_comma text)) end
    /\ (parseList text <> [[]] ->
        parseList (join_comma (parseList text)) = parseList text)
    /\ (parseList text = [[]] ->
        parseList (join_comma (parseList text)) = []).
Proof.
  intros text. split; [|split].
  - destruct text as [|c text]; [reflexivity|].
    unfold parseList. rewrite length_map. apply split_length.
  - intros Hne. destruct text as [|c text]; [reflexivity|].
    destruct (parseList_components (c :: text)) as (cs & (Hcs & _ & Hcomma) & Htrim);
      [discriminate|].
    set (names := parseList (c :: text)) in *.
    symmetry. apply parseList_unique with (components := names).
    + intros Hj. apply join_comma_nil in Hj as [Hj|Hj]; [|contradiction].
      rewrite Hj in Htrim. inversion Htrim. subst. contradiction.
    + split; [|split; [reflexivity|]].
      * intros Hn. rewrite Hn in Htrim. inversion Htrim. subst. contradiction.
      * clear Hne Hcs. induction Htrim as [|x y xs ys Hxy _ IH]; [constructor|].
        inversion Hcomma; subst. constructor; [|auto].
        eapply trimmed_of_no_comma; eauto.
    + clear Hne Hcs Hcomma. induction Htrim as [|x y xs ys Hxy _ IH]; constructor; auto.
      eapply trimmed_of_idem; eauto.
  - intros ->. reflexivity.
Qed.

Lemma parseList_is_normal_form_witness :
  parseList (list_ascii_of_string " a ,b,, c") <> [[]]
  /\ parseList (list_ascii_of_string "a,b,,c")
     = parseList (list_ascii_of_string " a ,b,, c")
  /\ parseList (list_ascii_of_string "  ") = [[]].
Proof.
  split; [vm_compute; discriminate|]. split; [|reflexivity].
  exact (proj1 (proj2 (parseList_is_normal_form (list_ascii_of_string " a ,b,, c")))
           ltac:(vm_compute; discriminate)).
Defined.

(** ** Runs of the streaming task that make no pass *)

(** X19: a run of the streaming task makes no pass when no view depends on
    the table, when the table has created no consumer, or when the
    connection is down and cannot be restored.  It comes back with the
    views marked as detached, and leaves the delay, the buffers, the
    semaphore and num_created_consumers as they were.  All it does is one
    attempt to reconnect, when the connection is down, then one request to
    stop the loop, when the loop is running and no reader is counted, and
    then, unless the table is shut down, the scheduling of its next run
    after the unchanged delay. *)
Theorem streaming_task_idles :
  forall c s,
    dependencies_count c = 0
    \/ num_created_consumers s = 0
    \/ (isConnected (connection s) = false /\ cycle_reconnect_attempt c = false) ->
    exists s',
      streamingToViewsFunc c s = Returns tt s'
      /\ mv_attached s' = false
      /\ trace s'
         = trace s
           ++ (if isConnected (connection s) then []
               else [EvReconnect (cycle_reconnect_attempt c)])
           ++ (if loopRunning (getHandler (connection s)) && (readers_count s =? 0)%Z
               then [EvUpdateLoopState Loop.STOP] else [])
           ++ (if shutdown_called s then []
               else [EvScheduleAfter streaming_task (milliseconds_to_wait s)])
      /\ milliseconds_to_wait s' = milliseconds_to_wait s
      /\ buffers s' = buffers s
      /\ semaphore s' = semaphore s
      /\ num_created_consumers s' = num_created_consumers s.
Proof.
  intros c s Hidle.
  destruct (idle_run c s (or_intror Hidle))
    as (s' & Hrun & Hmv & Htr & Hms & Hb & Hsem & Hn & _).
  exists s'. auto 8.
Qed.

Lemma streaming_task_idles_witness :
  dependencies_count (mkCycle 0 true (BudgetExceeded (views_ready quiet_pass))) = 0
  /\ exists s',
       streamingToViewsFunc (mkCycle 0 true (BudgetExceeded (views_ready quiet_pass)))
         started_table = Returns tt s'
       /\ trace s'
          = trace started_table ++ [EvScheduleAfter streaming_task 500]
       /\ buffers s' = buffers started_table.
Proof.
  split; [reflexivity|].
  destruct (streaming_task_idles
              (mkCycle 0 true (BudgetExceeded (views_ready quiet_pass)))
              started_table (or_introl eq_refl))
    as (s' & H1 & _ & H2 & _ & H3 & _).
  exists s'. split; [exact H1|]. split; [|exact H3].
  rewrite H2. vm_compute. reflexivity.
Defined.

(** ** read, and the views *)



(** Two views are attached, the streaming task has run once and waits for
    its next run: read hands out both streams. *)
Example read_between_runs :
  dependencies_count quiet_cycle = 2
  /\ mv_attached (after (streamingToViewsFunc quiet_cycle) started_table) = false
  /\ exists s',
       read direct_select (after (streamingToViewsFunc quiet_cycle) started_table)
       = Returns (mkPipe 2) s'.
Proof.
  split; [reflexivity|]. split; [vm_compute; reflexivity|].
  eexists. vm_compute. reflexivity.
Qed.
